(** * InstaPRO: the content knowledge store and the recommendation extractor

    A shallow embedding of [Database.py] (class [RAGDatabase]) and of the
    pure parts of [app.py] (class [InstagramPostRecommender]), with the
    properties of the design document proved or refuted on it.

    Modelling conventions.
    - A Python [str] is a [string]; a character stands for the code point
      of the same number (0..255).  [str.upper] is modelled on the ASCII
      letters, which is where the code uses it.
    - A Python [int] is a [Z]; the length of a text is a [nat].
    - A Python [float] obtained from [a / b] on integers is the exact
      rational [a / b] in [Q]; the binary64 rounding of CPython is not
      modelled.
    - A Python [dict] is an association list in insertion order with
      unique keys ([setitem] overwrites in place or appends).
    - An exception is a value [Raise e] of the [result] monad.
    - [list.sort] and [sorted] are stable; they are modelled by a stable
      insertion sort, which returns the same list as any stable sort. *)

From Stdlib Require Import List String Ascii ZArith NArith QArith Bool Lia Arith.
From Stdlib Require Import Permutation Sorted ZifyBool.
Import ListNotations.

Set Implicit Arguments.
Open Scope string_scope.
Open Scope list_scope.

(* ================================================================== *)
(** ** Exceptions and the result monad *)

Inductive exn : Type :=
| KeyError (key : string)
| JSONDecodeError
| ValueError
| ZeroDivisionError
| IndexError
| NotModelled.

Inductive result (A : Type) : Type :=
| Ok (a : A)
| Raise (e : exn).

Arguments Ok {A} a.
Arguments Raise {A} e.

Definition bind {A B : Type} (c : result A) (k : A -> result B) : result B :=
  match c with
  | Ok a => k a
  | Raise e => Raise e
  end.

Declare Scope result_scope.
Delimit Scope result_scope with result.
Notation "x <- c ;; k" := (bind c (fun x => k))
  (at level 61, c at next level, right associativity) : result_scope.
Open Scope result_scope.

(** [d[k]] on a dict that may lack the key. *)
Definition getitem {A : Type} (key : string) (o : option A) : result A :=
  match o with
  | Some a => Ok a
  | None => Raise (KeyError key)
  end.

(** [mapM] for [result]: the first exception wins, as in a Python loop. *)
Fixpoint mapM {A B : Type} (f : A -> result B) (l : list A) : result (list B) :=
  match l with
  | [] => Ok []
  | x :: t => y <- f x ;; ys <- mapM f t ;; Ok (y :: ys)
  end.

(* ================================================================== *)
(** ** Python strings *)

Module PyStr.

Definition dquote : ascii := "034"%char.
Definition backslash : ascii := "092"%char.
Definition newline : string := String "010"%char "".

Definition code (c : ascii) : N := N_of_ascii c.

(** [str.upper] on ASCII text.  On the code points 128..255 Python's
    [upper] yields no ASCII letter but [S] (from the sharp s). *)
Definition upper_char (c : ascii) : ascii :=
  if ((97 <=? code c) && (code c <=? 122))%N
  then ascii_of_N (code c - 32) else c.

Fixpoint upper (s : string) : string :=
  match s with
  | EmptyString => EmptyString
  | String c t => String (upper_char c) (upper t)
  end.

(** [needle in hay]. *)
Fixpoint contains (needle hay : string) : bool :=
  prefix needle hay ||
  match hay with
  | EmptyString => false
  | String _ t => contains needle t
  end.

(** [s.replace(old, new)] for a non-empty [old]: leftmost occurrences,
    not overlapping.  [skip] counts the characters of a matched
    occurrence that remain to be dropped. *)
Fixpoint replace_go (old new : string) (skip : nat) (s : string) : string :=
  match s with
  | EmptyString => EmptyString
  | String c t =>
      match skip with
      | S k => replace_go old new k t
      | O =>
          if prefix old s
          then new ++ replace_go old new (String.length old - 1) t
          else String c (replace_go old new 0 t)
      end
  end.

Definition replace (old new s : string) : string := replace_go old new 0 s.

(** [str.isspace] on the code points below 256. *)
Definition isspace (c : ascii) : bool :=
  let n := code c in
  (((9 <=? n) && (n <=? 13)) || ((28 <=? n) && (n <=? 32))
   || (n =? 133) || (n =? 160))%N.

Fixpoint lstrip (s : string) : string :=
  match s with
  | EmptyString => EmptyString
  | String c t => if isspace c then lstrip t else s
  end.

Fixpoint rstrip (s : string) : string :=
  match s with
  | EmptyString => EmptyString
  | String c t =>
      match rstrip t with
      | EmptyString => if isspace c then EmptyString else String c EmptyString
      | t' => String c t'
      end
  end.

Definition strip (s : string) : string := rstrip (lstrip s).

(** [s[:n]]. *)
Definition take (n : nat) (s : string) : string := substring 0 n s.

(** ["=" * n]. *)
Fixpoint repeat (s : string) (n : nat) : string :=
  match n with
  | O => EmptyString
  | S k => s ++ repeat s k
  end.

(** Truth value of a string: non-empty. *)
Definition truthy (s : string) : bool :=
  match s with EmptyString => false | _ => true end.

End PyStr.

(* ================================================================== *)
(** ** [json.dumps] and [json.loads] on lists of strings

    The store serialises the tag list with [json.dumps] and reads it back
    with [json.loads].  The encoder is CPython's default one
    ([ensure_ascii=True], separators [", "]); the decoder accepts the JSON
    texts that denote a list of strings; a text that starts another JSON
    value, and an escape above [00ff], is reported as [NotModelled]. *)

Module Json.
Import PyStr.

Definition hex_digit (n : N) : ascii :=
  if (n <? 10)%N then ascii_of_N (48 + n) else ascii_of_N (87 + n).

(** ['\\u{0:04x}'.format(n)] for [n < 256]. *)
Definition u_escape (c : ascii) : string :=
  String backslash
    (String "u" (String "0" (String "0"
       (String (hex_digit (code c / 16)) (String (hex_digit (code c mod 16)) ""))))).

Definition escape_char (c : ascii) : string :=
  let n := code c in
  if (n =? 34)%N then String backslash (String dquote "")
  else if (n =? 92)%N then String backslash (String backslash "")
  else if (n =? 10)%N then String backslash "n"
  else if (n =? 13)%N then String backslash "r"
  else if (n =? 9)%N then String backslash "t"
  else if (n =? 8)%N then String backslash "b"
  else if (n =? 12)%N then String backslash "f"
  else if ((32 <=? n) && (n <=? 126))%N then String c ""
  else u_escape c.

Fixpoint escape_body (s : string) : string :=
  match s with
  | EmptyString => EmptyString
  | String c t => escape_char c ++ escape_body t
  end.

Definition encode_string (s : string) : string :=
  String dquote (escape_body s ++ String dquote "").

Fixpoint encode_items (l : list string) : string :=
  match l with
  | [] => EmptyString
  | [s] => encode_string s
  | s :: t => encode_string s ++ ", " ++ encode_items t
  end.

Definition dumps (l : list string) : string :=
  "[" ++ encode_items l ++ "]".

(** *** The decoder: one pass over the text *)

Inductive jstate : Type :=
| JStart                 (* before the opening bracket *)
| JFirst                 (* after the opening bracket *)
| JStr (cur : string)    (* inside a string literal *)
| JAfter                 (* after an element *)
| JNext                  (* after a comma *)
| JEnd.                  (* after the closing bracket *)

Definition is_ws (c : ascii) : bool :=
  let n := code c in ((n =? 32) || (n =? 9) || (n =? 10) || (n =? 13))%N.

Definition hex_val (c : ascii) : option N :=
  let n := code c in
  if ((48 <=? n) && (n <=? 57))%N then Some (n - 48)%N
  else if ((97 <=? n) && (n <=? 102))%N then Some (n - 87)%N
  else if ((65 <=? n) && (n <=? 70))%N then Some (n - 55)%N
  else None.

Definition snoc (s : string) (c : ascii) : string := s ++ String c "".

(** The character denoted by a one-letter escape. *)
Definition unescape (e : ascii) : option ascii :=
  let n := code e in
  if (n =? 34)%N then Some dquote
  else if (n =? 92)%N then Some backslash
  else if (n =? 47)%N then Some "/"%char
  else if (n =? 98)%N then Some "008"%char
  else if (n =? 102)%N then Some "012"%char
  else if (n =? 110)%N then Some "010"%char
  else if (n =? 114)%N then Some "013"%char
  else if (n =? 116)%N then Some "009"%char
  else None.

Fixpoint scan (st : jstate) (acc : list string) (s : string)
  : result (list string) :=
  match s with
  | EmptyString =>
      match st with
      | JEnd => Ok acc
      | _ => Raise JSONDecodeError
      end
  | String c t =>
      match st with
      | JStart =>
          if is_ws c then scan JStart acc t
          else if (code c =? 91)%N then scan JFirst acc t
          else Raise NotModelled
      | JFirst =>
          if is_ws c then scan JFirst acc t
          else if (code c =? 93)%N then scan JEnd acc t
          else if (code c =? 34)%N then scan (JStr "") acc t
          else Raise NotModelled
      | JNext =>
          if is_ws c then scan JNext acc t
          else if (code c =? 34)%N then scan (JStr "") acc t
          else if (code c =? 93)%N then Raise JSONDecodeError
          else Raise NotModelled
      | JAfter =>
          if is_ws c then scan JAfter acc t
          else if (code c =? 44)%N then scan JNext acc t
          else if (code c =? 93)%N then scan JEnd acc t
          else Raise JSONDecodeError
      | JEnd =>
          if is_ws c then scan JEnd acc t else Raise JSONDecodeError
      | JStr cur =>
          if (code c =? 34)%N then scan JAfter (acc ++ [cur]) t
          else if (code c <? 32)%N then Raise JSONDecodeError
          else if (code c =? 92)%N then
            match t with
            | EmptyString => Raise JSONDecodeError
            | String e t1 =>
                if (code e =? 117)%N then
                  match t1 with
                  | String h1 (String h2 (String h3 (String h4 t2))) =>
                      match hex_val h1, hex_val h2, hex_val h3, hex_val h4 with
                      | Some a, Some b, Some x, Some y =>
                          if ((a =? 0) && (b =? 0))%N
                          then scan (JStr (snoc cur (ascii_of_N (16 * x + y)))) acc t2
                          else Raise NotModelled
                      | _, _, _, _ => Raise JSONDecodeError
                      end
                  | _ => Raise JSONDecodeError
                  end
                else
                  match unescape e with
                  | Some d => scan (JStr (snoc cur d)) acc t1
                  | None => Raise JSONDecodeError
                  end
            end
          else scan (JStr (snoc cur c)) acc t
      end
  end.

Definition loads (s : string) : result (list string) := scan JStart [] s.

End Json.


(* ================================================================== *)
(** ** Python numbers, dicts, slices and the stable sort *)

Module Py.

(** [a / b] on integers: true division, [ZeroDivisionError] on 0. *)
Definition truediv (a b : Z) : result Q :=
  if (b =? 0)%Z then Raise ZeroDivisionError
  else if (0 <? b)%Z then Ok (a # Z.to_pos b)
  else Ok ((- a) # Z.to_pos (- b)).

Definition sum (l : list Z) : Z := fold_left Z.add l 0%Z.

Definition len {A : Type} (l : list A) : Z := Z.of_nat (List.length l).

(** [a < b] on floats, here on rationals. *)
Definition Qltb (a b : Q) : bool := negb (Qle_bool b a).

(** [l[:limit]]; a negative [limit] counts from the end. *)
Definition slice_to {A : Type} (limit : Z) (l : list A) : list A :=
  if (0 <=? limit)%Z then firstn (Z.to_nat limit) l
  else firstn (Z.to_nat (len l + limit)) l.

(** [set(l)]: the distinct elements of [l].  Python leaves the
    iteration order of a set unspecified; properties are stated on
    membership only. *)
Definition set (l : list string) : list string := nodup string_dec l.

Section Dict.
Variable V : Type.

Definition dict : Type := list (string * V).

Fixpoint get (d : dict) (k : string) : option V :=
  match d with
  | [] => None
  | (k', v) :: t => if String.eqb k' k then Some v else get t k
  end.

(** [d.get(k, default)]. *)
Definition get_default (d : dict) (k : string) (default : V) : V :=
  match get d k with
  | Some v => v
  | None => default
  end.

(** [d[k] = v]: an existing key keeps its position. *)
Fixpoint setitem (d : dict) (k : string) (v : V) : dict :=
  match d with
  | [] => [(k, v)]
  | (k', v') :: t =>
      if String.eqb k' k then (k', v) :: t else (k', v') :: setitem t k v
  end.

Definition keys (d : dict) : list string := map fst d.
End Dict.

(** [sorted(l, key=key, reverse=True)]: descending by key, elements with
    equal keys in their original order.  [ltb] is [<] on the keys. *)
Section Sorted.
Variables (A K : Type) (key : A -> K) (ltb : K -> K -> bool).

Fixpoint insert_desc (x : A) (l : list A) : list A :=
  match l with
  | [] => [x]
  | y :: t =>
      if ltb (key x) (key y) then y :: insert_desc x t else x :: y :: t
  end.

Definition sorted_desc (l : list A) : list A :=
  fold_right insert_desc [] l.
End Sorted.

End Py.

(* ================================================================== *)
(** ** [datetime]: dates, ordinals, [strptime] for ["%Y-%m-%d"] *)

Module Datetime.
Import PyStr.
Open Scope Z_scope.

(** [micros] is the time of day in microseconds. *)
Record datetime : Type :=
  { year : Z; month : Z; day : Z; micros : Z }.

Definition day_micros : Z := 86400000000.

Definition is_leap (y : Z) : bool :=
  (y mod 4 =? 0) && (negb (y mod 100 =? 0) || (y mod 400 =? 0)).

Definition days_in_month (y m : Z) : Z :=
  if m =? 2 then (if is_leap y then 29 else 28)
  else if (m =? 4) || (m =? 6) || (m =? 9) || (m =? 11) then 30
  else 31.

Definition days_before_year (y : Z) : Z :=
  let p := y - 1 in p * 365 + p / 4 - p / 100 + p / 400.

Fixpoint days_before_month_upto (y : Z) (n : nat) : Z :=
  match n with
  | O => 0
  | S k => days_before_month_upto y k + days_in_month y (Z.of_nat (S k))
  end.

Definition days_before_month (y m : Z) : Z :=
  days_before_month_upto y (Z.to_nat (m - 1)).

Definition toordinal (d : datetime) : Z :=
  days_before_year (year d) + days_before_month (year d) (month d) + day d.

(** [a < b]: lexicographic on the fields. *)
Definition ltb (a b : datetime) : bool :=
  (year a <? year b)
  || ((year a =? year b)
      && ((month a <? month b)
          || ((month a =? month b)
              && ((day a <? day b)
                  || ((day a =? day b) && (micros a <? micros b)))))).

(** [(a - b).days]: a [timedelta] keeps its seconds and microseconds
    non-negative, so the days are the floor. *)
Definition sub_days (a b : datetime) : Z :=
  ((toordinal a - toordinal b) * day_micros + (micros a - micros b))
  / day_micros.

Definition digit (c : ascii) : option Z :=
  let n := code c in
  if ((48 <=? n) && (n <=? 57))%N then Some (Z.of_N (n - 48)) else None.

Definition digit_between (lo hi : Z) (c : ascii) : option Z :=
  match digit c with
  | Some v => if (lo <=? v) && (v <=? hi) then Some v else None
  | None => None
  end.

(** [(?P<Y>\d\d\d\d)] *)
Definition parse_year (s : string) : option (Z * string) :=
  match s with
  | String a (String b (String c (String d t))) =>
      match digit a, digit b, digit c, digit d with
      | Some a, Some b, Some c, Some d =>
          Some (1000 * a + 100 * b + 10 * c + d, t)
      | _, _, _, _ => None
      end
  | _ => None
  end.

Definition parse_dash (s : string) : option string :=
  match s with
  | String c t => if (code c =? 45)%N then Some t else None
  | EmptyString => None
  end.

(** [(?P<m>1[0-2]|0[1-9]|[1-9])], alternatives in order. *)
Definition parse_month (s : string) : option (Z * string) :=
  match s with
  | String a t =>
      let two :=
        match t with
        | String b t' =>
            match digit_between 1 1 a, digit_between 0 2 b with
            | Some _, Some v => Some (10 + v, t')
            | _, _ =>
                match digit_between 0 0 a, digit_between 1 9 b with
                | Some _, Some v => Some (v, t')
                | _, _ => None
                end
            end
        | EmptyString => None
        end in
      match two with
      | Some r => Some r
      | None =>
          match digit_between 1 9 a with
          | Some v => Some (v, t)
          | None => None
          end
      end
  | EmptyString => None
  end.

(** [(?P<d>3[0-1]|[1-2]\d|0[1-9]|[1-9]| [1-9])], alternatives in order. *)
Definition parse_day (s : string) : option (Z * string) :=
  match s with
  | String a t =>
      let two :=
        match t with
        | String b t' =>
            match digit_between 3 3 a, digit_between 0 1 b with
            | Some _, Some v => Some (30 + v, t')
            | _, _ =>
                match digit_between 1 2 a, digit b with
                | Some u, Some v => Some (10 * u + v, t')
                | _, _ =>
                    match digit_between 0 0 a, digit_between 1 9 b with
                    | Some _, Some v => Some (v, t')
                    | _, _ => None
                    end
                end
            end
        | EmptyString => None
        end in
      match two with
      | Some r => Some r
      | None =>
          match digit_between 1 9 a with
          | Some v => Some (v, t)
          | None =>
              match t with
              | String b t' =>
                  if (code a =? 32)%N then
                    match digit_between 1 9 b with
                    | Some v => Some (v, t')
                    | None => None
                    end
                  else None
              | EmptyString => None
              end
          end
      end
  | EmptyString => None
  end.

(** [datetime.strptime(s, '%Y-%m-%d')]: the text must match the pattern
    with nothing left over and denote a date of the calendar; the result
    is midnight of that date. *)
Definition strptime (s : string) : result datetime :=
  match parse_year s with
  | None => Raise ValueError
  | Some (y, s1) =>
      match parse_dash s1 with
      | None => Raise ValueError
      | Some s2 =>
          match parse_month s2 with
          | None => Raise ValueError
          | Some (m, s3) =>
              match parse_dash s3 with
              | None => Raise ValueError
              | Some s4 =>
                  match parse_day s4 with
                  | Some (d, EmptyString) =>
                      if (1 <=? y) && (d <=? days_in_month y m)
                      then Ok {| year := y; month := m; day := d; micros := 0 |}
                      else Raise ValueError
                  | _ => Raise ValueError
                  end
              end
          end
      end
  end.

(** The text that [strftime('%Y-%m-%d')] writes, which is how the
    command line fills [date_posted]: four digits, a dash, two digits, a
    dash, two digits.  The result is year, month and day. *)
Definition iso_fields (s : string) : option (Z * Z * Z) :=
  match s with
  | String a (String b (String c (String d (String p (String e (String f
      (String q (String g (String h EmptyString))))))))) =>
      match digit a, digit b, digit c, digit d with
      | Some a, Some b, Some c, Some d =>
          match digit e, digit f, digit g, digit h with
          | Some e, Some f, Some g, Some h =>
              if ((code p =? 45) && (code q =? 45))%N
              then Some (1000 * a + 100 * b + 10 * c + d, 10 * e + f, 10 * g + h)
              else None
          | _, _, _, _ => None
          end
      | _, _, _, _ => None
      end
  | _ => None
  end.

(** Calendar order on (year, month, day). *)
Definition date_ltb (a b : Z * Z * Z) : bool :=
  let '(y1, m1, d1) := a in
  let '(y2, m2, d2) := b in
  (y1 <? y2) || ((y1 =? y2) && ((m1 <? m2) || ((m1 =? m2) && (d1 <? d2)))).

End Datetime.

(* ================================================================== *)
(** ** [Database.py]: class [RAGDatabase] *)

Module RAGDatabase.
Import Py.

(** The argument of [add_post]: a dict; [None] is an absent key. *)
Record post_data : Type :=
  { pd_caption : option string;
    pd_type : option string;
    pd_engagement : option Z;
    pd_hashtags : option (list string);
    pd_date_posted : option string }.

(** The metadata written into the index for one record. *)
Record metadata : Type :=
  { md_type : string;
    md_engagement : Z;
    md_hashtags : string;
    md_date_posted : string }.

(** The dict built by [get_all_posts] for one record. *)
Record post : Type :=
  { p_id : string;
    p_caption : string;
    p_type : string;
    p_engagement : Z;
    p_hashtags : list string;
    p_date_posted : string }.

(** What [get_content_analysis] accumulates in its loop. *)
Record counters : Type :=
  { type_counts : dict Z;
    type_engagement : dict (list Z);
    hashtag_counts : dict Z;
    hashtag_engagement : dict (list Z);
    total_engagement : Z }.

(** The populated dict returned by [get_content_analysis]. *)
Record analysis : Type :=
  { total_posts : Z;
    avg_engagement : Q;
    type_distribution : dict Z;
    avg_engagement_by_type : dict Q;
    top_hashtags : dict Z;
    best_performing_hashtags : dict Q }.

(** [EmptyReport] is the empty dict returned for an empty store. *)
Inductive report : Type :=
| EmptyReport
| Report (a : analysis).

Section Store.
(** The sentence-transformer: a black box from text to vectors. *)
Variable Embedding : Type.
Variable encode : string -> Embedding.

Record entry : Type :=
  { e_id : string;
    e_embedding : Embedding;
    e_document : string;
    e_metadata : metadata }.

(** The vector index, by its contract: records in insertion order.
    [add] ignores a record whose id is already present; [get] returns
    the records in insertion order; [count] is their number. *)
Definition collection : Type := list entry.

Definition has_id (c : collection) (i : string) : bool :=
  existsb (fun e => String.eqb (e_id e) i) c.

Definition collection_add (c : collection) (e : entry) : collection :=
  if has_id c (e_id e) then c else c ++ [e].

Definition collection_get (c : collection) : list entry := c.

Definition collection_count (c : collection) : Z := len c.

(** [uuid4] is the identifier drawn by [uuid.uuid4()] for this call. *)
Definition add_post (self : collection) (uuid4 : string)
           (post_data : post_data) : result (string * collection) :=
  let post_id := uuid4 in
  caption <- getitem "caption" (pd_caption post_data) ;;
  let hashtags :=
    match pd_hashtags post_data with Some l => l | None => [] end in
  let text_for_embedding :=
    (caption ++ " " ++ String.concat " " hashtags)%string in
  let embedding := encode text_for_embedding in
  type <- getitem "type" (pd_type post_data) ;;
  engagement <- getitem "engagement" (pd_engagement post_data) ;;
  date_posted <- getitem "date_posted" (pd_date_posted post_data) ;;
  Ok (post_id,
      collection_add self
        {| e_id := post_id;
           e_embedding := embedding;
           e_document := caption;
           e_metadata :=
             {| md_type := type;
                md_engagement := engagement;
                md_hashtags := Json.dumps hashtags;
                md_date_posted := date_posted |} |}).

Definition read_post (e : entry) : result post :=
  hashtags <- Json.loads (md_hashtags (e_metadata e)) ;;
  Ok {| p_id := e_id e;
        p_caption := e_document e;
        p_type := md_type (e_metadata e);
        p_engagement := md_engagement (e_metadata e);
        p_hashtags := hashtags;
        p_date_posted := md_date_posted (e_metadata e) |}.

Definition get_all_posts (self : collection) : result (list post) :=
  mapM read_post (collection_get self).

Definition get_recent_posts (self : collection) (limit : Z)
  : result (list post) :=
  posts <- get_all_posts self ;;
  Ok (slice_to limit (sorted_desc p_date_posted String.ltb posts)).

Definition get_post_count (self : collection) : Z :=
  collection_count self.
End Store.

(** [d[k] = d.get(k, 0) + 1] *)
Definition count_up (d : dict Z) (k : string) : dict Z :=
  setitem d k (get_default d k 0 + 1)%Z.

(** [if k not in d: d[k] = []] followed by [d[k].append(v)] *)
Definition append_to (d : dict (list Z)) (k : string) (v : Z)
  : dict (list Z) :=
  let d' := match get d k with None => setitem d k [] | Some _ => d end in
  setitem d' k (get_default d' k [] ++ [v]).

Definition hashtag_step (engagement : Z) (st : counters) (hashtag : string)
  : counters :=
  {| type_counts := type_counts st;
     type_engagement := type_engagement st;
     hashtag_counts := count_up (hashtag_counts st) hashtag;
     hashtag_engagement := append_to (hashtag_engagement st) hashtag engagement;
     total_engagement := total_engagement st |}.

(** The body of [for post in posts]. *)
Definition post_step (st : counters) (p : post) : counters :=
  let post_type := p_type p in
  let st1 :=
    {| type_counts := count_up (type_counts st) post_type;
       type_engagement := append_to (type_engagement st) post_type (p_engagement p);
       hashtag_counts := hashtag_counts st;
       hashtag_engagement := hashtag_engagement st;
       total_engagement := total_engagement st |} in
  let st2 := fold_left (hashtag_step (p_engagement p)) (p_hashtags p) st1 in
  {| type_counts := type_counts st2;
     type_engagement := type_engagement st2;
     hashtag_counts := hashtag_counts st2;
     hashtag_engagement := hashtag_engagement st2;
     total_engagement := (total_engagement st2 + p_engagement p)%Z |}.

Definition counters0 : counters :=
  {| type_counts := []; type_engagement := [];
     hashtag_counts := []; hashtag_engagement := [];
     total_engagement := 0 |}.

(** [sum(engagements) / len(engagements)] *)
Definition mean (engagements : list Z) : result Q :=
  truediv (sum engagements) (len engagements).

Definition mean_item (item : string * list Z) : result (string * Q) :=
  m <- mean (snd item) ;; Ok (fst item, m).

Definition used_twice (item : string * list Z) : bool :=
  (2 <=? len (snd item))%Z.

(** [get_content_analysis] after [posts = self.get_all_posts()]. *)
Definition content_analysis (posts : list post) : result report :=
  match posts with
  | [] => Ok EmptyReport
  | _ :: _ =>
      let st := fold_left post_step posts counters0 in
      avg_engagement_by_type <- mapM mean_item (type_engagement st) ;;
      avg_engagement_by_hashtag <-
        mapM mean_item (filter used_twice (hashtag_engagement st)) ;;
      avg <- match posts with
             | [] => Ok 0%Q
             | _ :: _ => truediv (total_engagement st) (len posts)
             end ;;
      Ok (Report
            {| total_posts := len posts;
               avg_engagement := avg;
               type_distribution := type_counts st;
               avg_engagement_by_type := avg_engagement_by_type;
               top_hashtags :=
                 firstn 10 (sorted_desc snd Z.ltb (hashtag_counts st));
               best_performing_hashtags :=
                 firstn 10 (sorted_desc snd Qltb avg_engagement_by_hashtag) |})
  end.

Definition get_content_analysis (Embedding : Type)
           (self : collection Embedding) : result report :=
  posts <- get_all_posts self ;;
  content_analysis posts.

(** *** The filtered reads and the similarity search *)

(** The dict built by [get_posts_by_type], [get_high_engagement_posts]
    and [search_similar_content] for one record: it has no ['id']. *)
Record plain_post : Type :=
  { pp_caption : string;
    pp_type : string;
    pp_engagement : Z;
    pp_hashtags : list string;
    pp_date_posted : string }.

(** What [collection.query] returns for one query vector: a row of
    documents, of metadata and of distances.  A distance is a float, here
    a rational. *)
Record query_result : Type :=
  { qr_documents : list (list string);
    qr_metadatas : list (list metadata);
    qr_distances : list (list Q) }.

(** [l[i]] *)
Definition getindex {A : Type} (l : list A) (i : nat) : result A :=
  match nth_error l i with
  | Some a => Ok a
  | None => Raise IndexError
  end.

Definition read_plain_post (document : string) (md : metadata)
  : result plain_post :=
  hashtags <- Json.loads (md_hashtags md) ;;
  Ok {| pp_caption := document;
        pp_type := md_type md;
        pp_engagement := md_engagement md;
        pp_hashtags := hashtags;
        pp_date_posted := md_date_posted md |}.

(** The body of the loop of [search_similar_content] at index [i]. *)
Definition similar_at (results : query_result) (documents0 : list string)
           (i : nat) : result (plain_post * Q) :=
  document <- getindex documents0 i ;;
  metadatas0 <- getindex (qr_metadatas results) 0 ;;
  md <- getindex metadatas0 i ;;
  post_data <- read_plain_post document md ;;
  distances0 <- getindex (qr_distances results) 0 ;;
  distance <- getindex distances0 i ;;
  Ok (post_data, 1 - distance).

(** [search_similar_content] after the call of [collection.query]. *)
Definition similar_posts_of (results : query_result)
  : result (list (plain_post * Q)) :=
  match qr_documents results with
  | [] => Ok []
  | [] :: _ => Ok []
  | (_ :: _) as documents0 :: _ =>
      mapM (similar_at results documents0)
           (seq 0 (List.length documents0))
  end.

Section Queries.
Variable Embedding : Type.
Variable encode : string -> Embedding.

(** The nearest-neighbour search of the index: a black box. *)
Variable collection_query :
  collection Embedding -> Embedding -> Z -> query_result.

(** [collection.get(where=...)]: the records whose metadata meet the
    condition, in insertion order. *)
Definition collection_get_where (c : collection Embedding)
           (condition : metadata -> bool) : list (entry Embedding) :=
  filter (fun e => condition (e_metadata e)) c.

Definition read_plain_entry (e : entry Embedding) : result plain_post :=
  read_plain_post (e_document e) (e_metadata e).

Definition search_similar_content (self : collection Embedding)
           (query : string) (limit : Z) : result (list (plain_post * Q)) :=
  let query_embedding := encode query in
  similar_posts_of (collection_query self query_embedding limit).

Definition get_posts_by_type (self : collection Embedding)
           (post_type : string) : result (list plain_post) :=
  mapM read_plain_entry
       (collection_get_where self
          (fun md => String.eqb (md_type md) post_type)).

Definition get_high_engagement_posts (self : collection Embedding)
           (min_engagement : Z) : result (list plain_post) :=
  posts <- mapM read_plain_entry
             (collection_get_where self
                (fun md => (min_engagement <=? md_engagement md)%Z)) ;;
  Ok (sorted_desc pp_engagement Z.ltb posts).
End Queries.

End RAGDatabase.

(* ================================================================== *)
(** ** [app.py]: class [InstagramPostRecommender] *)

Module InstagramPostRecommender.
Import Py PyStr RAGDatabase.

(** *** [get_next_post_recommendations]: the guard on the analysis

    [if not analysis or analysis.get('total_posts', 0) == 0] *)
Definition no_posts (analysis : report) : bool :=
  match analysis with
  | EmptyReport => true
  | Report a => (total_posts a =? 0)%Z
  end.

(** *** [_analyze_content_gaps] *)

Inductive content_gaps : Type :=
| GapMarker (gap_analysis : string)
| GapReport (recent_content_mix : dict nat)
            (missing_content_types : list string)
            (overused_types : list string).

Definition all_types : list string :=
  ["satisfying_video"; "promotion"; "educational"; "behind_scenes"].

Definition mem (t : string) (l : list string) : bool :=
  existsb (String.eqb t) l.

Definition _analyze_content_gaps (recent_posts : list post) : content_gaps :=
  match recent_posts with
  | [] => GapMarker "No recent posts to analyze"
  | _ :: _ =>
      let recent_types := map p_type (firstn 7 recent_posts) in
      let type_counts :=
        map (fun t => (t, count_occ string_dec recent_types t))
            (set recent_types) in
      let missing_types :=
        filter (fun t => negb (mem t recent_types)) all_types in
      GapReport type_counts missing_types
        (map fst (filter (fun tc => 3 <=? snd tc)%nat type_counts))
  end.

(** *** [_analyze_posting_rhythm] *)

Inductive posting_status : Type := overdue | on_schedule.

(** [avg_gap] is the number rendered in ["Every {avg_gap:.1f} days"]. *)
Inductive rhythm : Type :=
| RhythmMarker (rhythm : string)
| Rhythm (days_since_last_post : Z) (avg_gap : Q)
         (posting_status : posting_status).

(** [[(dates[i] - dates[i+1]).days for i in range(len(dates)-1)]] *)
Fixpoint gaps_of (dates : list Datetime.datetime) : list Z :=
  match dates with
  | a :: (b :: _) as t => Datetime.sub_days a b :: gaps_of t
  | _ => []
  end.

(** [now] is the value of [datetime.now()] in this call. *)
Definition _analyze_posting_rhythm (now : Datetime.datetime)
           (recent_posts : list post) : result rhythm :=
  if (List.length recent_posts <? 2)%nat
  then Ok (RhythmMarker "Not enough posts to analyze rhythm")
  else
    parsed <- mapM (fun p => Datetime.strptime (p_date_posted p)) recent_posts ;;
    let dates := sorted_desc (fun d => d) Datetime.ltb parsed in
    match dates with
    | [] => Raise IndexError
    | newest :: _ =>
        let days_since_last := Datetime.sub_days now newest in
        let gaps := gaps_of dates in
        avg_gap <- match gaps with
                   | [] => Ok 0%Q
                   | _ :: _ => truediv (sum gaps) (len gaps)
                   end ;;
        Ok (Rhythm days_since_last avg_gap
              (if Qltb (avg_gap * (3 # 2)) (inject_Z days_since_last)
               then overdue else on_schedule))
    end.

(** *** [_extract_recommendations] *)

(** One turn of the transcript: a dict read with [msg.get(key, '')];
    [None] is an absent key.  The values are texts. *)
Record message : Type :=
  { content : option string; name : option string }.

(** [chat_history] is [None] when the object has no such attribute. *)
Record chat_result : Type :=
  { chat_history : option (list message) }.

Definition get_str (o : option string) : string :=
  match o with Some s => s | None => EmptyString end.

Definition marker : string := "FINAL RECOMMENDATION:".

Definition is_final (msg : message) : bool :=
  String.eqb (get_str (name msg)) "content_coordinator"
  && contains marker (upper (get_str (content msg))).

(** [for msg in reversed(all_messages): if ...: ...; break] *)
Fixpoint first_final (msgs : list message) : string :=
  match msgs with
  | [] => EmptyString
  | msg :: t => if is_final msg then get_str (content msg) else first_final t
  end.

Definition final_recommendation_of (all_messages : list message) : string :=
  first_final (rev all_messages).

(** [content[:500] + "..." if len(content) > 500 else content] *)
Definition clip (content : string) : string :=
  if (500 <? String.length content)%nat
  then (take 500 content ++ "...")%string else content.

Definition qualifies (who : string) (msg : message) : bool :=
  String.eqb (get_str (name msg)) who
  && (100 <? String.length (get_str (content msg)))%nat.

(** The body of the forward loop on [(story_rec, feed_rec)]. *)
Definition rec_step (st : string * string) (msg : message) : string * string :=
  if qualifies "story_specialist" msg
  then (clip (get_str (content msg)), snd st)
  else if qualifies "feed_specialist" msg
  then (fst st, clip (get_str (content msg)))
  else st.

Definition specialist_recs (all_messages : list message) : string * string :=
  fold_left rec_step all_messages (EmptyString, EmptyString).

(** [final_recommendation.replace('FINAL RECOMMENDATION:', '').strip()] *)
Definition coordinated_text (final_recommendation : string) : string :=
  strip (replace marker "" final_recommendation).

(** The text printed under the coordinated-strategy heading; empty when
    the section is left out. *)
Definition coordinated_strategy (all_messages : list message) : string :=
  let final_recommendation := final_recommendation_of all_messages in
  if truthy final_recommendation
  then coordinated_text final_recommendation else EmptyString.

(** The first line of the report starts with an emoji, written here as
    the four bytes of its UTF-8 encoding. *)
Definition banner : string :=
  String "240" (String "159" (String "142" (String "175"
    " YOUR NEXT INSTAGRAM POSTS"))).

Definition _extract_recommendations (chat_result : chat_result) : string :=
  let all_messages :=
    match chat_history chat_result with Some h => h | None => [] end in
  let final_recommendation := final_recommendation_of all_messages in
  let '(story_rec, feed_rec) := specialist_recs all_messages in
  let output := (banner ++ newline)%string in
  let output := (output ++ repeat "=" 50 ++ newline ++ newline)%string in
  let output :=
    if truthy final_recommendation
    then (output ++ " COORDINATED STRATEGY:" ++ newline
            ++ coordinated_text final_recommendation
            ++ newline ++ newline)%string
    else output in
  let output :=
    if truthy story_rec
    then (output ++ " STORY RECOMMENDATION:" ++ newline
            ++ story_rec ++ newline ++ newline)%string
    else output in
  let output :=
    if truthy feed_rec
    then (output ++ " FEED POST RECOMMENDATION:" ++ newline
            ++ feed_rec ++ newline ++ newline)%string
    else output in
  (output ++ " Ready to create your next posts!")%string.

(** *** The coordinator's termination test

    [lambda x: "FINAL RECOMMENDATION:" in (x.get("content", "") or "").upper()] *)
Definition is_termination_msg (x : message) : bool :=
  contains marker (upper (get_str (content x))).

(** *** [get_next_post_recommendations] *)

Record activity : Type :=
  { act_type : string;
    act_engagement : Z;
    act_days_ago : Z;
    act_caption_preview : string }.

Record performer : Type :=
  { perf_type : string;
    perf_engagement : Z;
    perf_hashtags : list string;
    perf_caption_preview : string }.

Record account_overview : Type :=
  { ov_total_posts : Z;
    ov_avg_engagement : Q;
    ov_content_types : dict Z;
    ov_top_performing_type : string }.

Record briefing_data : Type :=
  { bd_account_overview : account_overview;
    bd_recent_activity : list activity;
    bd_top_performers : list performer;
    bd_content_gaps : content_gaps;
    bd_posting_rhythm : rhythm;
    bd_best_hashtags : list string }.

(** The message that opens the conversation: the text is made of the
    context line and of the account data. *)
Record briefing : Type :=
  { br_context : string; br_data : briefing_data }.

(** [analysis.get(key, default)] on the report. *)
Definition analysis_get {A : Type} (analysis : report)
           (field : RAGDatabase.analysis -> A) (default : A) : A :=
  match analysis with
  | EmptyReport => default
  | Report a => field a
  end.

(** The loop of [max(items, key=lambda x: x[1])]: a later item replaces
    the best one when its value is greater. *)
Fixpoint max_from (best : string * Q) (items : list (string * Q))
  : string * Q :=
  match items with
  | [] => best
  | x :: t => if Qltb (snd best) (snd x) then max_from x t else max_from best t
  end.

(** [max(items, key=lambda x: x[1], default=default)] *)
Definition max_by_value (items : list (string * Q)) (default : string * Q)
  : string * Q :=
  match items with
  | [] => default
  | x :: t => max_from x t
  end.

Definition no_posts_message : string :=
  " No posts in database. Add your existing posts first to get recommendations.".

Definition activity_of (now : Datetime.datetime) (post : post)
  : result activity :=
  posted <- Datetime.strptime (p_date_posted post) ;;
  Ok {| act_type := p_type post;
        act_engagement := p_engagement post;
        act_days_ago := Datetime.sub_days now posted;
        act_caption_preview := (take 80 (p_caption post) ++ "...")%string |}.

Definition performer_of (post : plain_post) : performer :=
  {| perf_type := pp_type post;
     perf_engagement := pp_engagement post;
     perf_hashtags := firstn 3 (pp_hashtags post);
     perf_caption_preview := (take 60 (pp_caption post) ++ "...")%string |}.

Section Recommend.
Variable Embedding : Type.

(** The conversation of the agents: a black box from the opening message
    to the chat result. *)
Variable initiate_chat : briefing -> chat_result.

(** [now] is the value of [datetime.now()] during the call. *)
Definition get_next_post_recommendations (now : Datetime.datetime)
           (rag_db : collection Embedding) (context : string)
  : result string :=
  analysis <- get_content_analysis rag_db ;;
  recent_posts <- get_recent_posts rag_db 10 ;;
  high_performers <- get_high_engagement_posts rag_db 1000 ;;
  if no_posts analysis then Ok no_posts_message
  else
    let content_gaps := _analyze_content_gaps recent_posts in
    posting_rhythm <- _analyze_posting_rhythm now recent_posts ;;
    let overview :=
      {| ov_total_posts := analysis_get analysis total_posts 0%Z;
         ov_avg_engagement := analysis_get analysis avg_engagement 0%Q;
         ov_content_types := analysis_get analysis type_distribution [];
         ov_top_performing_type :=
           fst (max_by_value
                  (analysis_get analysis avg_engagement_by_type [])
                  ("satisfying_video", 0%Q)) |} in
    recent_activity <- mapM (activity_of now) (firstn 5 recent_posts) ;;
    let briefing_data :=
      {| bd_account_overview := overview;
         bd_recent_activity := recent_activity;
         bd_top_performers := map performer_of (firstn 3 high_performers);
         bd_content_gaps := content_gaps;
         bd_posting_rhythm := posting_rhythm;
         bd_best_hashtags :=
           firstn 5 (keys (analysis_get analysis best_performing_hashtags [])) |} in
    let chat_result :=
      initiate_chat
        {| br_context :=
             if truthy context then context else "Regular content planning";
           br_data := briefing_data |} in
    Ok (_extract_recommendations chat_result).
End Recommend.

(** *** The [add] command: the tag list

    [[tag.strip() for tag in hashtags.split(",") if tag.strip()]] *)

(** [s.split(",")] *)
Fixpoint split_comma (s : string) : list string :=
  match s with
  | EmptyString => [EmptyString]
  | String c t =>
      if (code c =? 44)%N then EmptyString :: split_comma t
      else
        match split_comma t with
        | h :: r => String c h :: r
        | [] => [String c EmptyString]
        end
  end.

Definition hashtag_list (hashtags : string) : list string :=
  map strip (filter (fun tag => truthy (strip tag)) (split_comma hashtags)).

End InstagramPostRecommender.

(* ================================================================== *)
(** * The vocabulary of the properties

    Definitions that the statements below use to say what the code is
    expected to compute.  They are not part of the code. *)

Module Spec.
Import PyStr Py Datetime RAGDatabase InstagramPostRecommender.

(** [a] may stand before [b] in a list sorted downwards by [key]: the
    key of [a] is not below that of [b]. *)
Definition before (A K : Type) (key : A -> K) (ltb : K -> K -> bool)
           (a b : A) : Prop :=
  ltb (key a) (key b) = false.

(** A state of the decoder in which a quote opens a string literal. *)
Definition opens (st : Json.jstate) : Prop :=
  st = Json.JFirst \/ st = Json.JNext.

(** The exceptions of the decoder. *)
Definition decoding_error (e : exn) : Prop :=
  e = JSONDecodeError \/ e = NotModelled.

Section Store.
Variable Embedding : Type.
Variable encode : string -> Embedding.

(** The index record that [add_post] writes for complete input. *)
Definition written (uuid4 caption type : string) (engagement : Z)
           (hashtags : option (list string)) (date_posted : string)
  : entry Embedding :=
  let tags := match hashtags with Some l => l | None => [] end in
  {| e_id := uuid4;
     e_embedding := encode (caption ++ " " ++ String.concat " " tags)%string;
     e_document := caption;
     e_metadata :=
       {| md_type := type;
          md_engagement := engagement;
          md_hashtags := Json.dumps tags;
          md_date_posted := date_posted |} |}.

(** The stores that ingestion can build from the empty index. *)
Inductive reachable : collection Embedding -> Prop :=
| reach_empty : reachable []
| reach_add (self self' : collection Embedding) (uuid4 i : string)
            (pd : post_data) :
    reachable self ->
    add_post encode self uuid4 pd = Ok (i, self') ->
    reachable self'.
End Store.

(** The engagement list recorded under [k]; empty for an absent key. *)
Definition lookup (d : dict (list Z)) (k : string) : list Z :=
  get_default d k [].

(** No key carries an empty list. *)
Definition populated (d : dict (list Z)) : Prop :=
  Forall (fun item => snd item <> []) d.

(** The engagement values that the loop records for tag [t]: one per
    occurrence of [t] in a record's tag list, in store order. *)
Definition uses (t : string) (posts : list post) : list Z :=
  flat_map
    (fun p => map (fun _ => p_engagement p) (filter (String.eqb t) (p_hashtags p)))
    posts.

(** The records that carry tag [t]. *)
Definition tagged (t : string) (posts : list post) : list post :=
  filter (fun p => existsb (String.eqb t) (p_hashtags p)) posts.

(** What the loop maintains on a dict of engagement lists. *)
Definition well_kept (d : dict (list Z)) : Prop :=
  NoDup (keys d) /\ populated d.

(** The calendar date of a record whose date was written by [strftime]. *)
Definition calendar_date (p : post) : option (Z * Z * Z) :=
  iso_fields (p_date_posted p).

Definition dated (p : post) : Prop := calendar_date p <> None.

(** [a] is not older than [b]. *)
Definition not_older (a b : post) : Prop :=
  match calendar_date a, calendar_date b with
  | Some ta, Some tb => date_ltb ta tb = false
  | _, _ => False
  end.

Definition posted_on (d : string) (p : post) : bool :=
  String.eqb (p_date_posted p) d.

(** The categories of the seven most recent records. *)
Definition window (recent_posts : list post) : list string :=
  map p_type (firstn 7 recent_posts).

Definition occurrences (recent_posts : list post) (t : string) : nat :=
  count_occ string_dec (window recent_posts) t.

(** [a] is not earlier than [b]. *)
Definition not_earlier (a b : datetime) : Prop :=
  Datetime.ltb a b = false.

(** The day differences between neighbours of a list of dates. *)
Fixpoint day_gaps (dates : list datetime) : list Z :=
  match dates with
  | a :: (b :: _) as t => (toordinal a - toordinal b)%Z :: day_gaps t
  | _ => []
  end.

Definition midnight (d : datetime) : Prop := micros d = 0%Z.

(** The text of a turn. *)
Definition text (msg : message) : string := get_str (content msg).

(** The last turn of [who] whose text is longer than 100 characters. *)
Definition last_turn (who : string) (all_messages : list message)
  : option message :=
  find (qualifies who) (rev all_messages).

(** What the report shows for [who]: the text of that turn, clipped. *)
Definition shown (who : string) (all_messages : list message) : string :=
  match last_turn who all_messages with
  | Some msg => clip (text msg)
  | None => EmptyString
  end.

(** One section of the report: a heading, the text, an empty line. *)
Definition block (title body : string) : string :=
  (title ++ newline ++ body ++ newline ++ newline)%string.

(** A record as the filtered reads return it: without its id. *)
Definition forget_id (p : post) : plain_post :=
  {| pp_caption := p_caption p;
     pp_type := p_type p;
     pp_engagement := p_engagement p;
     pp_hashtags := p_hashtags p;
     pp_date_posted := p_date_posted p |}.

Definition has_type (t : string) (p : post) : bool :=
  String.eqb (p_type p) t.

Definition engages (min_engagement : Z) (p : post) : bool :=
  (min_engagement <=? p_engagement p)%Z.

(** [a] does not engage less than [b]. *)
Definition engages_no_less (a b : plain_post) : Prop :=
  (pp_engagement b <= pp_engagement a)%Z.

Definition engagement_is (e : Z) (p : plain_post) : bool :=
  (pp_engagement p =? e)%Z.

(** The mean of a list of integers. *)
Definition average (l : list Z) : Q := inject_Z (sum l) / inject_Z (len l).

(** The engagement values of the records of type [t], in store order. *)
Definition engagement_of_type (t : string) (posts : list post) : list Z :=
  map p_engagement (filter (has_type t) posts).


(** [a] does not average less than [b]. *)
Definition averages_no_less (a b : string * Q) : Prop := (snd b <= snd a)%Q.

(** The dict of the means of a dict of non-empty lists. *)
Definition means (d : dict (list Z)) : dict Q :=
  map (fun item => (fst item, sum (snd item) # Z.to_pos (len (snd item)))) d.

(** The similarity score of a distance. *)
Definition similarity (distance : Q) : Q := 1 - distance.

(** Reading the rows of documents and metadata that a query returns. *)
Definition read_rows (documents : list string) (metadatas : list metadata)
  : result (list plain_post) :=
  mapM (fun row => read_plain_post (fst row) (snd row))
       (combine documents metadatas).

(** [a] does not score less than [b]. *)
Definition scores_no_less (a b : plain_post * Q) : Prop :=
  (snd b <= snd a)%Q.

(** The heading of the coordinated strategy in the report. *)
Definition strategy_heading : string := " COORDINATED STRATEGY:".

(** The date of a record can be read by [strptime]. *)
Definition readable_date (p : post) : Prop :=
  exists d, Datetime.strptime (p_date_posted p) = Ok d.

(** The context line of the briefing. *)
Definition context_line (context : string) : string :=
  if truthy context then context else "Regular content planning".

(** [sep.join(parts)] *)
Fixpoint joined (sep : string) (parts : list string) : string :=
  match parts with
  | [] => EmptyString
  | [p] => p
  | p :: rest => (p ++ sep ++ joined sep rest)%string
  end.

(** The text holds no comma. *)
Definition comma_free (t : string) : Prop := contains "," t = false.

(** A tag as the tag list keeps it: not empty, no white space around it,
    no comma in it. *)
Definition clean_tag (t : string) : Prop :=
  t <> EmptyString /\ strip t = t /\ comma_free t.

(** A day of the calendar: a year from 1 on, a month of the year and a
    day of that month. *)
Definition day_of_calendar (d : datetime) : Prop :=
  (1 <= year d /\ 1 <= month d <= 12
   /\ 1 <= day d <= days_in_month (year d) (month d))%Z.

(** A turn attributed to [who] whose text is longer than the threshold of
    100 characters. *)
Definition long_turn_of (who : string) (msg : message) : Prop :=
  get_str (name msg) = who /\ (100 < String.length (text msg))%nat.

(** [d] is the display form of [s]: [s] itself when it has 500
    characters at most, and otherwise its first 500 characters followed
    by three dots. *)
Definition displayed (s d : string) : Prop :=
  ((String.length s <= 500)%nat /\ d = s)
  \/ ((500 < String.length s)%nat
      /\ exists head tail,
          s = (head ++ tail)%string
          /\ String.length head = 500%nat
          /\ d = (head ++ "...")%string).

(** [field] is what the transcript gives for [who]: the display form of
    the text of the last long turn of [who], or the empty text when [who]
    has no long turn. *)
Definition kept (who : string) (all_messages : list message)
           (field : string) : Prop :=
  (exists earlier msg later,
      all_messages = earlier ++ msg :: later
      /\ long_turn_of who msg
      /\ (forall m, In m later -> ~ long_turn_of who m)
      /\ displayed (text msg) field)
  \/ ((forall m, In m all_messages -> ~ long_turn_of who m)
      /\ field = EmptyString).

End Spec.

(* ================================================================== *)
(** * Sample data *)

Module Samples.
Import RAGDatabase.

(** An embedding model for the examples: every text maps to [tt]. *)
Definition unit_encode (text : string) : unit := tt.

Definition empty_store : collection unit := [].

(** Empty text and negative engagement. *)
Definition invalid_post : post_data :=
  {| pd_caption := Some "";
     pd_type := Some "promotion";
     pd_engagement := Some (-5)%Z;
     pd_hashtags := Some ["#deal"];
     pd_date_posted := Some "2024-01-01" |}.

Definition tagged_post (i : string) (engagement : Z) (tags : list string)
  : post :=
  {| p_id := i; p_caption := "caption"; p_type := "promotion";
     p_engagement := engagement; p_hashtags := tags;
     p_date_posted := "2024-01-01" |}.

(** One record tagged [#rare] with engagement 9999 and two records
    tagged [#common] with engagements 100 and 200. *)
Definition rare_and_common : list post :=
  [tagged_post "p1" 9999 ["#rare"];
   tagged_post "p2" 100 ["#common"];
   tagged_post "p3" 200 ["#common"]].

(** A single record that lists the same tag twice. *)
Definition repeated_tag : list post :=
  [tagged_post "p1" 10 ["#promo"; "#promo"]].

Definition dated_entry (i date_posted : string) : entry unit :=
  {| e_id := i; e_embedding := tt; e_document := "caption";
     e_metadata :=
       {| md_type := "promotion"; md_engagement := 100;
          md_hashtags := Json.dumps []; md_date_posted := date_posted |} |}.

Definition dated_post (i date_posted : string) : post :=
  {| p_id := i; p_caption := "caption"; p_type := "promotion";
     p_engagement := 100; p_hashtags := []; p_date_posted := date_posted |}.

(** Records dated 2024-01-01, 2024-01-05 and 2024-01-03. *)
Definition dated_store : collection unit :=
  [dated_entry "p1" "2024-01-01";
   dated_entry "p2" "2024-01-05";
   dated_entry "p3" "2024-01-03"].

Definition dated_posts : list post :=
  [dated_post "p1" "2024-01-01";
   dated_post "p2" "2024-01-05";
   dated_post "p3" "2024-01-03"].

(** Records dated 2024-01-10 and 2024-01-05, looked at during
    2024-01-20 (at 15:33:20). *)
Definition rhythm_posts : list post :=
  [dated_post "p1" "2024-01-10"; dated_post "p2" "2024-01-05"].

Definition rhythm_now : Datetime.datetime :=
  {| Datetime.year := 2024; Datetime.month := 1; Datetime.day := 20;
     Datetime.micros := 56000000000 |}.

Import InstagramPostRecommender.

Definition turn (who said : string) : message :=
  {| content := Some said; name := Some who |}.

(** The coordinator closes with the marker in capitals. *)
Definition capital_transcript : list message :=
  [turn "story_specialist" "ok";
   turn "content_coordinator" "FINAL RECOMMENDATION: post a reel"].

(** The coordinator closes with the marker in small letters. *)
Definition small_transcript : list message :=
  [turn "story_specialist" "ok";
   turn "content_coordinator" "final recommendation: post a reel"].
(** The report of [rare_and_common]. *)
Definition rare_and_common_report : analysis :=
  {| total_posts := 3;
     avg_engagement := 10299 # 3;
     type_distribution := [("promotion", 3%Z)];
     avg_engagement_by_type := [("promotion", 10299 # 3)];
     top_hashtags := [("#common", 2%Z); ("#rare", 1%Z)];
     best_performing_hashtags := [("#common", 300 # 2)] |}.
Definition plain (caption : string) : plain_post :=
  {| pp_caption := caption; pp_type := "promotion"; pp_engagement := 100;
     pp_hashtags := []; pp_date_posted := "2024-01-01" |}.

Definition plain_metadata : metadata :=
  {| md_type := "promotion"; md_engagement := 100;
     md_hashtags := Json.dumps []; md_date_posted := "2024-01-01" |}.

(** An index that answers every query with two records, at the distances
    1/4 and 1/2. *)
Definition two_neighbours (c : collection unit) (v : unit) (k : Z)
  : query_result :=
  {| qr_documents := [["near"; "far"]];
     qr_metadatas := [[plain_metadata; plain_metadata]];
     qr_distances := [[1 # 4; 1 # 2]] |}.

(** A conversation that produces the transcript with the marker in
    capitals, whatever the briefing. *)
Definition scripted_chat (b : briefing) : chat_result :=
  {| chat_history := Some capital_transcript |}.

End Samples.

Import Py RAGDatabase InstagramPostRecommender Spec.

(* ================================================================== *)
(** * Properties *)

(** ** Strings *)

Lemma string_app_nil_r (s : string) : (s ++ "")%string = s.
Proof. induction s as [|c s IH]; simpl; [reflexivity | now rewrite IH]. Qed.

Lemma string_app_assoc (a b c : string) :
  ((a ++ b) ++ c)%string = (a ++ (b ++ c))%string.
Proof. induction a as [|x a IH]; simpl; [reflexivity | now rewrite IH]. Qed.

Lemma snoc_app (cur : string) (c : ascii) (t : string) :
  (Json.snoc cur c ++ t)%string = (cur ++ String c t)%string.
Proof. unfold Json.snoc. now rewrite string_app_assoc. Qed.

(** ** The JSON round trip *)

Module JsonFacts.
Import PyStr Json.

(** Reading back the escape of one character appends that character. *)
Lemma scan_escape_char (c : ascii) (cur : string) (acc : list string)
      (rest : string) :
  scan (JStr cur) acc (escape_char c ++ rest)%string
  = scan (JStr (snoc cur c)) acc rest.
Proof.
  destruct c as [[] [] [] [] [] [] [] []]; reflexivity.
Qed.

Lemma scan_body (s : string) :
  forall cur acc rest,
    scan (JStr cur) acc (escape_body s ++ String dquote rest)%string
    = scan JAfter (acc ++ [(cur ++ s)%string]) rest.
Proof.
  induction s as [|c s IH]; intros cur acc rest.
  - simpl. now rewrite string_app_nil_r.
  - simpl escape_body. rewrite string_app_assoc, scan_escape_char, IH.
    now rewrite snoc_app.
Qed.

Lemma scan_encode_string (s : string) (acc : list string) (rest : string) :
  scan (JStr "") acc (escape_body s ++ String dquote rest)%string
  = scan JAfter (acc ++ [s]) rest.
Proof. now rewrite scan_body. Qed.

Lemma scan_quote (st : jstate) (acc : list string) (t : string) :
  opens st -> scan st acc (String dquote t) = scan (JStr "") acc t.
Proof. intros [-> | ->]; reflexivity. Qed.

Lemma scan_open_string (st : jstate) (acc : list string) (s rest : string) :
  opens st ->
  scan st acc (encode_string s ++ rest)%string
  = scan JAfter (acc ++ [s]) rest.
Proof.
  intros Hst. unfold encode_string. cbn [append].
  rewrite string_app_assoc. cbn [append].
  rewrite (scan_quote _ _ Hst). apply scan_encode_string.
Qed.

Lemma scan_comma (acc : list string) (t : string) :
  scan JAfter acc (", " ++ t)%string = scan JNext acc t.
Proof. reflexivity. Qed.

Lemma scan_close (acc : list string) : scan JAfter acc "]" = Ok acc.
Proof. reflexivity. Qed.

Lemma scan_items (l : list string) :
  forall s st acc,
    opens st ->
    scan st acc (encode_items (s :: l) ++ "]")%string = Ok (acc ++ s :: l).
Proof.
  induction l as [|s' l IH]; intros s st acc Hst.
  - cbn [encode_items]. rewrite (scan_open_string _ _ _ Hst).
    apply scan_close.
  - change (encode_items (s :: s' :: l))
      with (encode_string s ++ ", " ++ encode_items (s' :: l))%string.
    rewrite !string_app_assoc, (scan_open_string _ _ _ Hst).
    rewrite scan_comma, IH by (right; reflexivity).
    now rewrite <- app_assoc.
Qed.

(** [json.loads(json.dumps(l)) == l] for every list of strings. *)
Theorem loads_dumps (l : list string) : loads (dumps l) = Ok l.
Proof.
  destruct l as [|s l].
  - reflexivity.
  - unfold loads, dumps.
    change ("[" ++ encode_items (s :: l) ++ "]")%string
      with (String "[" (encode_items (s :: l) ++ "]"))%string.
    change (scan JStart [] (String "[" (encode_items (s :: l) ++ "]")%string))
      with (scan JFirst [] (encode_items (s :: l) ++ "]")%string).
    rewrite scan_items by (left; reflexivity). reflexivity.
Qed.

End JsonFacts.

(** ** The result monad *)

Lemma mapM_app (A B : Type) (f : A -> result B) (l1 l2 : list A) :
  mapM f (l1 ++ l2)
  = (ys1 <- mapM f l1 ;; ys2 <- mapM f l2 ;; Ok (ys1 ++ ys2)).
Proof.
  induction l1 as [|x l1 IH]; simpl.
  - destruct (mapM f l2); reflexivity.
  - destruct (f x) as [y|e]; simpl; [|reflexivity].
    rewrite IH. destruct (mapM f l1) as [ys1|e]; simpl; [|reflexivity].
    destruct (mapM f l2); reflexivity.
Qed.

Lemma mapM_length (A B : Type) (f : A -> result B) (l : list A) :
  forall ys, mapM f l = Ok ys -> List.length ys = List.length l.
Proof.
  induction l as [|x l IH]; simpl; intros ys H.
  - now inversion H.
  - destruct (f x) as [y|e]; simpl in H; [|discriminate].
    destruct (mapM f l) as [ys'|e]; simpl in H; [|discriminate].
    inversion H; subst. simpl. now rewrite (IH ys').
Qed.

Lemma mapM_total (A B : Type) (f : A -> result B) (l : list A) :
  (forall x, In x l -> exists y, f x = Ok y) ->
  exists ys, mapM f l = Ok ys.
Proof.
  induction l as [|x l IH]; intros H; simpl.
  - now exists [].
  - destruct (H x (or_introl eq_refl)) as [y ->].
    destruct IH as [ys ->]; [intros z Hz; apply H; now right|].
    now exists (y :: ys).
Qed.

Lemma mapM_In (A B : Type) (f : A -> result B) (l : list A) :
  forall ys y, mapM f l = Ok ys -> In y ys -> exists x, In x l /\ f x = Ok y.
Proof.
  induction l as [|x l IH]; simpl; intros ys y H Hy.
  - inversion H; subst. destruct Hy.
  - destruct (f x) as [y0|e] eqn:Hx; simpl in H; [|discriminate].
    destruct (mapM f l) as [ys'|e]; simpl in H; [|discriminate].
    inversion H; subst. destruct Hy as [<- | Hy].
    + exists x. auto.
    + destruct (IH ys' y eq_refl Hy) as [x' [Hin Hf]]. exists x'. auto.
Qed.

(** ** Lists *)

Lemma In_firstn (A : Type) (n : nat) (x : A) :
  forall l, In x (firstn n l) -> In x l.
Proof.
  induction n as [|n IH]; intros [|y l]; simpl; try tauto.
  intros [E|H]; [now left | right; now apply IH].
Qed.

(** ** The stable descending sort *)

Module SortFacts.
Import Py.

Section Facts.
Variables (A K : Type) (key : A -> K) (ltb : K -> K -> bool).

Local Abbreviation insert := (insert_desc key ltb).
Local Abbreviation sort := (sorted_desc key ltb).
Local Abbreviation before := (Spec.before key ltb).

Lemma insert_desc_perm (x : A) (l : list A) :
  Permutation (insert x l) (x :: l).
Proof.
  induction l as [|y l IH]; simpl.
  - apply Permutation_refl.
  - destruct (ltb (key x) (key y)).
    + eapply Permutation_trans; [apply perm_skip, IH | apply perm_swap].
    + apply Permutation_refl.
Qed.

Lemma sorted_desc_perm (l : list A) : Permutation (sort l) l.
Proof.
  induction l as [|x l IH]; simpl.
  - apply Permutation_refl.
  - eapply Permutation_trans; [apply insert_desc_perm|].
    now apply perm_skip.
Qed.

Lemma sorted_desc_length (l : list A) :
  List.length (sort l) = List.length l.
Proof. apply Permutation_length, sorted_desc_perm. Qed.

Lemma insert_desc_stable (p : A -> bool) (x : A) (l : list A) :
  (forall y, In y l -> p x = true -> p y = true -> before x y) ->
  filter p (insert x l) = filter p (x :: l).
Proof.
  induction l as [|y l IH]; intros H; [reflexivity|].
  simpl insert_desc. destruct (ltb (key x) (key y)) eqn:Hxy; [|reflexivity].
  simpl. rewrite IH by (intros z Hz; apply H; now right).
  simpl. destruct (p x) eqn:Hpx, (p y) eqn:Hpy; try reflexivity.
  specialize (H y (or_introl eq_refl) eq_refl Hpy).
  unfold before in H. congruence.
Qed.

(** Elements that [p] selects and that are pairwise not below one
    another keep their original order. *)
Lemma sorted_desc_stable (p : A -> bool) (l : list A) :
  (forall x y, In x l -> In y l -> p x = true -> p y = true -> before x y) ->
  filter p (sort l) = filter p l.
Proof.
  induction l as [|x l IH]; intros H; [reflexivity|].
  simpl sorted_desc. rewrite insert_desc_stable.
  - simpl. rewrite IH; [reflexivity|].
    intros a b Ha Hb. apply H; now right.
  - intros y Hy. apply H; [now left|].
    right. eapply Permutation_in; [apply sorted_desc_perm | exact Hy].
Qed.

Hypothesis before_trans :
  forall x y z : K, ltb x y = false -> ltb y z = false -> ltb x z = false.
Hypothesis ltb_asym :
  forall x y : K, ltb x y = true -> ltb y x = false.

Lemma insert_desc_sorted (x : A) (l : list A) :
  StronglySorted before l -> StronglySorted before (insert x l).
Proof.
  induction l as [|y l IH]; intros Hs; simpl.
  - constructor; constructor.
  - inversion Hs as [|? ? Hl Hy]; subst.
    destruct (ltb (key x) (key y)) eqn:Hxy.
    + constructor; [now apply IH|].
      apply Forall_forall. intros z Hz.
      apply (Permutation_in _ (insert_desc_perm x l)) in Hz.
      destruct Hz as [<- | Hz].
      * unfold before. now apply ltb_asym.
      * rewrite Forall_forall in Hy. now apply Hy.
    + constructor; [exact Hs|].
      constructor; [exact Hxy|].
      rewrite Forall_forall in Hy |- *. intros z Hz.
      unfold before in *. eapply before_trans; [exact Hxy | now apply Hy].
Qed.

Lemma sorted_desc_sorted (l : list A) : StronglySorted before (sort l).
Proof.
  induction l as [|x l IH]; simpl.
  - constructor.
  - now apply insert_desc_sorted.
Qed.
End Facts.

End SortFacts.

(** ** The store: ingestion and read-back *)

Module StoreFacts.
Import Py RAGDatabase.

Section Facts.
Variable Embedding : Type.
Variable encode : string -> Embedding.

Local Abbreviation store := (collection Embedding).

Lemma add_post_complete (self : store) (uuid4 caption type : string)
      (engagement : Z) (hashtags : option (list string))
      (date_posted : string) :
  add_post encode self uuid4
    {| pd_caption := Some caption; pd_type := Some type;
       pd_engagement := Some engagement; pd_hashtags := hashtags;
       pd_date_posted := Some date_posted |}
  = Ok (uuid4,
        collection_add self
          (written encode uuid4 caption type engagement hashtags
             date_posted)).
Proof. reflexivity. Qed.

Lemma collection_add_fresh (self : store) (e : entry Embedding) :
  has_id self (e_id e) = false -> collection_add self e = self ++ [e].
Proof. intros H. unfold collection_add. now rewrite H. Qed.

Lemma count_app_one (self : store) (e : entry Embedding) :
  get_post_count (self ++ [e]) = (get_post_count self + 1)%Z.
Proof.
  unfold get_post_count, collection_count, len.
  rewrite length_app. simpl. lia.
Qed.

Lemma read_written (uuid4 caption type : string) (engagement : Z)
      (hashtags : option (list string)) (date_posted : string) :
  read_post (written encode uuid4 caption type engagement hashtags
             date_posted)
  = Ok {| p_id := uuid4; p_caption := caption; p_type := type;
          p_engagement := engagement;
          p_hashtags := match hashtags with Some l => l | None => [] end;
          p_date_posted := date_posted |}.
Proof.
  unfold read_post, written. cbn [e_metadata md_hashtags].
  now rewrite JsonFacts.loads_dumps.
Qed.

Lemma get_all_posts_app_one (self : store) (e : entry Embedding)
      (posts : list post) (p : post) :
  get_all_posts self = Ok posts -> read_post e = Ok p ->
  get_all_posts (self ++ [e]) = Ok (posts ++ [p]).
Proof.
  unfold get_all_posts, collection_get. intros Hs He.
  rewrite mapM_app, Hs. simpl. now rewrite He.
Qed.

Lemma get_all_posts_length (self : store) (posts : list post) :
  get_all_posts self = Ok posts -> List.length posts = List.length self.
Proof. apply mapM_length. Qed.

Lemma add_post_inv (self self' : store) (uuid4 i : string) (pd : post_data) :
  add_post encode self uuid4 pd = Ok (i, self') ->
  exists caption type engagement date_posted,
    self' = collection_add self
              (written encode uuid4 caption type engagement (pd_hashtags pd)
                       date_posted).
Proof.
  destruct pd as [[c|] [t|] [e|] h [d|]]; cbn; intros H; try discriminate.
  inversion H; subst. now exists c, t, e, d.
Qed.

(** Every reachable store reads back without an exception. *)
Lemma reachable_readable (self : store) :
  reachable encode self -> exists posts, get_all_posts self = Ok posts.
Proof.
  induction 1 as [|self self' uuid4 i pd _ [posts IH] Hadd].
  - now exists [].
  - destruct (add_post_inv _ _ _ Hadd) as (c & t & e & d & ->).
    unfold collection_add. destruct (has_id self _).
    + now exists posts.
    + eexists. eapply get_all_posts_app_one; [exact IH|].
      apply read_written.
Qed.
End Facts.

End StoreFacts.

(** ** Dicts *)

Module DictFacts.
Import Py.

Section Facts.
Variable V : Type.

Lemma get_setitem_same (d : dict V) (k : string) (v : V) :
  get (setitem d k v) k = Some v.
Proof.
  induction d as [|[k' v'] d IH]; simpl.
  - now rewrite String.eqb_refl.
  - destruct (String.eqb k' k) eqn:E; simpl; rewrite E; [reflexivity | exact IH].
Qed.

Lemma get_setitem_other (d : dict V) (k k' : string) (v : V) :
  k <> k' -> get (setitem d k v) k' = get d k'.
Proof.
  intros Hne. induction d as [|[k0 v0] d IH]; simpl.
  - destruct (String.eqb_spec k k'); [contradiction | reflexivity].
  - destruct (String.eqb_spec k0 k) as [->|Hk]; simpl.
    + destruct (String.eqb_spec k k'); [contradiction | reflexivity].
    + now rewrite IH.
Qed.

Lemma get_In (d : dict V) (k : string) (v : V) :
  get d k = Some v -> In (k, v) d.
Proof.
  induction d as [|[k' v'] d IH]; simpl; [discriminate|].
  destruct (String.eqb_spec k' k) as [->|Hk]; intros H.
  - inversion H; subst. now left.
  - right. now apply IH.
Qed.

Lemma get_None_keys (d : dict V) (k : string) :
  get d k = None -> ~ In k (keys d).
Proof.
  induction d as [|[k' v'] d IH]; simpl; [tauto|].
  destruct (String.eqb_spec k' k) as [->|Hk]; [discriminate|].
  intros H [E|Hin]; [contradiction | now apply IH].
Qed.

Lemma In_get (d : dict V) (k : string) (v : V) :
  NoDup (keys d) -> In (k, v) d -> get d k = Some v.
Proof.
  induction d as [|[k' v'] d IH]; simpl; intros Hnd Hin; [destruct Hin|].
  inversion Hnd as [|? ? Hnotin Hnd']; subst.
  destruct Hin as [E|Hin].
  - inversion E; subst. now rewrite String.eqb_refl.
  - destruct (String.eqb_spec k' k) as [->|Hk]; [|now apply IH].
    exfalso. apply Hnotin. change k with (fst (k, v)). now apply in_map.
Qed.

Lemma keys_setitem (d : dict V) (k : string) (v : V) :
  keys (setitem d k v)
  = match get d k with Some _ => keys d | None => keys d ++ [k] end.
Proof.
  induction d as [|[k' v'] d IH]; simpl; [reflexivity|].
  destruct (String.eqb k' k); simpl; [reflexivity|].
  rewrite IH. now destruct (get d k).
Qed.

Lemma NoDup_setitem (d : dict V) (k : string) (v : V) :
  NoDup (keys d) -> NoDup (keys (setitem d k v)).
Proof.
  intros Hnd. rewrite keys_setitem. destruct (get d k) eqn:E; [exact Hnd|].
  apply NoDup_rev in Hnd. rewrite <- (rev_involutive (keys d ++ [k])).
  apply NoDup_rev. rewrite rev_app_distr. simpl. constructor; [|exact Hnd].
  rewrite <- in_rev. now apply get_None_keys.
Qed.

Lemma In_setitem (d : dict V) (k : string) (v : V) (kv : string * V) :
  NoDup (keys d) ->
  In kv (setitem d k v) -> kv = (k, v) \/ (In kv d /\ fst kv <> k).
Proof.
  induction d as [|[k' v'] d IH]; simpl; intros Hnd.
  - intros [<-|[]]. now left.
  - inversion Hnd as [|? ? Hnotin Hnd']; subst.
    destruct (String.eqb_spec k' k) as [->|Hk]; simpl.
    + intros [<-|H]; [now left|].
      right. split; [now right|].
      intros E. apply Hnotin. rewrite <- E. now apply in_map.
    + intros [<-|H]; [right; split; [now left | exact Hk]|].
      destruct (IH Hnd' H) as [E|[Hin Hne]];
        [now left | right; split; [now right | exact Hne]].
Qed.
End Facts.

End DictFacts.

(** ** The analysis loop *)

Module AnalysisFacts.
Import Py RAGDatabase DictFacts.

Lemma lookup_append_to (d : dict (list Z)) (k t : string) (v : Z) :
  lookup (append_to d k v) t
  = if String.eqb t k then lookup d t ++ [v] else lookup d t.
Proof.
  unfold lookup, append_to, get_default.
  destruct (String.eqb_spec t k) as [->|Hne].
  - destruct (get d k) as [l|] eqn:E.
    + now rewrite E, get_setitem_same.
    + now rewrite !get_setitem_same.
  - destruct (get d k) as [l|] eqn:E.
    + rewrite E. now rewrite get_setitem_other by congruence.
    + rewrite get_setitem_same.
      now rewrite !get_setitem_other by congruence.
Qed.

Lemma NoDup_append_to (d : dict (list Z)) (k : string) (v : Z) :
  NoDup (keys d) -> NoDup (keys (append_to d k v)).
Proof.
  intros H. unfold append_to. apply NoDup_setitem.
  destruct (get d k); [exact H | now apply NoDup_setitem].
Qed.

Lemma populated_append_to (d : dict (list Z)) (k : string) (v : Z) :
  NoDup (keys d) -> populated d -> populated (append_to d k v).
Proof.
  unfold populated. rewrite !Forall_forall. intros Hnd H kv Hin.
  unfold append_to in Hin. apply In_setitem in Hin.
  - destruct Hin as [->|[Hin Hne]].
    + simpl. now destruct (get_default _ k []).
    + destruct (get d k); [now apply H|].
      apply In_setitem in Hin; [|exact Hnd].
      destruct Hin as [->|[Hin _]]; [now elim Hne | now apply H].
  - destruct (get d k); [exact Hnd | now apply NoDup_setitem].
Qed.

Lemma well_kept_nil : well_kept [].
Proof. split; constructor. Qed.

Lemma well_kept_append_to (d : dict (list Z)) (k : string) (v : Z) :
  well_kept d -> well_kept (append_to d k v).
Proof.
  intros [Hnd Hp]. split;
    [now apply NoDup_append_to | now apply populated_append_to].
Qed.

(** The loop touches the two engagement dicts through [append_to] only. *)
Lemma hashtag_fold_fields (e : Z) (tags : list string) :
  forall st,
    let st' := fold_left (hashtag_step e) tags st in
    type_engagement st' = type_engagement st
    /\ hashtag_engagement st'
       = fold_left (fun d t => append_to d t e) tags (hashtag_engagement st).
Proof.
  induction tags as [|t tags IH]; intros st; simpl; [auto|].
  destruct (IH (hashtag_step e st t)) as [H1 H2]. simpl in *.
  now rewrite H1, H2.
Qed.

Lemma post_step_type_engagement (st : counters) (p : post) :
  type_engagement (post_step st p)
  = append_to (type_engagement st) (p_type p) (p_engagement p).
Proof.
  unfold post_step. cbn [type_engagement].
  now destruct (hashtag_fold_fields (p_engagement p) (p_hashtags p)
                  {| type_counts := count_up (type_counts st) (p_type p);
                     type_engagement :=
                       append_to (type_engagement st) (p_type p) (p_engagement p);
                     hashtag_counts := hashtag_counts st;
                     hashtag_engagement := hashtag_engagement st;
                     total_engagement := total_engagement st |}) as [-> _].
Qed.

Lemma post_step_hashtag_engagement (st : counters) (p : post) :
  hashtag_engagement (post_step st p)
  = fold_left (fun d t => append_to d t (p_engagement p)) (p_hashtags p)
      (hashtag_engagement st).
Proof.
  unfold post_step. cbn [hashtag_engagement].
  now destruct (hashtag_fold_fields (p_engagement p) (p_hashtags p)
                  {| type_counts := count_up (type_counts st) (p_type p);
                     type_engagement :=
                       append_to (type_engagement st) (p_type p) (p_engagement p);
                     hashtag_counts := hashtag_counts st;
                     hashtag_engagement := hashtag_engagement st;
                     total_engagement := total_engagement st |}) as [_ ->].
Qed.

Lemma well_kept_fold_tags (e : Z) (tags : list string) :
  forall d, well_kept d ->
            well_kept (fold_left (fun d t => append_to d t e) tags d).
Proof.
  induction tags as [|t tags IH]; intros d H; simpl; [exact H|].
  now apply IH, well_kept_append_to.
Qed.

Lemma well_kept_loop (posts : list post) :
  forall st,
    well_kept (type_engagement st) -> well_kept (hashtag_engagement st) ->
    well_kept (type_engagement (fold_left post_step posts st))
    /\ well_kept (hashtag_engagement (fold_left post_step posts st)).
Proof.
  induction posts as [|p posts IH]; intros st Ht Hh; simpl; [auto|].
  apply IH.
  - rewrite post_step_type_engagement. now apply well_kept_append_to.
  - rewrite post_step_hashtag_engagement. now apply well_kept_fold_tags.
Qed.

Lemma lookup_fold_tags (e : Z) (t : string) (tags : list string) :
  forall d,
    lookup (fold_left (fun d t => append_to d t e) tags d) t
    = lookup d t ++ map (fun _ => e) (filter (String.eqb t) tags).
Proof.
  induction tags as [|h tags IH]; intros d; simpl.
  - now rewrite app_nil_r.
  - rewrite IH, lookup_append_to.
    destruct (String.eqb t h); simpl; [now rewrite <- app_assoc | reflexivity].
Qed.

(** After the loop the list under [t] holds the engagement of every
    occurrence of [t], in store order. *)
Lemma lookup_loop (t : string) (posts : list post) :
  forall st,
    lookup (hashtag_engagement (fold_left post_step posts st)) t
    = lookup (hashtag_engagement st) t ++ uses t posts.
Proof.
  induction posts as [|p posts IH]; intros st; simpl.
  - now rewrite app_nil_r.
  - rewrite IH, post_step_hashtag_engagement, lookup_fold_tags.
    now rewrite <- app_assoc.
Qed.

Lemma truediv_len (A : Type) (a : Z) (l : list A) :
  l <> [] -> truediv a (len l) = Ok (a # Z.to_pos (len l)).
Proof.
  intros H. unfold truediv, len. destruct l as [|x l]; [contradiction|].
  simpl List.length.
  destruct (Z.eqb_spec (Z.of_nat (S (List.length l))) 0) as [E|_]; [lia|].
  destruct (Z.ltb_spec 0 (Z.of_nat (S (List.length l)))) as [_|E]; [reflexivity | lia].
Qed.

Lemma mean_items_total (d : dict (list Z)) :
  populated d -> exists avgs, mapM mean_item d = Ok avgs.
Proof.
  intros H. apply mapM_total. intros [k es] Hin.
  unfold populated in H. rewrite Forall_forall in H.
  specialize (H _ Hin). simpl in H.
  unfold mean_item, mean. simpl. rewrite truediv_len by exact H.
  simpl. eauto.
Qed.

Lemma populated_filter (f : string * list Z -> bool) (d : dict (list Z)) :
  populated d -> populated (filter f d).
Proof.
  unfold populated. rewrite !Forall_forall. intros H kv Hin.
  apply filter_In in Hin. now apply H.
Qed.

(** The analysis of a non-empty list of records is a populated report. *)
Lemma content_analysis_cons (p : post) (ps : list post) :
  exists a, content_analysis (p :: ps) = Ok (Report a)
            /\ total_posts a = len (p :: ps).
Proof.
  unfold content_analysis.
  destruct (well_kept_loop (p :: ps) counters0 well_kept_nil well_kept_nil)
    as [[_ Ht] [_ Hh]].
  destruct (mean_items_total Ht) as [at_ ->].
  destruct (mean_items_total (populated_filter used_twice Hh)) as [ah ->].
  rewrite truediv_len by discriminate. simpl bind.
  eexists. split; reflexivity.
Qed.

End AnalysisFacts.

(** ** The decoder raises decoding errors only *)

Module JsonErrors.
Import PyStr Json.

Ltac split_tests H :=
  repeat match type of H with
         | context [if ?b then _ else _] => destruct b
         | context [match ?o with Some _ => _ | None => _ end] => destruct o
         end.

Lemma scan_raises (n : nat) :
  forall s st acc e,
    (String.length s <= n)%nat ->
    scan st acc s = Raise e -> decoding_error e.
Proof.
  unfold decoding_error.
  induction n as [|n IH]; intros s st acc e Hlen H.
  - destruct s; [|simpl in Hlen; lia].
    destruct st; simpl in H; inversion H; auto.
  - destruct s as [|c t].
    + destruct st; simpl in H; inversion H; auto.
    + simpl in Hlen.
      assert (Ht : forall st acc, scan st acc t = Raise e ->
                                  e = JSONDecodeError \/ e = NotModelled).
      { intros st' acc'. apply IH. lia. }
      destruct st; cbn [scan] in H.
      1,2,4,5,6: split_tests H; try (inversion H; now auto); eauto.
      destruct (code c =? 34)%N; [eauto|].
      destruct (code c <? 32)%N; [inversion H; auto|].
      destruct (code c =? 92)%N; [|eauto].
      destruct t as [|e1 t1]; [inversion H; auto|].
      simpl in Hlen.
      destruct (code e1 =? 117)%N.
      * destruct t1 as [|h1 [|h2 [|h3 [|h4 t2]]]]; try (inversion H; now auto).
        simpl in Hlen.
        split_tests H; try (inversion H; now auto).
        revert H. apply IH. lia.
      * destruct (unescape e1); [|inversion H; auto].
        revert H. apply IH. lia.
Qed.

Lemma loads_raises (s : string) (e : exn) :
  loads s = Raise e -> decoding_error e.
Proof. unfold loads. now apply (scan_raises (n := String.length s)). Qed.

End JsonErrors.

(** ** Ingestion *)

(** C1, as stated, fails on the code: [add_post] accepts a record with
    empty text and negative engagement and stores it. *)
Lemma add_post_accepts_invalid_input :
  pd_caption Samples.invalid_post = Some ""
  /\ pd_engagement Samples.invalid_post = Some (-5)%Z
  /\ exists self',
      add_post Samples.unit_encode Samples.empty_store "post-1"
        Samples.invalid_post = Ok ("post-1", self')
      /\ get_post_count self' = 1%Z.
Proof.
  split; [reflexivity|]. split; [reflexivity|].
  eexists. split; reflexivity.
Qed.

(** C1 (amended): [add_post] has no validation step.  For every input
    that carries caption, type, engagement and date, whatever the caption
    and the engagement are, and for every fresh identifier, [add_post]
    succeeds, returns the identifier and appends exactly one record to the
    index, leaving the records already there as they were. *)
Theorem add_post_stores_every_complete_input
        (Embedding : Type) (encode : string -> Embedding)
        (self : collection Embedding) (uuid4 caption type : string)
        (engagement : Z) (hashtags : option (list string))
        (date_posted : string) :
  has_id self uuid4 = false ->
  let e := written encode uuid4 caption type engagement hashtags
             date_posted in
  add_post encode self uuid4
    {| pd_caption := Some caption; pd_type := Some type;
       pd_engagement := Some engagement; pd_hashtags := hashtags;
       pd_date_posted := Some date_posted |}
  = Ok (uuid4, self ++ [e])
  /\ get_post_count (self ++ [e]) = (get_post_count self + 1)%Z.
Proof.
  intros Hfresh e. split.
  - rewrite StoreFacts.add_post_complete.
    now rewrite StoreFacts.collection_add_fresh.
  - apply StoreFacts.count_app_one.
Qed.

Lemma add_post_stores_every_complete_input_witness :
  has_id Samples.empty_store "post-1" = false
  /\ add_post Samples.unit_encode Samples.empty_store "post-1"
       Samples.invalid_post
     = Ok ("post-1",
           Samples.empty_store
             ++ [written Samples.unit_encode "post-1" "" "promotion"
                   (-5)%Z (Some ["#deal"]) "2024-01-01"]).
Proof.
  split; [reflexivity|].
  apply (@add_post_stores_every_complete_input unit Samples.unit_encode
           Samples.empty_store "post-1" "" "promotion" (-5)%Z
           (Some ["#deal"]) "2024-01-01").
  reflexivity.
Defined.

(** C5: a successful [add_post] raises [get_post_count] by exactly one, and
    [get_all_posts] then returns the records it returned before followed
    by the new one, whose caption, type, engagement, tag list (in its
    order) and date are the ones given. *)
Theorem add_post_round_trip
        (Embedding : Type) (encode : string -> Embedding)
        (self : collection Embedding) (posts : list post)
        (uuid4 caption type : string) (engagement : Z)
        (hashtags : option (list string)) (date_posted : string) :
  has_id self uuid4 = false ->
  get_all_posts self = Ok posts ->
  exists self',
    add_post encode self uuid4
      {| pd_caption := Some caption; pd_type := Some type;
         pd_engagement := Some engagement; pd_hashtags := hashtags;
         pd_date_posted := Some date_posted |}
    = Ok (uuid4, self')
    /\ get_post_count self' = (get_post_count self + 1)%Z
    /\ get_all_posts self'
       = Ok (posts
               ++ [{| p_id := uuid4; p_caption := caption; p_type := type;
                      p_engagement := engagement;
                      p_hashtags :=
                        match hashtags with Some l => l | None => [] end;
                      p_date_posted := date_posted |}]).
Proof.
  intros Hfresh Hread.
  exists (self ++ [written encode uuid4 caption type engagement
                     hashtags date_posted]).
  split; [|split].
  - rewrite StoreFacts.add_post_complete.
    now rewrite StoreFacts.collection_add_fresh.
  - apply StoreFacts.count_app_one.
  - eapply StoreFacts.get_all_posts_app_one; [exact Hread|].
    apply StoreFacts.read_written.
Qed.

Lemma add_post_round_trip_witness :
  exists self',
    add_post Samples.unit_encode Samples.empty_store "post-1"
      {| pd_caption := Some "Pro tip Tuesday"; pd_type := Some "educational";
         pd_engagement := Some 1800%Z;
         pd_hashtags := Some ["#protip"; "#windowcleaning"];
         pd_date_posted := Some "2024-01-05" |}
    = Ok ("post-1", self')
    /\ get_post_count self' = (get_post_count Samples.empty_store + 1)%Z
    /\ get_all_posts self'
       = Ok ([] ++ [{| p_id := "post-1"; p_caption := "Pro tip Tuesday";
                       p_type := "educational"; p_engagement := 1800%Z;
                       p_hashtags := ["#protip"; "#windowcleaning"];
                       p_date_posted := "2024-01-05" |}]).
Proof.
  apply (@add_post_round_trip unit Samples.unit_encode Samples.empty_store
           [] "post-1" "Pro tip Tuesday" "educational" 1800%Z
           (Some ["#protip"; "#windowcleaning"]) "2024-01-05");
    reflexivity.
Defined.

(** ** The analysis report *)

(** C9: on an empty store [get_content_analysis] returns the empty report
    and raises nothing; whenever it returns, the report is the empty one
    exactly when the store is empty, and the caller's guard [no_posts]
    holds of the report exactly then. *)
Theorem analysis_of_empty_store (Embedding : Type) :
  get_content_analysis (@nil (entry Embedding)) = Ok EmptyReport
  /\ forall (self : collection Embedding) (r : report),
      get_content_analysis self = Ok r ->
      (r = EmptyReport <-> self = [])
      /\ (InstagramPostRecommender.no_posts r = true <-> self = []).
Proof.
  split; [reflexivity|].
  intros self r H. unfold get_content_analysis in H.
  destruct (get_all_posts self) as [posts|e] eqn:Hposts; [|discriminate].
  simpl in H. pose proof (StoreFacts.get_all_posts_length _ Hposts) as Hlen.
  destruct posts as [|p ps].
  - destruct self; [|discriminate]. inversion H; subst. simpl. tauto.
  - destruct (AnalysisFacts.content_analysis_cons p ps) as [a [Ha Htot]].
    rewrite Ha in H. inversion H; subst.
    destruct self; [discriminate|]. simpl. rewrite Htot. unfold len. simpl.
    split; split; intros E; discriminate.
Qed.

(** C10: [get_content_analysis] never divides by zero.  For an empty list
    of records it returns before any division; the loop leaves no empty
    engagement list under a category or a tag, and the number of records
    is positive where it divides, so the analysis of every list of records
    returns a report; and whatever the store holds, the exception raised
    by [get_content_analysis], if any, is not [ZeroDivisionError]. *)
Theorem analysis_never_divides_by_zero :
  content_analysis [] = Ok EmptyReport
  /\ (forall posts : list post,
         let st := fold_left post_step posts counters0 in
         populated (type_engagement st) /\ populated (hashtag_engagement st))
  /\ (forall posts : list post, exists r, content_analysis posts = Ok r)
  /\ forall (Embedding : Type) (self : collection Embedding),
      get_content_analysis self <> Raise ZeroDivisionError.
Proof.
  assert (Htotal : forall posts : list post, exists r, content_analysis posts = Ok r).
  { intros [|p ps]; [now exists EmptyReport|].
    destruct (AnalysisFacts.content_analysis_cons p ps) as [a [Ha _]]. eauto. }
  split; [reflexivity|]. split; [|split; [exact Htotal|]].
  { intros posts st.
    destruct (AnalysisFacts.well_kept_loop posts counters0
                AnalysisFacts.well_kept_nil AnalysisFacts.well_kept_nil)
      as [[_ Ht] [_ Hh]].
    split; assumption. }
  intros Embedding self H. unfold get_content_analysis in H.
  destruct (get_all_posts self) as [posts|e] eqn:Hposts; simpl in H.
  - destruct (Htotal posts) as [r Hr]. congruence.
  - inversion H; subst. clear H. revert Hposts.
    unfold get_all_posts, collection_get.
    induction self as [|x self IH]; simpl; [discriminate|].
    unfold read_post at 1.
    destruct (Json.loads (md_hashtags (e_metadata x))) as [tags|e] eqn:Hl; simpl.
    + destruct (mapM (read_post (Embedding:=Embedding)) self) as [ps|e];
        simpl; [discriminate|].
      intros E. apply IH. congruence.
    + intros E. inversion E; subst.
      destruct (JsonErrors.loads_raises _ Hl); discriminate.
Qed.

(** ** Means *)

Lemma truediv_spec (a b : Z) (q : Q) :
  truediv a b = Ok q -> b <> 0%Z /\ q == inject_Z a / inject_Z b.
Proof.
  unfold truediv. destruct (Z.eqb_spec b 0) as [E|Hb]; [discriminate|].
  destruct (Z.ltb_spec 0 b) as [Hpos|Hneg]; intros H; inversion H; subst; clear H.
  - split; [exact Hb|]. destruct b as [|p|p]; try lia.
    simpl Z.to_pos. apply Qmake_Qdiv.
  - split; [exact Hb|]. destruct b as [|p|p]; try lia.
    simpl Z.opp. simpl Z.to_pos. rewrite Qmake_Qdiv.
    unfold Qeq, Qdiv, Qmult, Qinv, inject_Z. simpl. lia.
Qed.

(** ** Tags with the best mean engagement *)

Module TagFacts.
Import DictFacts AnalysisFacts.

Lemma not_In_existsb (t : string) (l : list string) :
  ~ In t l -> existsb (String.eqb t) l = false.
Proof.
  induction l as [|h l IH]; simpl; intros H; [reflexivity|].
  destruct (String.eqb_spec t h) as [->|_]; [tauto|]. apply IH. tauto.
Qed.

Lemma NoDup_filter_eqb (t : string) (l : list string) :
  NoDup l ->
  filter (String.eqb t) l = if existsb (String.eqb t) l then [t] else [].
Proof.
  induction 1 as [|h l Hnotin Hnd IH]; simpl; [reflexivity|].
  destruct (String.eqb_spec t h) as [->|_]; simpl.
  - rewrite IH, not_In_existsb by exact Hnotin. reflexivity.
  - exact IH.
Qed.

(** When no record repeats a tag, the loop records one engagement value
    per record that carries the tag. *)
Lemma uses_tagged (t : string) (posts : list post) :
  (forall p, In p posts -> NoDup (p_hashtags p)) ->
  uses t posts = map p_engagement (tagged t posts).
Proof.
  induction posts as [|p posts IH]; intros H; [reflexivity|].
  unfold uses, tagged in *. simpl.
  rewrite IH by (intros q Hq; apply H; now right).
  rewrite NoDup_filter_eqb by (apply H; now left).
  now destruct (existsb (String.eqb t) (p_hashtags p)).
Qed.

Lemma mean_item_inv (item : string * list Z) (k : string) (m : Q) :
  mean_item item = Ok (k, m) -> k = fst item /\ mean (snd item) = Ok m.
Proof.
  unfold mean_item. destruct (mean (snd item)) as [m'|e]; simpl; intros H;
    inversion H; auto.
Qed.

(** An entry of the ranking comes from an entry of the loop's dict that
    passed the filter. *)
Lemma best_entry_source (d : dict (list Z)) (avgs : dict Q) (t : string) (m : Q) :
  mapM mean_item (filter used_twice d) = Ok avgs ->
  In (t, m) (firstn 10 (sorted_desc snd Qltb avgs)) ->
  exists es, In (t, es) d /\ used_twice (t, es) = true /\ mean es = Ok m.
Proof.
  intros Hm Hin.
  apply In_firstn in Hin.
  apply (Permutation_in _ (SortFacts.sorted_desc_perm snd Qltb avgs)) in Hin.
  destruct (@mapM_In _ _ _ _ _ _ Hm Hin) as [[k es] [Hk Hmean]].
  apply mean_item_inv in Hmean. destruct Hmean as [-> Hmean]. simpl in *.
  apply filter_In in Hk. destruct Hk as [Hk Hused]. eauto.
Qed.

Lemma best_entry_uses (posts : list post) (a : analysis) (t : string) (m : Q) :
  content_analysis posts = Ok (Report a) ->
  In (t, m) (best_performing_hashtags a) ->
  (2 <= len (uses t posts))%Z /\ mean (uses t posts) = Ok m.
Proof.
  intros Ha Hin. destruct posts as [|p ps]; [discriminate|].
  unfold content_analysis in Ha.
  destruct (well_kept_loop (p :: ps) counters0 well_kept_nil well_kept_nil)
    as [_ [Hnd _]].
  pose proof (lookup_loop t (p :: ps) counters0) as Hlook.
  set (st := fold_left post_step (p :: ps) counters0) in *.
  destruct (mapM mean_item (type_engagement st)) as [avt|e]; [|discriminate].
  destruct (mapM mean_item (filter used_twice (hashtag_engagement st)))
    as [avh|e] eqn:Havh; [|discriminate].
  cbn [bind] in Ha. rewrite truediv_len in Ha by discriminate.
  cbn [bind] in Ha. inversion Ha; subst a; clear Ha.
  change (In (t, m) (firstn 10 (sorted_desc snd Qltb avh))) in Hin.
  destruct (@best_entry_source _ _ _ _ Havh Hin) as [es [Hes [Hused Hmean]]].
  apply (@In_get _ _ _ _ Hnd) in Hes.
  unfold lookup, get_default in Hlook. rewrite Hes in Hlook. simpl in Hlook.
  subst es. split; [|exact Hmean].
  unfold used_twice in Hused. cbn [snd] in Hused.
  now apply Z.leb_le in Hused.
Qed.

End TagFacts.

Import AnalysisFacts.

(** C2, as stated, fails on the code: a tag that one single record lists
    twice enters the ranking, although it appears on one record only. *)
Lemma repeated_tag_enters_ranking :
  exists a,
    content_analysis Samples.repeated_tag = Ok (Report a)
    /\ In ("#promo", 20 # 2) (best_performing_hashtags a)
    /\ List.length (tagged "#promo" Samples.repeated_tag) = 1%nat.
Proof. eexists. split; [reflexivity|]. split; [now left | reflexivity]. Qed.

(** C2 (amended): every tag in [best_performing_hashtags] has at least two
    uses, a use being one occurrence of the tag in the tag list of a
    record, and is mapped to the mean of the engagement over its uses; when
    no record repeats a tag in its list, the uses of a tag are the records
    that carry it, so the tag appears on at least two records and is mapped
    to the mean engagement over them.  With one record tagged [#rare] of
    engagement 9999 and two records tagged [#common] of engagements 100 and
    200, [#rare] is absent and [#common] is present with mean 150. *)
Theorem best_tags_have_two_uses :
  (forall (posts : list post) (a : analysis) (t : string) (m : Q),
      content_analysis posts = Ok (Report a) ->
      In (t, m) (best_performing_hashtags a) ->
      (2 <= len (uses t posts))%Z
      /\ m == inject_Z (sum (uses t posts)) / inject_Z (len (uses t posts))
      /\ ((forall p, In p posts -> NoDup (p_hashtags p)) ->
          uses t posts = map p_engagement (tagged t posts)
          /\ (2 <= len (tagged t posts))%Z))
  /\ exists a m,
      content_analysis Samples.rare_and_common = Ok (Report a)
      /\ best_performing_hashtags a = [("#common", m)]
      /\ m == 150.
Proof.
  split.
  - intros posts a t m Ha Hin.
    destruct (TagFacts.best_entry_uses _ _ _ Ha Hin) as [Hlen Hmean].
    split; [exact Hlen|]. split.
    + unfold mean in Hmean. now apply truediv_spec in Hmean.
    + intros Hnd. pose proof (TagFacts.uses_tagged t posts Hnd) as E.
      split; [exact E|]. rewrite E in Hlen. unfold len in *.
      now rewrite length_map in Hlen.
  - eexists. eexists. split; [reflexivity|]. split; reflexivity.
Qed.

Lemma best_tags_have_two_uses_witness :
  (2 <= len (uses "#common" Samples.rare_and_common))%Z
  /\ (300 # 2) == inject_Z (sum (uses "#common" Samples.rare_and_common))
                  / inject_Z (len (uses "#common" Samples.rare_and_common))
  /\ ((forall p, In p Samples.rare_and_common -> NoDup (p_hashtags p)) ->
      uses "#common" Samples.rare_and_common
      = map p_engagement (tagged "#common" Samples.rare_and_common)
      /\ (2 <= len (tagged "#common" Samples.rare_and_common))%Z).
Proof.
  apply (proj1 best_tags_have_two_uses Samples.rare_and_common
           {| total_posts := 3;
              avg_engagement := 10299 # 3;
              type_distribution := [("promotion", 3%Z)];
              avg_engagement_by_type := [("promotion", 10299 # 3)];
              top_hashtags := [("#common", 2%Z); ("#rare", 1%Z)];
              best_performing_hashtags := [("#common", 300 # 2)] |}
           "#common" (300 # 2)).
  - reflexivity.
  - left. reflexivity.
Defined.

(** ** The order of texts *)

Module StringOrder.

Lemma ascii_compare_N (a b : ascii) :
  Ascii.compare a b = N.compare (N_of_ascii a) (N_of_ascii b).
Proof. reflexivity. Qed.

Lemma string_ltb_asym (x y : string) :
  String.ltb x y = true -> String.ltb y x = false.
Proof.
  unfold String.ltb. rewrite (String.compare_antisym y x).
  now destruct (String.compare x y).
Qed.

(** If [x < z] then every [y] is above [x] or below [z]. *)
Lemma compare_Lt_split (x : string) :
  forall y z,
    String.compare x z = Lt ->
    String.compare x y = Lt \/ String.compare y z = Lt.
Proof.
  induction x as [|a x IH]; intros [|b y] [|c z]; simpl; auto; try discriminate.
  rewrite !ascii_compare_N.
  destruct (N.compare_spec (N_of_ascii a) (N_of_ascii c)) as [Eac|Lac|Gac];
    destruct (N.compare_spec (N_of_ascii a) (N_of_ascii b)) as [Eab|Lab|Gab];
    destruct (N.compare_spec (N_of_ascii b) (N_of_ascii c)) as [Ebc|Lbc|Gbc];
    auto; try discriminate; lia.
Qed.

Lemma string_before_trans (x y z : string) :
  String.ltb x y = false -> String.ltb y z = false -> String.ltb x z = false.
Proof.
  unfold String.ltb. intros Hxy Hyz.
  destruct (String.compare x z) eqn:Hxz; try reflexivity.
  destruct (compare_Lt_split x y z Hxz) as [H|H]; rewrite H in *; discriminate.
Qed.

End StringOrder.
(** ** Dates *)

Module DateFacts.
Import PyStr Datetime.
Open Scope Z_scope.

Lemma digit_inv (c : ascii) (v : Z) :
  digit c = Some v -> 0 <= v <= 9 /\ Z.of_N (N_of_ascii c) = 48 + v.
Proof.
  unfold digit, code.
  destruct (N.leb_spec 48 (N_of_ascii c)) as [Hlo|_]; cbn [andb]; [|discriminate].
  destruct (N.leb_spec (N_of_ascii c) 57) as [Hhi|_]; [|discriminate].
  intros E. inversion E; subst. lia.
Qed.

Lemma digit_compare (c1 c2 : ascii) (v1 v2 : Z) :
  digit c1 = Some v1 -> digit c2 = Some v2 ->
  Ascii.compare c1 c2 = Z.compare v1 v2.
Proof.
  intros H1 H2. apply digit_inv in H1, H2.
  unfold Ascii.compare. rewrite <- N2Z.inj_compare.
  destruct H1 as [_ ->], H2 as [_ ->].
  destruct (Z.compare_spec v1 v2); [apply Z.compare_eq_iff | apply Z.compare_lt_iff | apply Z.compare_gt_iff]; lia.
Qed.

Lemma dash_compare (p q : ascii) :
  (code p =? 45)%N = true -> (code q =? 45)%N = true -> Ascii.compare p q = Eq.
Proof.
  unfold code, Ascii.compare. intros Hp Hq.
  apply N.eqb_eq in Hp, Hq. rewrite Hp, Hq. reflexivity.
Qed.

Lemma date_ltb_spec (y1 m1 d1 y2 m2 d2 : Z) :
  date_ltb (y1, m1, d1) (y2, m2, d2) = true
  <-> y1 < y2 \/ (y1 = y2 /\ (m1 < m2 \/ (m1 = m2 /\ d1 < d2))).
Proof.
  unfold date_ltb.
  rewrite !Bool.orb_true_iff, !Bool.andb_true_iff, !Bool.orb_true_iff,
    !Bool.andb_true_iff, !Z.ltb_lt, !Z.eqb_eq.
  tauto.
Qed.

Lemma some_eq (A : Type) (x y : A) : Some x = Some y -> x = y.
Proof. congruence. Qed.

Lemma ok_eq (A : Type) (x y : A) : Ok x = Ok y -> x = y.
Proof. congruence. Qed.

Ltac split_digits H :=
  repeat match type of H with
         | context [match digit ?c with Some _ => _ | None => _ end] =>
             let v := fresh "v" in
             let E := fresh "E" in
             destruct (digit c) as [v|] eqn:E; [|discriminate H]
         end.

(** On dates written by [strftime] the order of the texts is the order
    of the calendar. *)
Lemma iso_ltb (s1 s2 : string) (t1 t2 : Z * Z * Z) :
  iso_fields s1 = Some t1 -> iso_fields s2 = Some t2 ->
  String.ltb s1 s2 = date_ltb t1 t2.
Proof.
  intros H1 H2.
  destruct s1 as [|a1 [|b1 [|c1 [|d1 [|p1 [|e1 [|f1 [|q1 [|g1 [|h1 [|? ?]]]]]]]]]]];
    try discriminate H1.
  destruct s2 as [|a2 [|b2 [|c2 [|d2 [|p2 [|e2 [|f2 [|q2 [|g2 [|h2 [|? ?]]]]]]]]]]];
    try discriminate H2.
  unfold iso_fields in H1, H2.
  split_digits H1. split_digits H2.
  destruct (code p1 =? 45)%N eqn:Hp1; [|discriminate H1].
  destruct (code q1 =? 45)%N eqn:Hq1; [|discriminate H1].
  destruct (code p2 =? 45)%N eqn:Hp2; [|discriminate H2].
  destruct (code q2 =? 45)%N eqn:Hq2; [|discriminate H2].
  cbn [andb] in H1, H2.
  unfold String.ltb. cbn [String.compare].
  repeat match goal with
         | Ha : digit ?a = Some ?va, Hb : digit ?b = Some ?vb
           |- context [Ascii.compare ?a ?b] =>
             rewrite (digit_compare _ _ Ha Hb)
         end.
  rewrite (dash_compare _ _ Hp1 Hp2), (dash_compare _ _ Hq1 Hq2).
  repeat match goal with
         | H : digit _ = Some _ |- _ =>
             let B := fresh "B" in
             apply digit_inv in H; destruct H as [B _]
         end.
  apply some_eq in H1, H2. subst t1 t2.
  apply Bool.eq_iff_eq_true.
  repeat match goal with
         | |- context [Z.compare ?x ?y] =>
             destruct (Z.compare_spec x y); [subst| |]
         end; rewrite date_ltb_spec; split; intros;
    try discriminate; try reflexivity; lia.
Qed.

Lemma digit_not_dash (c : ascii) (v : Z) :
  digit c = Some v -> (code c =? 45)%N = false.
Proof.
  intros H. apply digit_inv in H. destruct H as [Hv Hc].
  apply N.eqb_neq. unfold code. lia.
Qed.

Lemma digit_not_space (c : ascii) (v : Z) :
  digit c = Some v -> (code c =? 32)%N = false.
Proof.
  intros H. apply digit_inv in H. destruct H as [Hv Hc].
  apply N.eqb_neq. unfold code. lia.
Qed.

(** [strptime] reads a date written by [strftime] as the same year,
    month and day, at midnight. *)
Lemma strptime_iso (s : string) (t : Z * Z * Z) (dt : datetime) :
  iso_fields s = Some t -> strptime s = Ok dt ->
  (year dt, month dt, day dt) = t /\ micros dt = 0.
Proof.
  intros H1 H2.
  destruct s as [|a1 [|b1 [|c1 [|d1 [|p1 [|e1 [|f1 [|q1 [|g1 [|h1 [|? ?]]]]]]]]]]];
    try discriminate H1.
  unfold iso_fields in H1. split_digits H1.
  destruct (code p1 =? 45)%N eqn:Hp1; [|discriminate H1].
  destruct (code q1 =? 45)%N eqn:Hq1; [|discriminate H1].
  cbn [andb] in H1. apply some_eq in H1. subst t.
  assert (Hf : (code f1 =? 45)%N = false)
    by (match goal with
        | E : digit f1 = Some _ |- _ => exact (digit_not_dash _ E)
        end).
  assert (Hg : (code g1 =? 32)%N = false)
    by (match goal with
        | E : digit g1 = Some _ |- _ => exact (digit_not_space _ E)
        end).
  unfold strptime, parse_year, parse_month, parse_day, parse_dash,
    digit_between in H2.
  repeat first
    [ progress cbv beta iota in H2
    | match goal with
      | E : digit _ = Some _ |- _ => rewrite !E in H2
      end
    | rewrite Hp1 in H2 | rewrite Hq1 in H2
    | rewrite Hf in H2 | rewrite Hg in H2
    | match type of H2 with
      | context [if ?b then _ else _] =>
          match type of b with
          | bool => let C := fresh "C" in destruct b eqn:C
          end
      end ];
    try discriminate H2.
  all: repeat match goal with
              | H : digit _ = Some _ |- _ =>
                  let B := fresh "B" in
                  apply digit_inv in H; destruct H as [B _]
              end.
  all: apply ok_eq in H2; subst dt; cbn [year month day micros].
  all: split; [|reflexivity]; repeat f_equal; lia.
Qed.
End DateFacts.

(** ** Recent records *)

Module RecentFacts.
Import Datetime.

Lemma StronglySorted_weaken (A : Type) (R R' : A -> A -> Prop) (l : list A) :
  (forall x y, In x l -> In y l -> R x y -> R' x y) ->
  StronglySorted R l -> StronglySorted R' l.
Proof.
  induction l as [|a l IH]; intros H Hs; [constructor|].
  inversion Hs as [|? ? Hl Ha]; subst. constructor.
  - apply IH; [|exact Hl]. intros x y Hx Hy. apply H; now right.
  - rewrite Forall_forall in Ha |- *. intros y Hy.
    apply H; [now left | now right | now apply Ha].
Qed.

Lemma ltb_irrefl (s : string) : String.ltb s s = false.
Proof.
  destruct (String.ltb s s) eqn:E; [|reflexivity].
  now rewrite (StringOrder.string_ltb_asym _ _ E) in E.
Qed.

Lemma same_day_before (d : string) (x y : post) :
  posted_on d x = true -> posted_on d y = true ->
  before p_date_posted String.ltb x y.
Proof.
  unfold posted_on, before. intros Hx Hy.
  apply String.eqb_eq in Hx, Hy. rewrite Hx, Hy. apply ltb_irrefl.
Qed.

Lemma before_not_older (x y : post) :
  dated x -> dated y ->
  before p_date_posted String.ltb x y -> not_older x y.
Proof.
  unfold dated, not_older, calendar_date, before.
  destruct (iso_fields (p_date_posted x)) as [tx|] eqn:Ex; [|tauto].
  destruct (iso_fields (p_date_posted y)) as [ty|] eqn:Ey; [|tauto].
  intros _ _ H. now rewrite <- (DateFacts.iso_ltb _ _ Ex Ey).
Qed.

Lemma slice_to_nonneg (A : Type) (n : Z) (l : list A) :
  (0 <= n)%Z -> slice_to n l = firstn (Z.to_nat n) l.
Proof.
  intros H. unfold slice_to.
  destruct (Z.leb_spec 0 n); [reflexivity | lia].
Qed.

End RecentFacts.

Import RecentFacts.

(** C6: for a store whose dates are written as [strftime] writes them and
    for a limit [n >= 0], [get_recent_posts] returns the first [n] records
    of the list that holds the records of the store with the newest date
    first, records of the same date in their order of insertion; the
    result has at most [n] records.  Of records dated 2024-01-01,
    2024-01-05 and 2024-01-03, the two most recent are the one of 01-05,
    then the one of 01-03. *)
Theorem recent_posts_newest_first :
  (forall (Embedding : Type) (self : collection Embedding)
          (posts : list post) (n : Z),
      get_all_posts self = Ok posts ->
      (0 <= n)%Z ->
      Forall dated posts ->
      exists ordered,
        Permutation ordered posts
        /\ StronglySorted not_older ordered
        /\ (forall d, filter (posted_on d) ordered = filter (posted_on d) posts)
        /\ get_recent_posts self n = Ok (firstn (Z.to_nat n) ordered)
        /\ (len (firstn (Z.to_nat n) ordered) <= n)%Z)
  /\ get_recent_posts Samples.dated_store 2
     = Ok [Samples.dated_post "p2" "2024-01-05";
           Samples.dated_post "p3" "2024-01-03"].
Proof.
  split; [|reflexivity].
  intros Embedding self posts n Hread Hn Hdated.
  exists (sorted_desc p_date_posted String.ltb posts).
  pose proof (SortFacts.sorted_desc_perm p_date_posted String.ltb posts) as Hperm.
  split; [exact Hperm|]. split; [|split; [|split]].
  - apply StronglySorted_weaken
      with (R := before p_date_posted String.ltb).
    + rewrite Forall_forall in Hdated. intros x y Hx Hy.
      apply before_not_older; apply Hdated;
        eapply Permutation_in; eauto.
    + apply SortFacts.sorted_desc_sorted.
      * apply StringOrder.string_before_trans.
      * apply StringOrder.string_ltb_asym.
  - intros d. apply SortFacts.sorted_desc_stable.
    intros x y _ _. apply same_day_before.
  - unfold get_recent_posts. rewrite Hread. simpl.
    now rewrite slice_to_nonneg.
  - unfold len. pose proof (firstn_le_length (Z.to_nat n)
                              (sorted_desc p_date_posted String.ltb posts)).
    lia.
Qed.

Lemma recent_posts_newest_first_witness :
  exists ordered,
    Permutation ordered Samples.dated_posts
    /\ StronglySorted not_older ordered
    /\ (forall d, filter (posted_on d) ordered
                  = filter (posted_on d) Samples.dated_posts)
    /\ get_recent_posts Samples.dated_store 2 = Ok (firstn (Z.to_nat 2) ordered)
    /\ (len (firstn (Z.to_nat 2) ordered) <= 2)%Z.
Proof.
  apply (proj1 recent_posts_newest_first unit Samples.dated_store
           Samples.dated_posts 2%Z).
  - reflexivity.
  - lia.
  - repeat constructor; discriminate.
Defined.

(** ** Content gaps *)

Module GapFacts.
Import InstagramPostRecommender.

Lemma mem_In (t : string) (l : list string) : mem t l = true <-> In t l.
Proof.
  unfold mem. rewrite existsb_exists. split.
  - intros [x [Hx E]]. apply String.eqb_eq in E. now subst.
  - intros H. exists t. split; [exact H | apply String.eqb_refl].
Qed.

Lemma set_In (t : string) (l : list string) : In t (set l) <-> In t l.
Proof. apply nodup_In. Qed.

Lemma mix_In (l : list string) (t : string) (c : nat) :
  In (t, c) (map (fun t => (t, count_occ string_dec l t)) (set l))
  <-> In t l /\ c = count_occ string_dec l t.
Proof.
  rewrite in_map_iff. split.
  - intros [x [E Hx]]. inversion E; subst. split; [now apply set_In | reflexivity].
  - intros [Ht ->]. exists t. split; [reflexivity | now apply set_In].
Qed.

Lemma mix_keys (l : list string) :
  map fst (map (fun t => (t, count_occ string_dec l t)) (set l)) = set l.
Proof. rewrite map_map. simpl. apply map_id. Qed.

End GapFacts.

Import InstagramPostRecommender GapFacts.

(** C7: on an empty list [_analyze_content_gaps] returns the marker; on a
    non-empty list it reports, over the categories of the first seven
    records, each category that occurs with its number of occurrences, as
    missing the categories of [all_types] that do not occur, and as
    overused the categories that occur three times or more. *)
Theorem content_gaps_report :
  _analyze_content_gaps [] = GapMarker "No recent posts to analyze"
  /\ forall (p : post) (ps : list post),
      exists mix missing overused,
        _analyze_content_gaps (p :: ps) = GapReport mix missing overused
        /\ NoDup (map fst mix)
        /\ (forall t c,
               In (t, c) mix
               <-> In t (window (p :: ps)) /\ c = occurrences (p :: ps) t)
        /\ (forall t,
               In t missing
               <-> In t all_types /\ ~ In t (window (p :: ps)))
        /\ (forall t,
               In t overused <-> (3 <= occurrences (p :: ps) t)%nat).
Proof.
  split; [reflexivity|]. intros p ps.
  unfold _analyze_content_gaps. fold (window (p :: ps)).
  set (l := window (p :: ps)).
  eexists. eexists. eexists. split; [reflexivity|].
  split; [|split; [|split]].
  - rewrite mix_keys. apply NoDup_nodup.
  - intros t c. apply mix_In.
  - intros t. rewrite filter_In, Bool.negb_true_iff.
    rewrite <- Bool.not_true_iff_false, mem_In. tauto.
  - intros t. unfold occurrences. fold l. rewrite in_map_iff. split.
    + intros [[t' c] [E H]]. simpl in E. subst t'.
      apply filter_In in H. destruct H as [H Hc]. cbn [snd] in Hc.
      apply mix_In in H. destruct H as [_ ->]. now apply Nat.leb_le.
    + intros H. exists (t, count_occ string_dec l t). split; [reflexivity|].
      apply filter_In. split.
      * apply mix_In. split; [|reflexivity].
        apply (count_occ_In string_dec). lia.
      * cbn [snd]. now apply Nat.leb_le.
Qed.

(** ** Posting rhythm *)

Module RhythmFacts.
Import Datetime.
Open Scope Z_scope.

Lemma datetime_before_trans (x y z : datetime) :
  Datetime.ltb x y = false -> Datetime.ltb y z = false ->
  Datetime.ltb x z = false.
Proof. unfold Datetime.ltb. lia. Qed.

Lemma datetime_ltb_asym (x y : datetime) :
  Datetime.ltb x y = true -> Datetime.ltb y x = false.
Proof. unfold Datetime.ltb. lia. Qed.

Lemma strptime_midnight (s : string) (d : datetime) :
  strptime s = Ok d -> midnight d.
Proof.
  unfold strptime, midnight.
  destruct (parse_year s) as [[y s1]|]; [|discriminate].
  destruct (parse_dash s1) as [s2|]; [|discriminate].
  destruct (parse_month s2) as [[m s3]|]; [|discriminate].
  destruct (parse_dash s3) as [s4|]; [|discriminate].
  destruct (parse_day s4) as [[d' [|? ?]]|]; try discriminate.
  destruct ((1 <=? y) && (d' <=? days_in_month y m)); [|discriminate].
  intros H. apply DateFacts.ok_eq in H. now subst d.
Qed.

Lemma sub_days_midnight (a b : datetime) :
  0 <= micros a < day_micros -> midnight b ->
  sub_days a b = toordinal a - toordinal b.
Proof.
  unfold sub_days, midnight, day_micros. intros Ha Hb. rewrite Hb.
  rewrite Z.sub_0_r, Z.div_add_l by lia.
  rewrite Z.div_small by lia. lia.
Qed.

Lemma gaps_of_cons (a : datetime) (dates : list datetime) :
  Forall midnight (a :: dates) ->
  InstagramPostRecommender.gaps_of (a :: dates) = day_gaps (a :: dates).
Proof.
  revert a. induction dates as [|b t IH]; intros a H; [reflexivity|].
  inversion H as [|? ? Ha Ht]; subst.
  inversion Ht as [|? ? Hb _]; subst.
  change (InstagramPostRecommender.gaps_of (a :: b :: t))
    with (sub_days a b :: InstagramPostRecommender.gaps_of (b :: t)).
  change (day_gaps (a :: b :: t))
    with ((toordinal a - toordinal b) :: day_gaps (b :: t)).
  rewrite IH by exact Ht. f_equal.
  apply sub_days_midnight; [|exact Hb].
  unfold midnight in Ha. rewrite Ha. unfold day_micros. lia.
Qed.

Lemma gaps_of_midnight (dates : list datetime) :
  Forall midnight dates ->
  InstagramPostRecommender.gaps_of dates = day_gaps dates.
Proof. destruct dates; [reflexivity | apply gaps_of_cons]. Qed.

Lemma mapM_strptime_midnight (l : list post) (parsed : list datetime) :
  mapM (fun p => strptime (p_date_posted p)) l = Ok parsed ->
  Forall midnight parsed.
Proof.
  intros H. apply Forall_forall. intros d Hd.
  destruct (@mapM_In _ _ _ _ _ _ H Hd) as [p [_ Hp]].
  now apply strptime_midnight in Hp.
Qed.

Lemma Qltb_lt (a b : Q) : Qltb a b = true <-> (a < b)%Q.
Proof.
  unfold Qltb. rewrite Bool.negb_true_iff, <- Bool.not_true_iff_false,
    Qle_bool_iff.
  split; [apply Qnot_le_lt | apply Qlt_not_le].
Qed.

End RhythmFacts.

Import RhythmFacts.

(** C4: with fewer than two records [_analyze_posting_rhythm] returns the
    marker.  With two records or more, all dated, it orders the dates with
    the newest first, reports the days from the newest date to today, the
    mean of the day differences between neighbouring dates, and the status
    [overdue] exactly when the days since the newest date exceed one and a
    half times that mean.  Records dated 2024-01-10 and 2024-01-05, looked
    at on 2024-01-20, give 10 days since the last post, an average gap of
    5 days and the status [overdue]. *)
Theorem posting_rhythm_report :
  (forall (now : Datetime.datetime) (recent_posts : list post),
      (List.length recent_posts < 2)%nat ->
      _analyze_posting_rhythm now recent_posts
      = Ok (RhythmMarker "Not enough posts to analyze rhythm"))
  /\ (forall (now : Datetime.datetime) (recent_posts : list post)
             (parsed : list Datetime.datetime),
         (2 <= List.length recent_posts)%nat ->
         mapM (fun p => Datetime.strptime (p_date_posted p)) recent_posts
         = Ok parsed ->
         (0 <= Datetime.micros now < Datetime.day_micros)%Z ->
         exists newest rest avg_gap status,
           let days := (Datetime.toordinal now - Datetime.toordinal newest)%Z in
           let gaps := day_gaps (newest :: rest) in
           Permutation (newest :: rest) parsed
           /\ StronglySorted not_earlier (newest :: rest)
           /\ _analyze_posting_rhythm now recent_posts
              = Ok (Rhythm days avg_gap status)
           /\ (avg_gap == inject_Z (sum gaps) / inject_Z (len gaps))%Q
           /\ (status = overdue <-> (avg_gap * (3 # 2) < inject_Z days)%Q))
  /\ _analyze_posting_rhythm Samples.rhythm_now Samples.rhythm_posts
     = Ok (Rhythm 10 5 overdue).
Proof.
  split; [|split; [|reflexivity]].
  - intros now posts Hlen. unfold _analyze_posting_rhythm.
    destruct (Nat.ltb_spec (List.length posts) 2) as [_|H]; [reflexivity | lia].
  - intros now posts parsed Hlen Hparsed Hnow.
    unfold _analyze_posting_rhythm.
    destruct (Nat.ltb_spec (List.length posts) 2) as [H|_]; [lia|].
    rewrite Hparsed. cbn [bind].
    pose proof (SortFacts.sorted_desc_perm (fun d => d) Datetime.ltb parsed)
      as Hperm.
    pose proof (SortFacts.sorted_desc_sorted (fun d => d) Datetime.ltb
                  datetime_before_trans datetime_ltb_asym parsed) as Hsorted.
    pose proof (mapM_strptime_midnight _ Hparsed) as Hmid.
    apply (Permutation_Forall (Permutation_sym Hperm)) in Hmid.
    pose proof (Permutation_length Hperm) as Hl.
    rewrite (mapM_length _ _ Hparsed) in Hl.
    destruct (sorted_desc (fun d => d) Datetime.ltb parsed)
      as [|newest [|second rest]]; simpl in Hl; try lia.
    exists newest, (second :: rest).
    assert (Hnewest : midnight newest) by now inversion Hmid.
    rewrite (@sub_days_midnight _ _ Hnow Hnewest).
    rewrite (@gaps_of_midnight _ Hmid).
    change (day_gaps (newest :: second :: rest))
      with ((Datetime.toordinal newest - Datetime.toordinal second)%Z
              :: day_gaps (second :: rest)).
    set (gaps := (Datetime.toordinal newest - Datetime.toordinal second)%Z
                   :: day_gaps (second :: rest)).
    assert (Hdiv : truediv (sum gaps) (len gaps)
                   = Ok (sum gaps # Z.to_pos (len gaps)))
      by (apply truediv_len; discriminate).
    change (match gaps with
            | [] => Ok 0%Q
            | _ :: _ => truediv (sum gaps) (len gaps)
            end) with (truediv (sum gaps) (len gaps)).
    rewrite Hdiv. cbn [bind].
    eexists. eexists. cbv zeta.
    split; [exact Hperm|]. split; [exact Hsorted|]. split; [reflexivity|].
    split; [now apply truediv_spec in Hdiv|].
    rewrite <- Qltb_lt.
    destruct (Qltb _ _); split; intros E; try reflexivity; discriminate.
Qed.

Lemma posting_rhythm_report_witness :
  exists newest rest avg_gap status,
    let days := (Datetime.toordinal Samples.rhythm_now
                 - Datetime.toordinal newest)%Z in
    let gaps := day_gaps (newest :: rest) in
    Permutation (newest :: rest)
      [{| Datetime.year := 2024; Datetime.month := 1; Datetime.day := 10;
          Datetime.micros := 0 |};
       {| Datetime.year := 2024; Datetime.month := 1; Datetime.day := 5;
          Datetime.micros := 0 |}]
    /\ StronglySorted not_earlier (newest :: rest)
    /\ _analyze_posting_rhythm Samples.rhythm_now Samples.rhythm_posts
       = Ok (Rhythm days avg_gap status)
    /\ (avg_gap == inject_Z (sum gaps) / inject_Z (len gaps))%Q
    /\ (status = overdue <-> (avg_gap * (3 # 2) < inject_Z days)%Q).
Proof.
  apply (proj1 (proj2 posting_rhythm_report)
           Samples.rhythm_now Samples.rhythm_posts).
  - simpl. lia.
  - reflexivity.
  - unfold Datetime.day_micros. simpl. lia.
Defined.

(** With one record only the marker is returned, whatever the date. *)
Example rhythm_of_one_post :
  _analyze_posting_rhythm Samples.rhythm_now
    [Samples.dated_post "p1" "2024-01-10"]
  = Ok (RhythmMarker "Not enough posts to analyze rhythm").
Proof. reflexivity. Qed.

(** ** The recommendation extractor *)

Module ExtractFacts.
Import PyStr.

Lemma story_is_not_feed (msg : message) :
  qualifies "story_specialist" msg = true ->
  qualifies "feed_specialist" msg = false.
Proof.
  unfold qualifies. intros H. apply Bool.andb_true_iff in H.
  destruct H as [H _]. apply String.eqb_eq in H. now rewrite H.
Qed.

Lemma rec_step_shown (st : string * string) (msg : message) :
  rec_step st msg
  = (if qualifies "story_specialist" msg then clip (text msg) else fst st,
     if qualifies "feed_specialist" msg then clip (text msg) else snd st).
Proof.
  unfold rec_step, text. destruct st as [s f]. simpl fst. simpl snd.
  destruct (qualifies "story_specialist" msg) eqn:Hs.
  - now rewrite (story_is_not_feed _ Hs).
  - now destruct (qualifies "feed_specialist" msg).
Qed.

Lemma last_turn_snoc (who : string) (msgs : list message) (msg : message) :
  last_turn who (msgs ++ [msg])
  = if qualifies who msg then Some msg else last_turn who msgs.
Proof. unfold last_turn. now rewrite rev_app_distr. Qed.

Lemma specialist_recs_shown (all_messages : list message) :
  specialist_recs all_messages
  = (shown "story_specialist" all_messages,
     shown "feed_specialist" all_messages).
Proof.
  unfold specialist_recs.
  induction all_messages as [|msg msgs IH] using rev_ind; [reflexivity|].
  rewrite fold_left_app. cbn [fold_left]. rewrite IH, rec_step_shown.
  cbn [fst snd]. unfold shown. rewrite !last_turn_snoc.
  destruct (qualifies "story_specialist" msg),
    (qualifies "feed_specialist" msg); reflexivity.
Qed.

(** [last_turn] is the last qualifying turn of the transcript. *)
Lemma last_turn_Some (who : string) (msgs : list message) (msg : message) :
  last_turn who msgs = Some msg ->
  exists earlier later,
    msgs = earlier ++ msg :: later
    /\ qualifies who msg = true
    /\ forall m, In m later -> qualifies who m = false.
Proof.
  induction msgs as [|x msgs IH] using rev_ind; [discriminate|].
  rewrite last_turn_snoc. destruct (qualifies who x) eqn:Hx.
  - intros E. apply DateFacts.some_eq in E. subst x.
    exists msgs, []. repeat split; [exact Hx | intros m []].
  - intros H. destruct (IH H) as (earlier & later & -> & Hq & Hlater).
    exists earlier, (later ++ [x]). split; [now rewrite <- app_assoc|].
    split; [exact Hq|]. intros m Hm. apply in_app_or in Hm.
    destruct Hm as [Hm|[<-|[]]]; [now apply Hlater | exact Hx].
Qed.

Lemma last_turn_None (who : string) (msgs : list message) :
  last_turn who msgs = None ->
  forall m, In m msgs -> qualifies who m = false.
Proof.
  unfold last_turn. intros H m Hm.
  apply (find_none _ _ H). now apply in_rev in Hm.
Qed.

Lemma length_take (n : nat) (s : string) :
  (n <= String.length s)%nat -> String.length (take n s) = n.
Proof.
  unfold take. revert s. induction n as [|n IH]; intros s H.
  - now destruct s.
  - destruct s as [|c s]; simpl in *; [lia|]. rewrite IH; lia.
Qed.

(** The report is the banner, the sections that have a text, and the
    closing line. *)
Lemma extract_recommendations_layout (all_messages : list message) :
  let final_recommendation := final_recommendation_of all_messages in
  let story_rec := shown "story_specialist" all_messages in
  let feed_rec := shown "feed_specialist" all_messages in
  _extract_recommendations {| chat_history := Some all_messages |}
  = (banner ++ newline ++ PyStr.repeat "=" 50 ++ newline ++ newline
       ++ (if truthy final_recommendation
           then block " COORDINATED STRATEGY:"
                  (coordinated_text final_recommendation)
           else "")
       ++ (if truthy story_rec
           then block " STORY RECOMMENDATION:" story_rec else "")
       ++ (if truthy feed_rec
           then block " FEED POST RECOMMENDATION:" feed_rec else "")
       ++ " Ready to create your next posts!")%string.
Proof.
  cbv zeta. unfold _extract_recommendations, block. cbn [chat_history].
  rewrite specialist_recs_shown.
  destruct (truthy (final_recommendation_of all_messages)),
    (truthy (shown "story_specialist" all_messages)),
    (truthy (shown "feed_specialist" all_messages));
    rewrite ?string_app_assoc; reflexivity.
Qed.

End ExtractFacts.

Import ExtractFacts.

Module KeptFacts.
Import PyStr.

(** The test of the loop is the test of the property. *)
Lemma qualifies_long (who : string) (msg : message) :
  qualifies who msg = true <-> long_turn_of who msg.
Proof.
  unfold qualifies, long_turn_of, text.
  rewrite Bool.andb_true_iff, String.eqb_eq, Nat.ltb_lt. reflexivity.
Qed.

Lemma not_qualifies_long (who : string) (msg : message) :
  qualifies who msg = false <-> ~ long_turn_of who msg.
Proof.
  rewrite <- qualifies_long. destruct (qualifies who msg); split; congruence.
Qed.

Lemma take_split (n : nat) (s : string) :
  (n <= String.length s)%nat ->
  exists tail, s = (take n s ++ tail)%string.
Proof.
  unfold take. revert s. induction n as [|n IH]; intros s H.
  - exists s. now destruct s.
  - destruct s as [|c s]; simpl in H; [lia|].
    destruct (IH s) as [tail E]; [lia|].
    exists tail. simpl. now rewrite <- E.
Qed.

Lemma clip_displayed (s : string) : displayed s (clip s).
Proof.
  unfold displayed, clip.
  destruct (Nat.ltb_spec 500 (String.length s)) as [H|H].
  - right. split; [exact H|].
    destruct (@take_split 500 s) as [tail E]; [lia|].
    exists (take 500 s), tail. split; [exact E|].
    split; [apply length_take; lia | reflexivity].
  - left. now split.
Qed.

Lemma head_of_length (h1 : string) :
  forall h2 t1 t2 : string,
    (h1 ++ t1)%string = (h2 ++ t2)%string ->
    String.length h1 = String.length h2 -> h1 = h2.
Proof.
  induction h1 as [|c h1 IH]; intros [|d h2] t1 t2 E L; simpl in L;
    try discriminate; [reflexivity|].
  simpl in E. injection E as Ec Et. subst d. f_equal.
  apply (IH h2 t1 t2 Et). lia.
Qed.

(** A text has one display form. *)
Lemma displayed_fun (s d1 d2 : string) :
  displayed s d1 -> displayed s d2 -> d1 = d2.
Proof.
  intros [[L1 ->]|[L1 (h1 & t1 & E1 & N1 & ->)]]
         [[L2 ->]|[L2 (h2 & t2 & E2 & N2 & ->)]]; try lia; [reflexivity|].
  f_equal. apply (@head_of_length h1 h2 t1 t2); congruence.
Qed.

(** A transcript has one last turn with a given property. *)
Lemma last_turn_unique (P : message -> Prop) (e1 : list message) :
  forall (e2 : list message) (m1 m2 : message) (l1 l2 : list message),
    e1 ++ m1 :: l1 = e2 ++ m2 :: l2 ->
    P m1 -> P m2 ->
    (forall m, In m l1 -> ~ P m) -> (forall m, In m l2 -> ~ P m) ->
    m1 = m2.
Proof.
  induction e1 as [|x e1 IH]; intros [|y e2] m1 m2 l1 l2 E P1 P2 H1 H2;
    cbn [app] in E.
  - congruence.
  - exfalso. apply (H1 m2); [|exact P2].
    assert (El : l1 = e2 ++ m2 :: l2) by congruence.
    rewrite El. apply in_or_app. right. now left.
  - exfalso. apply (H2 m1); [|exact P1].
    assert (El : l2 = e1 ++ m1 :: l1) by congruence.
    rewrite El. apply in_or_app. right. now left.
  - apply (IH e2 m1 m2 l1 l2); try assumption. congruence.
Qed.

(** What the loop keeps for [who] is what the transcript gives. *)
Lemma shown_kept (who : string) (all_messages : list message) :
  kept who all_messages (shown who all_messages).
Proof.
  unfold kept, shown.
  destruct (last_turn who all_messages) as [msg|] eqn:E.
  - left. destruct (last_turn_Some _ _ E) as (earlier & later & Hm & Hq & Hl).
    exists earlier, msg, later. split; [exact Hm|].
    split; [now apply qualifies_long|].
    split; [|apply clip_displayed].
    intros m Hm'. apply not_qualifies_long. now apply Hl.
  - right. split; [|reflexivity].
    intros m Hm. apply not_qualifies_long.
    now apply (last_turn_None _ _ E).
Qed.

(** The transcript gives one text for [who]. *)
Lemma kept_unique (who : string) (all_messages : list message)
      (f1 f2 : string) :
  kept who all_messages f1 -> kept who all_messages f2 -> f1 = f2.
Proof.
  intros [(e1 & m1 & l1 & E1 & P1 & H1 & D1)|[N1 ->]]
         [(e2 & m2 & l2 & E2 & P2 & H2 & D2)|[N2 ->]].
  - assert (Em : m1 = m2).
    { apply (@last_turn_unique (long_turn_of who) e1 e2 m1 m2 l1 l2);
        try assumption. congruence. }
    subst m2. exact (displayed_fun D1 D2).
  - exfalso. apply (N2 m1); [|exact P1].
    rewrite E1. apply in_or_app. right. now left.
  - exfalso. apply (N1 m2); [|exact P2].
    rewrite E2. apply in_or_app. right. now left.
  - reflexivity.
Qed.

End KeptFacts.

(** C8: for every transcript, the text that the extractor keeps for a
    specialist ([story_rec] for the story specialist, [feed_rec] for the
    feed specialist) is the display form of the text of the last turn
    that carries the name of the specialist and is longer than 100
    characters: that text itself when it has 500 characters at most, its
    first 500 characters followed by three dots otherwise.  Shorter
    turns and turns of others do not count; with no such turn the text
    kept is empty.  The transcript gives no other text. *)
Theorem specialist_text_is_last_long_turn (all_messages : list message) :
  let story_rec := fst (specialist_recs all_messages) in
  let feed_rec := snd (specialist_recs all_messages) in
  (kept "story_specialist" all_messages story_rec
   /\ forall field,
       kept "story_specialist" all_messages field -> field = story_rec)
  /\ (kept "feed_specialist" all_messages feed_rec
      /\ forall field,
          kept "feed_specialist" all_messages field -> field = feed_rec).
Proof.
  cbv zeta. rewrite specialist_recs_shown. cbn [fst snd].
  split; split.
  - apply KeptFacts.shown_kept.
  - intros field H.
    exact (KeptFacts.kept_unique H (KeptFacts.shown_kept _ _)).
  - apply KeptFacts.shown_kept.
  - intros field H.
    exact (KeptFacts.kept_unique H (KeptFacts.shown_kept _ _)).
Qed.

Module StrategyFacts.

Lemma first_final_skip (later : list message) (rest : list message) :
  (forall m, In m later -> is_final m = false) ->
  first_final (rev later ++ rest) = first_final rest.
Proof.
  induction later as [|x later IH] using rev_ind; intros H; [reflexivity|].
  rewrite rev_app_distr. cbn [rev app first_final].
  rewrite (H x) by (apply in_or_app; right; now left).
  apply IH. intros m Hm. apply H. apply in_or_app. now left.
Qed.

(** The reverse scan stops at the last turn of the coordinator that
    contains the marker in any case of letters. *)
Lemma final_recommendation_last
      (earlier later : list message) (msg : message) :
  is_final msg = true ->
  (forall m, In m later -> is_final m = false) ->
  final_recommendation_of (earlier ++ msg :: later) = text msg.
Proof.
  intros Hmsg Hlater. unfold final_recommendation_of.
  rewrite rev_app_distr. cbn [rev]. rewrite <- app_assoc.
  rewrite first_final_skip by exact Hlater.
  cbn [app first_final]. now rewrite Hmsg.
Qed.

(** Without such a turn the coordinated strategy is empty. *)
Lemma coordinated_strategy_none (all_messages : list message) :
  (forall m, In m all_messages -> is_final m = false) ->
  coordinated_strategy all_messages = EmptyString.
Proof.
  intros H. unfold coordinated_strategy, final_recommendation_of.
  rewrite <- (app_nil_r (rev all_messages)).
  now rewrite first_final_skip.
Qed.

End StrategyFacts.

(** C3 fails on the code at a turn that carries the marker in small
    letters: the reverse scan selects the turn, since it looks for the
    marker in the capitalised text, but the marker is then removed by an
    exact match and stays in the coordinated strategy.  With the marker in
    capitals it is removed. *)
Theorem small_marker_stays_in_strategy :
  final_recommendation_of Samples.small_transcript
  = "final recommendation: post a reel"
  /\ coordinated_strategy Samples.small_transcript
     = "final recommendation: post a reel"
  /\ PyStr.contains marker
       (PyStr.upper (coordinated_strategy Samples.small_transcript)) = true
  /\ PyStr.contains "final recommendation: post a reel"
       (_extract_recommendations
          {| chat_history := Some Samples.small_transcript |}) = true
  /\ coordinated_strategy Samples.capital_transcript = "post a reel".
Proof. repeat split; reflexivity. Qed.

(* ================================================================== *)
(** * Further properties of the store *)

Module QueryFacts.

Section Facts.
Variable Embedding : Type.
Variable encode : string -> Embedding.

Lemma read_plain_of_read (e : entry Embedding) (p : post) :
  read_post e = Ok p -> read_plain_entry e = Ok (forget_id p).
Proof.
  unfold read_post, read_plain_entry, read_plain_post.
  destruct (Json.loads (md_hashtags (e_metadata e))) as [tags|x];
    cbn [bind]; intros H; [|discriminate].
  apply DateFacts.ok_eq in H. now subst p.
Qed.

Lemma read_post_metadata (e : entry Embedding) (p : post) :
  read_post e = Ok p ->
  p_type p = md_type (e_metadata e)
  /\ p_engagement p = md_engagement (e_metadata e).
Proof.
  unfold read_post.
  destruct (Json.loads (md_hashtags (e_metadata e))) as [tags|x];
    cbn [bind]; intros H; [|discriminate].
  apply DateFacts.ok_eq in H. now subst p.
Qed.

(** A filtered read returns the matching records of the full read. *)
Lemma filtered_read (cm : metadata -> bool) (cp : post -> bool)
      (self : collection Embedding) :
  (forall (e : entry Embedding) p,
      read_post e = Ok p -> cp p = cm (e_metadata e)) ->
  forall posts,
    get_all_posts self = Ok posts ->
    mapM (read_plain_entry (Embedding:=Embedding))
         (collection_get_where self cm)
    = Ok (map forget_id (filter cp posts)).
Proof.
  intros Hc. unfold get_all_posts, collection_get, collection_get_where.
  induction self as [|e self IH]; intros posts H.
  - apply DateFacts.ok_eq in H. now subst posts.
  - cbn [mapM] in H.
    destruct (read_post e) as [p|x] eqn:Hp; cbn [bind] in H; [|discriminate].
    destruct (mapM (read_post (Embedding:=Embedding)) self) as [ps|x] eqn:Hps;
      cbn [bind] in H; [|discriminate].
    apply DateFacts.ok_eq in H. subst posts.
    cbn [filter]. rewrite (Hc _ _ Hp).
    destruct (cm (e_metadata e)).
    + cbn [mapM map]. rewrite (read_plain_of_read _ Hp). cbn [bind].
      now rewrite (IH ps eq_refl).
    + now apply IH.
Qed.

Lemma read_plain_written (uuid4 caption type : string) (engagement : Z)
      (hashtags : option (list string)) (date_posted : string) :
  read_plain_entry
    (written encode uuid4 caption type engagement hashtags date_posted)
  = Ok {| pp_caption := caption; pp_type := type;
          pp_engagement := engagement;
          pp_hashtags := match hashtags with Some l => l | None => [] end;
          pp_date_posted := date_posted |}.
Proof.
  unfold read_plain_entry, read_plain_post, written.
  cbn [e_metadata e_document md_hashtags].
  now rewrite JsonFacts.loads_dumps.
Qed.

End Facts.

Lemma Z_before_trans (x y z : Z) :
  Z.ltb x y = false -> Z.ltb y z = false -> Z.ltb x z = false.
Proof. lia. Qed.

Lemma Z_ltb_asym (x y : Z) : Z.ltb x y = true -> Z.ltb y x = false.
Proof. lia. Qed.

End QueryFacts.

(** [get_posts_by_type] returns, without their ids and in the order of
    the store, exactly the records of [get_all_posts] that have the type
    asked for. *)
Theorem posts_by_type_are_the_records_of_that_type
        (Embedding : Type) (self : collection Embedding)
        (posts : list post) (post_type : string) :
  get_all_posts self = Ok posts ->
  get_posts_by_type self post_type
  = Ok (map forget_id (filter (has_type post_type) posts)).
Proof.
  intros H. unfold get_posts_by_type.
  apply QueryFacts.filtered_read; [|exact H].
  intros e p Hp. unfold has_type.
  now rewrite (proj1 (QueryFacts.read_post_metadata _ Hp)).
Qed.

Lemma posts_by_type_are_the_records_of_that_type_witness :
  get_posts_by_type Samples.dated_store "promotion"
  = Ok (map forget_id (filter (has_type "promotion") Samples.dated_posts)).
Proof.
  apply (@posts_by_type_are_the_records_of_that_type unit
           Samples.dated_store Samples.dated_posts "promotion").
  reflexivity.
Defined.

(** [get_high_engagement_posts] returns the records of [get_all_posts]
    whose engagement reaches the threshold, without their ids, with the
    highest engagement first and records of equal engagement in the order
    of the store. *)
Theorem high_engagement_posts_sorted
        (Embedding : Type) (self : collection Embedding)
        (posts : list post) (min_engagement : Z) :
  get_all_posts self = Ok posts ->
  let matching := map forget_id (filter (engages min_engagement) posts) in
  exists found,
    get_high_engagement_posts self min_engagement = Ok found
    /\ Permutation found matching
    /\ StronglySorted engages_no_less found
    /\ (forall e, filter (engagement_is e) found
                  = filter (engagement_is e) matching)
    /\ Forall (fun p => (min_engagement <= pp_engagement p)%Z) found.
Proof.
  intros H matching.
  exists (sorted_desc pp_engagement Z.ltb matching).
  assert (Hread : mapM (read_plain_entry (Embedding:=Embedding))
                    (collection_get_where self
                       (fun md => (min_engagement <=? md_engagement md)%Z))
                  = Ok matching).
  { apply QueryFacts.filtered_read; [|exact H].
    intros e p Hp. unfold engages.
    now rewrite (proj2 (QueryFacts.read_post_metadata _ Hp)). }
  pose proof (SortFacts.sorted_desc_perm pp_engagement Z.ltb matching) as Hperm.
  split; [|split; [|split; [|split]]].
  - unfold get_high_engagement_posts. now rewrite Hread.
  - exact Hperm.
  - apply StronglySorted_weaken with (R := before pp_engagement Z.ltb).
    + intros x y _ _. unfold before, engages_no_less. lia.
    + apply SortFacts.sorted_desc_sorted;
        [apply QueryFacts.Z_before_trans | apply QueryFacts.Z_ltb_asym].
  - intros e. apply SortFacts.sorted_desc_stable.
    intros x y _ _. unfold engagement_is, before. lia.
  - apply Forall_forall. intros p Hp.
    apply (Permutation_in _ Hperm) in Hp. unfold matching in Hp.
    apply in_map_iff in Hp. destruct Hp as [q [<- Hq]].
    apply filter_In in Hq. destruct Hq as [_ Hq].
    unfold engages in Hq. simpl. lia.
Qed.

Lemma high_engagement_posts_sorted_witness :
  let matching :=
    map forget_id (filter (engages 100) Samples.dated_posts) in
  exists found,
    get_high_engagement_posts Samples.dated_store 100 = Ok found
    /\ Permutation found matching
    /\ StronglySorted engages_no_less found
    /\ (forall e, filter (engagement_is e) found
                  = filter (engagement_is e) matching)
    /\ Forall (fun p => (100 <= pp_engagement p)%Z) found.
Proof.
  apply (@high_engagement_posts_sorted unit Samples.dated_store
           Samples.dated_posts 100%Z).
  reflexivity.
Defined.

(** After [add_post] under a fresh identifier, [get_posts_by_type] for the
    type of the new record returns what it returned before followed by the
    new record; for every other type it returns what it returned before. *)
Theorem added_post_is_listed_under_its_type
        (Embedding : Type) (encode : string -> Embedding)
        (self : collection Embedding) (listed : list plain_post)
        (uuid4 caption type asked : string) (engagement : Z)
        (hashtags : option (list string)) (date_posted : string) :
  has_id self uuid4 = false ->
  get_posts_by_type self asked = Ok listed ->
  exists self',
    add_post encode self uuid4
      {| pd_caption := Some caption; pd_type := Some type;
         pd_engagement := Some engagement; pd_hashtags := hashtags;
         pd_date_posted := Some date_posted |}
    = Ok (uuid4, self')
    /\ get_posts_by_type self' asked
       = Ok (if String.eqb type asked
             then listed
                    ++ [{| pp_caption := caption; pp_type := type;
                           pp_engagement := engagement;
                           pp_hashtags :=
                             match hashtags with Some l => l | None => [] end;
                           pp_date_posted := date_posted |}]
             else listed).
Proof.
  intros Hfresh Hlisted.
  exists (self ++ [written encode uuid4 caption type engagement hashtags
                     date_posted]).
  split.
  - rewrite StoreFacts.add_post_complete.
    now rewrite StoreFacts.collection_add_fresh.
  - unfold get_posts_by_type, collection_get_where in *.
    rewrite filter_app, mapM_app, Hlisted. cbn [bind filter].
    cbn [written e_metadata md_type].
    destruct (String.eqb type asked).
    + cbn [mapM]. rewrite QueryFacts.read_plain_written. cbn [bind].
      reflexivity.
    + cbn [mapM bind]. now rewrite app_nil_r.
Qed.

Lemma added_post_is_listed_under_its_type_witness :
  exists self',
    add_post Samples.unit_encode Samples.dated_store "p4"
      {| pd_caption := Some "Pro tip"; pd_type := Some "educational";
         pd_engagement := Some 1800%Z; pd_hashtags := None;
         pd_date_posted := Some "2024-01-07" |}
    = Ok ("p4", self')
    /\ get_posts_by_type self' "educational"
       = Ok (if String.eqb "educational" "educational"
             then []
                    ++ [{| pp_caption := "Pro tip"; pp_type := "educational";
                           pp_engagement := 1800%Z;
                           pp_hashtags := [];
                           pp_date_posted := "2024-01-07" |}]
             else []).
Proof.
  apply (@added_post_is_listed_under_its_type unit Samples.unit_encode
           Samples.dated_store [] "p4" "Pro tip" "educational" "educational"
           1800%Z None "2024-01-07"); reflexivity.
Defined.

(** On a store built from the empty index by calls of [add_post], no read
    raises: [get_all_posts] returns as many records as [get_post_count]
    counts, and [get_content_analysis], [get_recent_posts],
    [get_posts_by_type] and [get_high_engagement_posts] return a result. *)
Theorem reads_succeed_on_built_stores
        (Embedding : Type) (encode : string -> Embedding)
        (self : collection Embedding) :
  reachable encode self ->
  (exists posts,
      get_all_posts self = Ok posts /\ len posts = get_post_count self)
  /\ (exists r, get_content_analysis self = Ok r)
  /\ (forall limit, exists r, get_recent_posts self limit = Ok r)
  /\ (forall post_type, exists r, get_posts_by_type self post_type = Ok r)
  /\ (forall min_engagement,
         exists r, get_high_engagement_posts self min_engagement = Ok r).
Proof.
  intros Hreach.
  destruct (StoreFacts.reachable_readable Hreach) as [posts Hposts].
  split; [|split; [|split; [|split]]].
  - exists posts. split; [exact Hposts|].
    unfold get_post_count, collection_count, len.
    now rewrite (StoreFacts.get_all_posts_length _ Hposts).
  - unfold get_content_analysis. rewrite Hposts. cbn [bind].
    destruct posts as [|p ps]; [now exists EmptyReport|].
    destruct (AnalysisFacts.content_analysis_cons p ps) as [a [Ha _]]. eauto.
  - intros limit. unfold get_recent_posts. rewrite Hposts. cbn [bind]. eauto.
  - intros t. unfold get_posts_by_type.
    erewrite QueryFacts.filtered_read with (cp := has_type t);
      [eauto | | exact Hposts].
    intros e p Hp. unfold has_type.
    now rewrite (proj1 (QueryFacts.read_post_metadata _ Hp)).
  - intros m. unfold get_high_engagement_posts.
    erewrite QueryFacts.filtered_read with (cp := engages m);
      [cbn [bind]; eauto | | exact Hposts].
    intros e p Hp. unfold engages.
    now rewrite (proj2 (QueryFacts.read_post_metadata _ Hp)).
Qed.

Lemma reads_succeed_on_built_stores_witness :
  let self :=
    [written Samples.unit_encode "post-1" "" "promotion" (-5)%Z
       (Some ["#deal"]) "2024-01-01"] in
  (exists posts,
      get_all_posts self = Ok posts /\ len posts = get_post_count self)
  /\ (exists r, get_content_analysis self = Ok r)
  /\ (forall limit, exists r, get_recent_posts self limit = Ok r)
  /\ (forall post_type, exists r, get_posts_by_type self post_type = Ok r)
  /\ (forall min_engagement,
         exists r, get_high_engagement_posts self min_engagement = Ok r).
Proof.
  apply (@reads_succeed_on_built_stores unit Samples.unit_encode).
  apply (@reach_add unit Samples.unit_encode Samples.empty_store _ "post-1"
           "post-1" Samples.invalid_post).
  - apply reach_empty.
  - reflexivity.
Defined.

(** [get_recent_posts] returns [min(limit, count)] records for a limit
    that is not negative; a negative limit leaves out that many of the
    oldest records instead. *)
Theorem recent_posts_count
        (Embedding : Type) (self : collection Embedding)
        (posts : list post) (limit : Z) :
  get_all_posts self = Ok posts ->
  exists recent,
    get_recent_posts self limit = Ok recent
    /\ len recent
       = (if (0 <=? limit)%Z then Z.min limit (get_post_count self)
          else Z.max 0 (get_post_count self + limit))%Z
    /\ exists older,
        recent ++ older = sorted_desc p_date_posted String.ltb posts.
Proof.
  intros H. unfold get_recent_posts. rewrite H. cbn [bind].
  eexists. split; [reflexivity|].
  unfold get_post_count, collection_count.
  assert (Hlen : len (sorted_desc p_date_posted String.ltb posts) = len self).
  { unfold len. rewrite SortFacts.sorted_desc_length.
    now rewrite (StoreFacts.get_all_posts_length _ H). }
  rewrite <- Hlen. unfold slice_to.
  set (l := sorted_desc p_date_posted String.ltb posts).
  split.
  - destruct (Z.leb_spec 0 limit); unfold len; rewrite length_firstn; lia.
  - destruct (0 <=? limit)%Z; eexists; apply firstn_skipn.
Qed.

Lemma recent_posts_count_witness :
  exists recent,
    get_recent_posts Samples.dated_store (-1) = Ok recent
    /\ len recent
       = (if (0 <=? -1)%Z then Z.min (-1) (get_post_count Samples.dated_store)
          else Z.max 0 (get_post_count Samples.dated_store + -1))%Z
    /\ exists older,
        recent ++ older
        = sorted_desc p_date_posted String.ltb Samples.dated_posts.
Proof.
  apply (@recent_posts_count unit Samples.dated_store Samples.dated_posts
           (-1)%Z).
  reflexivity.
Defined.

(* ================================================================== *)
(** * Further properties of the analysis *)

Module CountFacts.
Import DictFacts AnalysisFacts.

Lemma get_default_count_up (d : dict Z) (k t : string) :
  get_default (count_up d k) t 0%Z
  = (if String.eqb t k then get_default d t 0 + 1 else get_default d t 0)%Z.
Proof.
  unfold count_up, get_default.
  destruct (String.eqb_spec t k) as [->|Hne].
  - now rewrite get_setitem_same.
  - now rewrite get_setitem_other by congruence.
Qed.

(** What the loop maintains on a dict of counts. *)
Lemma counted_count_up (d : dict Z) (k : string) :
  NoDup (keys d) /\ Forall (fun kv => (0 < snd kv)%Z) d ->
  NoDup (keys (count_up d k))
  /\ Forall (fun kv => (0 < snd kv)%Z) (count_up d k).
Proof.
  intros [Hnd Hpos]. unfold count_up. split; [now apply NoDup_setitem|].
  rewrite Forall_forall in *. intros kv Hin.
  apply In_setitem in Hin; [|exact Hnd].
  destruct Hin as [->|[Hin _]]; [|now apply Hpos].
  cbn [snd]. unfold get_default.
  destruct (get d k) as [c|] eqn:E; [|lia].
  apply get_In in E. specialize (Hpos _ E). simpl in Hpos. lia.
Qed.

Lemma sum_shift (l : list Z) :
  forall a b : Z, fold_left Z.add l (a + b)%Z = (a + fold_left Z.add l b)%Z.
Proof.
  induction l as [|x l IH]; intros a b; simpl; [reflexivity|].
  rewrite <- Z.add_assoc. apply IH.
Qed.

Lemma sum_cons (x : Z) (l : list Z) : sum (x :: l) = (x + sum l)%Z.
Proof.
  unfold sum. cbn [fold_left].
  replace (0 + x)%Z with (x + 0)%Z by lia. apply sum_shift.
Qed.

Lemma hashtag_fold_counts (e : Z) (tags : list string) :
  forall st,
    let st' := fold_left (hashtag_step e) tags st in
    type_counts st' = type_counts st
    /\ total_engagement st' = total_engagement st
    /\ hashtag_counts st' = fold_left count_up tags (hashtag_counts st).
Proof.
  induction tags as [|t tags IH]; intros st; simpl; [auto|].
  destruct (IH (hashtag_step e st t)) as (H1 & H2 & H3). simpl in *.
  now rewrite H1, H2, H3.
Qed.

Lemma post_step_counts (st : counters) (p : post) :
  type_counts (post_step st p) = count_up (type_counts st) (p_type p)
  /\ total_engagement (post_step st p)
     = (total_engagement st + p_engagement p)%Z
  /\ hashtag_counts (post_step st p)
     = fold_left count_up (p_hashtags p) (hashtag_counts st).
Proof.
  unfold post_step. cbn [type_counts total_engagement hashtag_counts].
  destruct (hashtag_fold_counts (p_engagement p) (p_hashtags p)
              {| type_counts := count_up (type_counts st) (p_type p);
                 type_engagement :=
                   append_to (type_engagement st) (p_type p) (p_engagement p);
                 hashtag_counts := hashtag_counts st;
                 hashtag_engagement := hashtag_engagement st;
                 total_engagement := total_engagement st |})
    as (-> & -> & ->).
  auto.
Qed.

Lemma counted_fold_tags (tags : list string) :
  forall d,
    NoDup (keys d) /\ Forall (fun kv => (0 < snd kv)%Z) d ->
    NoDup (keys (fold_left count_up tags d))
    /\ Forall (fun kv => (0 < snd kv)%Z) (fold_left count_up tags d).
Proof.
  induction tags as [|t tags IH]; intros d H; simpl; [exact H|].
  now apply IH, counted_count_up.
Qed.

Lemma get_default_fold_tags (t : string) (tags : list string) :
  forall d,
    get_default (fold_left count_up tags d) t 0%Z
    = (get_default d t 0 + len (filter (String.eqb t) tags))%Z.
Proof.
  induction tags as [|h tags IH]; intros d; simpl.
  - unfold len. simpl. lia.
  - rewrite IH, get_default_count_up. unfold len.
    destruct (String.eqb t h); simpl List.length; lia.
Qed.

Lemma counted_loop (posts : list post) :
  forall st,
    (NoDup (keys (type_counts st))
     /\ Forall (fun kv => (0 < snd kv)%Z) (type_counts st)) ->
    (NoDup (keys (hashtag_counts st))
     /\ Forall (fun kv => (0 < snd kv)%Z) (hashtag_counts st)) ->
    let st' := fold_left post_step posts st in
    (NoDup (keys (type_counts st'))
     /\ Forall (fun kv => (0 < snd kv)%Z) (type_counts st'))
    /\ (NoDup (keys (hashtag_counts st'))
        /\ Forall (fun kv => (0 < snd kv)%Z) (hashtag_counts st')).
Proof.
  induction posts as [|p posts IH]; intros st Ht Hh; simpl; [auto|].
  destruct (post_step_counts st p) as (E1 & _ & E3).
  apply IH.
  - rewrite E1. now apply counted_count_up.
  - rewrite E3. now apply counted_fold_tags.
Qed.

Lemma length_uses_cons (t : string) (p : post) (posts : list post) :
  len (uses t (p :: posts))
  = (len (filter (String.eqb t) (p_hashtags p)) + len (uses t posts))%Z.
Proof.
  unfold uses, len. cbn [flat_map]. rewrite length_app, length_map. lia.
Qed.

(** The counters after the loop, read off the records. *)
Lemma counts_loop (t : string) (posts : list post) :
  forall st,
    let st' := fold_left post_step posts st in
    get_default (type_counts st') t 0%Z
    = (get_default (type_counts st) t 0 + len (filter (has_type t) posts))%Z
    /\ get_default (hashtag_counts st') t 0%Z
       = (get_default (hashtag_counts st) t 0 + len (uses t posts))%Z
    /\ total_engagement st'
       = (total_engagement st + sum (map p_engagement posts))%Z
    /\ lookup (type_engagement st') t
       = lookup (type_engagement st) t ++ engagement_of_type t posts.
Proof.
  induction posts as [|p posts IH]; intros st.
  - simpl. unfold len, sum, engagement_of_type. simpl.
    rewrite app_nil_r. repeat split; lia.
  - cbn [fold_left]. cbv zeta in IH |- *.
    destruct (IH (post_step st p)) as (H1 & H2 & H3 & H4).
    destruct (post_step_counts st p) as (E1 & E2 & E3).
    rewrite H1, H2, H3, H4, E1, E2, E3.
    rewrite post_step_type_engagement, lookup_append_to.
    rewrite get_default_count_up, get_default_fold_tags, length_uses_cons.
    unfold engagement_of_type, has_type, len. cbn [filter map].
    rewrite (String.eqb_sym (p_type p) t), sum_cons.
    split; [|split; [|split]].
    + destruct (String.eqb t (p_type p)); simpl List.length; lia.
    + lia.
    + lia.
    + destruct (String.eqb t (p_type p)); simpl;
        [now rewrite <- app_assoc | reflexivity].
Qed.

End CountFacts.

Module ReportFacts.
Import DictFacts AnalysisFacts CountFacts.

Lemma mean_items_means (d : dict (list Z)) :
  populated d -> mapM mean_item d = Ok (means d).
Proof.
  unfold populated. induction d as [|[k es] d IH]; intros H; [reflexivity|].
  inversion H as [|? ? Hes Hd]; subst. cbn [mapM means map fst snd].
  unfold mean_item at 1, mean. cbn [fst snd].
  rewrite truediv_len by exact Hes. cbn [bind].
  rewrite (IH Hd). reflexivity.
Qed.

(** The report of a non-empty list of records, field by field. *)
Lemma content_analysis_fields (p : post) (ps : list post) :
  let posts := p :: ps in
  let st := fold_left post_step posts counters0 in
  content_analysis posts
  = Ok (Report
          {| total_posts := len posts;
             avg_engagement := total_engagement st # Z.to_pos (len posts);
             type_distribution := type_counts st;
             avg_engagement_by_type := means (type_engagement st);
             top_hashtags :=
               firstn 10 (sorted_desc snd Z.ltb (hashtag_counts st));
             best_performing_hashtags :=
               firstn 10
                 (sorted_desc snd Qltb
                    (means (filter used_twice (hashtag_engagement st)))) |}).
Proof.
  intros posts st. unfold content_analysis. fold posts. fold st.
  destruct (well_kept_loop posts counters0 well_kept_nil well_kept_nil)
    as [[_ Ht] [_ Hh]]. fold st in Ht, Hh.
  rewrite (mean_items_means Ht).
  rewrite (mean_items_means (populated_filter used_twice Hh)).
  unfold posts at 1. rewrite truediv_len by discriminate.
  reflexivity.
Qed.

Lemma report_eq (x y : analysis) : Report x = Report y -> x = y.
Proof. congruence. Qed.

Lemma Qmake_average (l : list Z) :
  l <> [] -> (sum l # Z.to_pos (len l) == average l)%Q.
Proof.
  intros H. unfold average. rewrite Qmake_Qdiv.
  destruct l as [|x l]; [contradiction|].
  unfold len. simpl List.length. now rewrite Z2Pos.id by lia.
Qed.

Lemma In_means (d : dict (list Z)) (t : string) (m : Q) :
  In (t, m) (means d) ->
  exists es, In (t, es) d /\ m = sum es # Z.to_pos (len es).
Proof.
  unfold means. rewrite in_map_iff. intros [[k es] [E H]].
  simpl in E. inversion E; subst. eauto.
Qed.

Lemma keys_means (d : dict (list Z)) : keys (means d) = keys d.
Proof. unfold keys, means. rewrite map_map. reflexivity. Qed.

Lemma lookup_In (d : dict (list Z)) (t : string) (es : list Z) :
  NoDup (keys d) -> In (t, es) d -> lookup d t = es.
Proof.
  intros Hnd Hin. unfold lookup, get_default.
  now rewrite (@In_get _ _ _ _ Hnd Hin).
Qed.

Lemma In_lookup (d : dict (list Z)) (t : string) :
  lookup d t <> [] -> In (t, lookup d t) d.
Proof.
  unfold lookup, get_default. destruct (get d t) as [es|] eqn:E; [|tauto].
  intros _. now apply get_In.
Qed.

Lemma In_count (d : dict Z) (t : string) :
  get_default d t 0%Z <> 0%Z -> In (t, get_default d t 0%Z) d.
Proof.
  unfold get_default. destruct (get d t) as [c|] eqn:E; [|tauto].
  intros _. now apply get_In.
Qed.

Lemma count_In (d : dict Z) (t : string) (c : Z) :
  NoDup (keys d) -> In (t, c) d -> get_default d t 0%Z = c.
Proof.
  intros Hnd Hin. unfold get_default.
  now rewrite (@In_get _ _ _ _ Hnd Hin).
Qed.

Lemma StronglySorted_app_cross (A : Type) (R : A -> A -> Prop)
      (l1 l2 : list A) :
  StronglySorted R (l1 ++ l2) ->
  forall x y, In x l1 -> In y l2 -> R x y.
Proof.
  induction l1 as [|a l1 IH]; intros Hs x y Hx Hy; [destruct Hx|].
  simpl in Hs. inversion Hs as [|? ? Hl Ha]; subst.
  destruct Hx as [<-|Hx]; [|now apply IH].
  rewrite Forall_forall in Ha. apply Ha, in_or_app. now right.
Qed.

(** An entry kept by [[:n]] of a sorted list stands before every entry
    that is left out. *)
Lemma firstn_sorted_cross (A : Type) (R : A -> A -> Prop) (n : nat)
      (l : list A) (x y : A) :
  StronglySorted R l -> In x (firstn n l) -> In y l ->
  In y (firstn n l) \/ R x y.
Proof.
  intros Hs Hx Hy. rewrite <- (firstn_skipn n l) in Hs, Hy.
  apply in_app_or in Hy. destruct Hy as [Hy|Hy]; [now left | right].
  now apply (@StronglySorted_app_cross _ _ _ _ Hs).
Qed.

Lemma StronglySorted_firstn (A : Type) (R : A -> A -> Prop) (n : nat)
      (l : list A) :
  StronglySorted R l -> StronglySorted R (firstn n l).
Proof.
  revert l. induction n as [|n IH]; intros [|a l] Hs; simpl;
    try constructor.
  - inversion Hs; subst. now apply IH.
  - inversion Hs as [|? ? _ Ha]; subst.
    rewrite Forall_forall in Ha |- *. intros y Hy. apply Ha.
    now apply In_firstn in Hy.
Qed.

Lemma NoDup_firstn (A : Type) (n : nat) (l : list A) :
  NoDup l -> NoDup (firstn n l).
Proof.
  revert l. induction n as [|n IH]; intros [|a l] H; simpl; try constructor.
  - inversion H; subst. intros Hin. now apply In_firstn in Hin.
  - inversion H; subst. now apply IH.
Qed.

Lemma Q_before_trans (x y z : Q) :
  Qltb x y = false -> Qltb y z = false -> Qltb x z = false.
Proof.
  unfold Qltb. rewrite !Bool.negb_false_iff, !Qle_bool_iff.
  intros Hxy Hyz. now apply Qle_trans with y.
Qed.

Lemma Q_ltb_asym (x y : Q) : Qltb x y = true -> Qltb y x = false.
Proof.
  unfold Qltb. rewrite Bool.negb_false_iff, Bool.negb_true_iff,
    <- Bool.not_true_iff_false, !Qle_bool_iff.
  intros H. apply Qlt_le_weak. now apply Qnot_le_lt.
Qed.

End ReportFacts.

Import DictFacts CountFacts ReportFacts.

(** In the report of a non-empty store, [total_posts] is the number of
    records, [avg_engagement] is the mean of their engagement, and
    [type_distribution] maps exactly the types that occur, each once, to
    the number of records of the type. *)
Theorem analysis_totals_and_distribution
        (posts : list post) (a : analysis) :
  content_analysis posts = Ok (Report a) ->
  total_posts a = len posts
  /\ (avg_engagement a == average (map p_engagement posts))%Q
  /\ NoDup (keys (type_distribution a))
  /\ forall t c,
      In (t, c) (type_distribution a)
      <-> c = len (filter (has_type t) posts) /\ (0 < c)%Z.
Proof.
  intros H. destruct posts as [|p ps]; [discriminate|].
  rewrite content_analysis_fields in H.
  apply DateFacts.ok_eq, report_eq in H. subst a. cbn [total_posts avg_engagement type_distribution].
  set (posts := p :: ps). set (st := fold_left post_step posts counters0).
  destruct (counted_loop posts counters0) as [[Hnd Hpos] _];
    [split; constructor | split; constructor |]. fold st in Hnd, Hpos.
  assert (Hcount : forall t, get_default (type_counts st) t 0%Z
                             = len (filter (has_type t) posts)).
  { intros t. destruct (counts_loop t posts counters0) as (H1 & _).
    fold st in H1. rewrite H1. reflexivity. }
  split; [reflexivity|]. split; [|split; [exact Hnd|]].
  - destruct (counts_loop "" posts counters0) as (_ & _ & H3 & _).
    fold st in H3. rewrite H3. cbn [total_engagement counters0].
    rewrite Z.add_0_l. 
    assert (Hl : len posts = len (map p_engagement posts))
      by (unfold len; now rewrite length_map).
    rewrite Hl. apply Qmake_average. discriminate.
  - intros t c. split.
    + intros Hin. rewrite <- Hcount, (@count_In _ _ _ Hnd Hin).
      split; [reflexivity|].
      rewrite Forall_forall in Hpos. apply (Hpos _ Hin).
    + intros [-> Hc]. rewrite <- Hcount. apply In_count.
      rewrite Hcount. lia.
Qed.

Lemma analysis_totals_and_distribution_witness :
  total_posts Samples.rare_and_common_report = len Samples.rare_and_common
  /\ (avg_engagement Samples.rare_and_common_report
      == average (map p_engagement Samples.rare_and_common))%Q
  /\ NoDup (keys (type_distribution Samples.rare_and_common_report))
  /\ forall t c,
      In (t, c) (type_distribution Samples.rare_and_common_report)
      <-> c = len (filter (has_type t) Samples.rare_and_common) /\ (0 < c)%Z.
Proof.
  apply (@analysis_totals_and_distribution Samples.rare_and_common
           Samples.rare_and_common_report).
  reflexivity.
Defined.

(** In the report of a non-empty store, [avg_engagement_by_type] has one
    entry for every type that occurs and no other, and the entry of a type
    is the mean engagement of the records of the type. *)
Theorem average_engagement_by_type
        (posts : list post) (a : analysis) :
  content_analysis posts = Ok (Report a) ->
  NoDup (keys (avg_engagement_by_type a))
  /\ (forall t,
         In t (keys (avg_engagement_by_type a)) <-> In t (map p_type posts))
  /\ forall t m,
      In (t, m) (avg_engagement_by_type a) ->
      (m == average (engagement_of_type t posts))%Q.
Proof.
  intros H. destruct posts as [|p ps]; [discriminate|].
  rewrite content_analysis_fields in H.
  apply DateFacts.ok_eq, report_eq in H. subst a.
  cbn [avg_engagement_by_type].
  set (posts := p :: ps). set (st := fold_left post_step posts counters0).
  destruct (AnalysisFacts.well_kept_loop posts counters0
              AnalysisFacts.well_kept_nil AnalysisFacts.well_kept_nil)
    as [[Hnd Hpop] _]. fold st in Hnd, Hpop.
  assert (Hlook : forall t, lookup (type_engagement st) t
                            = engagement_of_type t posts).
  { intros t. destruct (counts_loop t posts counters0) as (_ & _ & _ & H4).
    fold st in H4. rewrite H4. reflexivity. }
  split; [now rewrite keys_means|]. split.
  - intros t. rewrite keys_means. split.
    + intros Hin. unfold keys in Hin. apply in_map_iff in Hin.
      destruct Hin as [[k es] [E Hin]]. simpl in E. subst k.
      pose proof (@lookup_In _ _ _ Hnd Hin) as El. rewrite Hlook in El.
      unfold populated in Hpop. rewrite Forall_forall in Hpop.
      specialize (Hpop _ Hin). simpl in Hpop. subst es.
      unfold engagement_of_type in Hpop.
      destruct (filter (has_type t) posts) as [|q qs] eqn:Ef; [now elim Hpop|].
      assert (Hq : In q (filter (has_type t) posts)) by (rewrite Ef; now left).
      apply filter_In in Hq. destruct Hq as [Hq Ht].
      unfold has_type in Ht. apply String.eqb_eq in Ht. subst t.
      now apply in_map.
    + intros Hin. apply in_map_iff in Hin. destruct Hin as [q [<- Hq]].
      assert (Hne : lookup (type_engagement st) (p_type q) <> []).
      { rewrite Hlook. unfold engagement_of_type.
        assert (Hf : In q (filter (has_type (p_type q)) posts)).
        { apply filter_In. split; [exact Hq|]. apply String.eqb_refl. }
        destruct (filter (has_type (p_type q)) posts); [destruct Hf|].
        discriminate. }
      apply In_lookup in Hne. unfold keys.
      change (p_type q)
        with (fst (p_type q, lookup (type_engagement st) (p_type q))).
      now apply in_map.
  - intros t m Hin. apply In_means in Hin. destruct Hin as [es [Hin ->]].
    pose proof (@lookup_In _ _ _ Hnd Hin) as El. rewrite Hlook in El.
    unfold populated in Hpop. rewrite Forall_forall in Hpop.
    specialize (Hpop _ Hin). simpl in Hpop. subst es.
    now apply Qmake_average.
Qed.

Lemma average_engagement_by_type_witness :
  NoDup (keys (avg_engagement_by_type Samples.rare_and_common_report))
  /\ (forall t,
         In t (keys (avg_engagement_by_type Samples.rare_and_common_report))
         <-> In t (map p_type Samples.rare_and_common))
  /\ forall t m,
      In (t, m) (avg_engagement_by_type Samples.rare_and_common_report) ->
      (m == average (engagement_of_type t Samples.rare_and_common))%Q.
Proof.
  apply (@average_engagement_by_type Samples.rare_and_common
           Samples.rare_and_common_report).
  reflexivity.
Defined.

Module RankFacts.

Lemma keys_firstn (V : Type) (n : nat) (d : dict V) :
  keys (firstn n d) = firstn n (keys d).
Proof. unfold keys. symmetry. apply firstn_map. Qed.

Lemma NoDup_keys_sorted (V K : Type) (key : string * V -> K)
      (ltb : K -> K -> bool) (n : nat) (d : dict V) :
  NoDup (keys d) -> NoDup (keys (firstn n (sorted_desc key ltb d))).
Proof.
  intros H. rewrite keys_firstn. apply NoDup_firstn.
  eapply Permutation_NoDup; [|exact H].
  unfold keys. apply Permutation_map, Permutation_sym,
    SortFacts.sorted_desc_perm.
Qed.

Lemma In_keys (V : Type) (d : dict V) (t : string) (v : V) :
  In (t, v) d -> In t (keys d).
Proof. intros H. unfold keys. change t with (fst (t, v)). now apply in_map. Qed.

(** A key left out by [[:n]] of the sorted items: either all items are
    kept, or its item stands after every item kept. *)
Lemma left_out (V K : Type) (key : string * V -> K) (ltb : K -> K -> bool)
      (n : nat) (d : dict V) (t t' : string) (v v' : V) :
  (forall x y z : K, ltb x y = false -> ltb y z = false -> ltb x z = false) ->
  (forall x y : K, ltb x y = true -> ltb y x = false) ->
  In (t, v) (firstn n (sorted_desc key ltb d)) ->
  In (t', v') d ->
  ~ In t' (keys (firstn n (sorted_desc key ltb d))) ->
  before key ltb (t, v) (t', v')
  /\ List.length (firstn n (sorted_desc key ltb d)) = n.
Proof.
  intros Htrans Hasym Hin Hin' Hout.
  pose proof (SortFacts.sorted_desc_sorted key ltb Htrans Hasym d) as Hs.
  pose proof (SortFacts.sorted_desc_perm key ltb d) as Hp.
  apply (Permutation_in _ (Permutation_sym Hp)) in Hin'.
  split.
  - destruct (@ReportFacts.firstn_sorted_cross _ _ n _ _ _ Hs Hin Hin')
      as [H|H]; [|exact H].
    elim Hout. now apply In_keys in H.
  - rewrite length_firstn. apply Nat.min_l.
    destruct (Nat.le_gt_cases n (List.length (sorted_desc key ltb d)))
      as [H|H]; [exact H|].
    elim Hout. rewrite firstn_all2 by lia. now apply In_keys in Hin'.
Qed.

End RankFacts.



(** [best_performing_hashtags] holds at most 10 tags, each once, the
    highest mean engagement first; a tag with two uses or more that is
    left out has no higher mean than any tag that is listed, and then 10
    tags are listed. *)
Theorem best_hashtags_are_the_best_on_average
        (posts : list post) (a : analysis) :
  content_analysis posts = Ok (Report a) ->
  (List.length (best_performing_hashtags a) <= 10)%nat
  /\ NoDup (keys (best_performing_hashtags a))
  /\ StronglySorted averages_no_less (best_performing_hashtags a)
  /\ (forall t m t',
         In (t, m) (best_performing_hashtags a) ->
         (2 <= len (uses t' posts))%Z ->
         ~ In t' (keys (best_performing_hashtags a)) ->
         (average (uses t' posts) <= m)%Q
         /\ List.length (best_performing_hashtags a) = 10%nat)
  /\ ((List.length (best_performing_hashtags a) < 10)%nat ->
      forall t',
        (2 <= len (uses t' posts))%Z ->
        In t' (keys (best_performing_hashtags a))).
Proof.
  intros H. destruct posts as [|p ps]; [discriminate|].
  rewrite content_analysis_fields in H.
  apply DateFacts.ok_eq, report_eq in H. subst a.
  cbn [best_performing_hashtags].
  set (posts := p :: ps). set (st := fold_left post_step posts counters0).
  destruct (AnalysisFacts.well_kept_loop posts counters0
              AnalysisFacts.well_kept_nil AnalysisFacts.well_kept_nil)
    as [_ [Hnd Hpop]]. fold st in Hnd, Hpop.
  assert (Hlook : forall t, lookup (hashtag_engagement st) t = uses t posts).
  { intros t. pose proof (AnalysisFacts.lookup_loop t posts counters0) as E.
    fold st in E. rewrite E. reflexivity. }
  set (d := filter used_twice (hashtag_engagement st)).
  assert (Hndd : NoDup (keys (means d))).
  { rewrite keys_means. unfold keys, d.
    assert (F : forall l : dict (list Z),
               NoDup (map fst l) -> NoDup (map fst (filter used_twice l))).
    { induction l as [|x l IH]; intros Hl; [constructor|].
      inversion Hl as [|? ? Hx Hl']; subst. cbn [filter].
      destruct (used_twice x); [|now apply IH].
      cbn [map]. constructor; [|now apply IH].
      intros Hin. apply Hx. apply in_map_iff in Hin.
      destruct Hin as [y [E Hy]]. apply filter_In in Hy.
      rewrite <- E. apply in_map. tauto. }
    now apply F. }
  assert (Hmem : forall t', (2 <= len (uses t' posts))%Z ->
                            In (t', sum (uses t' posts)
                                    # Z.to_pos (len (uses t' posts)))
                               (means d)).
  { intros t' Hlen.
    assert (Hne : lookup (hashtag_engagement st) t' <> []).
    { rewrite Hlook. destruct (uses t' posts); [|discriminate].
      unfold len in Hlen. simpl in Hlen. lia. }
    apply In_lookup in Hne. rewrite Hlook in Hne.
    unfold means. apply in_map_iff.
    exists (t', uses t' posts). split; [reflexivity|].
    apply filter_In. split; [exact Hne|].
    unfold used_twice. cbn [snd]. now apply Z.leb_le. }
  assert (Hcross : forall t m t',
             In (t, m) (firstn 10 (sorted_desc snd Qltb (means d))) ->
             (2 <= len (uses t' posts))%Z ->
             ~ In t' (keys (firstn 10 (sorted_desc snd Qltb (means d)))) ->
             (average (uses t' posts) <= m)%Q
             /\ List.length (firstn 10 (sorted_desc snd Qltb (means d)))
                = 10%nat).
  { intros t m t' Hin Hlen Hout.
    destruct (@RankFacts.left_out _ _ snd Qltb 10 _ _ _ _ _
                Q_before_trans Q_ltb_asym Hin (Hmem t' Hlen) Hout)
      as [Hb Hl].
    split; [|exact Hl].
    unfold before, Qltb in Hb. cbn [snd] in Hb.
    apply Bool.negb_false_iff, Qle_bool_iff in Hb.
    rewrite <- Qmake_average; [exact Hb|].
    destruct (uses t' posts); [|discriminate].
    unfold len in Hlen. simpl in Hlen. lia. }
  split; [apply firstn_le_length|]. split; [|split; [|split]].
  - now apply RankFacts.NoDup_keys_sorted.
  - apply StronglySorted_firstn.
    apply StronglySorted_weaken with (R := before snd Qltb).
    + intros x y _ _. unfold before, averages_no_less, Qltb.
      intros Hb. now apply Bool.negb_false_iff, Qle_bool_iff in Hb.
    + apply SortFacts.sorted_desc_sorted;
        [apply Q_before_trans | apply Q_ltb_asym].
  - exact Hcross.
  - intros Hshort t' Hlen.
    rewrite length_firstn in Hshort.
    rewrite firstn_all2 by lia.
    eapply Permutation_in;
      [apply Permutation_map, Permutation_sym, SortFacts.sorted_desc_perm|].
    exact (RankFacts.In_keys _ _ _ (Hmem t' Hlen)).
Qed.

Lemma best_hashtags_are_the_best_on_average_witness :
  (List.length (best_performing_hashtags Samples.rare_and_common_report)
   <= 10)%nat
  /\ NoDup (keys (best_performing_hashtags Samples.rare_and_common_report))
  /\ StronglySorted averages_no_less
       (best_performing_hashtags Samples.rare_and_common_report)
  /\ (forall t m t',
         In (t, m) (best_performing_hashtags Samples.rare_and_common_report) ->
         (2 <= len (uses t' Samples.rare_and_common))%Z ->
         ~ In t' (keys (best_performing_hashtags
                          Samples.rare_and_common_report)) ->
         (average (uses t' Samples.rare_and_common) <= m)%Q
         /\ List.length (best_performing_hashtags
                           Samples.rare_and_common_report) = 10%nat)
  /\ ((List.length (best_performing_hashtags Samples.rare_and_common_report)
       < 10)%nat ->
      forall t',
        (2 <= len (uses t' Samples.rare_and_common))%Z ->
        In t' (keys (best_performing_hashtags
                       Samples.rare_and_common_report))).
Proof.
  apply (@best_hashtags_are_the_best_on_average Samples.rare_and_common
           Samples.rare_and_common_report).
  reflexivity.
Defined.

(* ================================================================== *)
(** * The similarity search *)

Module SimilarFacts.

Lemma skipn_cons_nth (A : Type) (k : nat) :
  forall (l t : list A) (x : A),
    skipn k l = x :: t -> nth_error l k = Some x /\ skipn (S k) l = t.
Proof.
  induction k as [|k IH]; intros l t x H.
  - simpl in H. subst l. auto.
  - destruct l as [|y l]; [discriminate|]. simpl in H.
    destruct (IH _ _ _ H) as [H1 H2]. auto.
Qed.

Lemma getindex_nth (A : Type) (l : list A) (k : nat) (x : A) :
  nth_error l k = Some x -> getindex l k = Ok x.
Proof. unfold getindex. now intros ->. Qed.

Lemma similar_rows (results : query_result)
      (docs : list string) (mds : list metadata) (ds : list Q)
      (om : list (list metadata)) (od : list (list Q)) :
  qr_metadatas results = mds :: om ->
  qr_distances results = ds :: od ->
  forall (docs' : list string) (k : nat) (mds' : list metadata)
         (ds' : list Q) (posts : list plain_post),
    skipn k docs = docs' -> skipn k mds = mds' -> skipn k ds = ds' ->
    List.length mds' = List.length docs' ->
    List.length ds' = List.length docs' ->
    read_rows docs' mds' = Ok posts ->
    mapM (similar_at results docs) (seq k (List.length docs'))
    = Ok (combine posts (map similarity ds')).
Proof.
  intros Hm Hd. induction docs' as [|x docs' IH];
    intros k mds' ds' posts Sd Sm Ss Lm Ls Hread.
  - destruct mds'; [|discriminate]. unfold read_rows in Hread. simpl in Hread.
    apply DateFacts.ok_eq in Hread. now subst posts.
  - destruct mds' as [|md mds']; [discriminate|].
    destruct ds' as [|d ds']; [discriminate|].
    simpl in Lm, Ls.
    destruct (skipn_cons_nth _ _ Sd) as [Nd Sd'].
    destruct (skipn_cons_nth _ _ Sm) as [Nm Sm'].
    destruct (skipn_cons_nth _ _ Ss) as [Ns Ss'].
    unfold read_rows in Hread. cbn [combine mapM fst snd] in Hread.
    destruct (read_plain_post x md) as [p|e] eqn:Hp; cbn [bind] in Hread;
      [|discriminate].
    destruct (mapM (fun row => read_plain_post (fst row) (snd row))
                (combine docs' mds')) as [ps|e] eqn:Hps;
      cbn [bind] in Hread; [|discriminate].
    apply DateFacts.ok_eq in Hread. subst posts.
    cbn [List.length seq mapM].
    unfold similar_at at 1.
    rewrite (getindex_nth _ _ Nd). cbn [bind].
    rewrite Hm. cbn [getindex nth_error bind].
    rewrite (getindex_nth _ _ Nm). cbn [bind]. rewrite Hp. cbn [bind].
    rewrite Hd. cbn [getindex nth_error bind].
    rewrite (getindex_nth _ _ Ns). cbn [bind].
    rewrite (IH (S k) mds' ds' ps Sd' Sm' Ss'); try lia; [|exact Hps].
    reflexivity.
Qed.

Lemma combine_sorted (ds : list Q) :
  forall posts : list plain_post,
    StronglySorted Qle ds ->
    StronglySorted scores_no_less (combine posts (map similarity ds)).
Proof.
  induction ds as [|d ds IH]; intros posts Hs.
  - destruct posts; constructor.
  - destruct posts as [|p posts]; [constructor|].
    inversion Hs as [|? ? Hds Hd]; subst. cbn [map combine].
    constructor; [now apply IH|].
    apply Forall_forall. intros [q s] Hin.
    apply in_combine_r in Hin. apply in_map_iff in Hin.
    destruct Hin as [d' [<- Hd']].
    rewrite Forall_forall in Hd. specialize (Hd _ Hd').
    unfold scores_no_less, similarity. cbn [snd].
    apply Qplus_le_r. now apply Qopp_le_compat.
Qed.

End SimilarFacts.

(** When the index answers a query with a row of documents, a row of
    metadata and a row of distances of the same length,
    [search_similar_content] returns one pair per document, in the order
    of the index: the record read from the document and its metadata, and
    the score [1 - distance].  Distances in ascending order give scores in
    descending order. *)
Theorem similar_content_follows_the_index
        (Embedding : Type) (encode : string -> Embedding)
        (collection_query :
           collection Embedding -> Embedding -> Z -> query_result)
        (self : collection Embedding) (query : string) (limit : Z)
        (docs : list string) (mds : list metadata) (ds : list Q)
        (posts : list plain_post) :
  let results := collection_query self (encode query) limit in
  qr_documents results = [docs] ->
  qr_metadatas results = [mds] ->
  qr_distances results = [ds] ->
  List.length mds = List.length docs ->
  List.length ds = List.length docs ->
  read_rows docs mds = Ok posts ->
  search_similar_content encode collection_query self query limit
  = Ok (combine posts (map similarity ds))
  /\ List.length (combine posts (map similarity ds)) = List.length docs
  /\ (StronglySorted Qle ds ->
      StronglySorted scores_no_less (combine posts (map similarity ds))).
Proof.
  intros results Hdocs Hmds Hds Lm Ls Hread.
  split; [|split].
  - unfold search_similar_content, similar_posts_of. fold results.
    rewrite Hdocs. destruct docs as [|x docs'].
    + destruct mds; [|discriminate]. unfold read_rows in Hread.
      simpl in Hread. apply DateFacts.ok_eq in Hread. now subst posts.
    + apply (@SimilarFacts.similar_rows results (x :: docs') mds ds [] []
               Hmds Hds (x :: docs') 0%nat mds ds posts); auto.
  - rewrite length_combine, length_map, Ls.
    unfold read_rows in Hread. apply mapM_length in Hread.
    rewrite Hread, length_combine, Lm. lia.
  - apply SimilarFacts.combine_sorted.
Qed.

Lemma similar_content_follows_the_index_witness :
  search_similar_content Samples.unit_encode Samples.two_neighbours
    Samples.empty_store "clean windows" 5
  = Ok (combine [Samples.plain "near"; Samples.plain "far"]
          (map similarity [1 # 4; 1 # 2]))
  /\ List.length (combine [Samples.plain "near"; Samples.plain "far"]
                    (map similarity [1 # 4; 1 # 2]))
     = List.length ["near"; "far"]
  /\ (StronglySorted Qle [1 # 4; 1 # 2] ->
      StronglySorted scores_no_less
        (combine [Samples.plain "near"; Samples.plain "far"]
           (map similarity [1 # 4; 1 # 2]))).
Proof.
  apply (@similar_content_follows_the_index unit Samples.unit_encode
           Samples.two_neighbours Samples.empty_store "clean windows" 5%Z
           ["near"; "far"]
           [Samples.plain_metadata; Samples.plain_metadata]
           [1 # 4; 1 # 2]
           [Samples.plain "near"; Samples.plain "far"]);
    reflexivity.
Defined.

(* ================================================================== *)
(** * Further properties of the extractor *)

Module ReportTextFacts.
Import PyStr.

Lemma length_app (a b : string) :
  String.length (a ++ b)%string = (String.length a + String.length b)%nat.
Proof. induction a as [|c a IH]; simpl; [reflexivity | now rewrite IH]. Qed.

Lemma prefix_app (x b : string) : prefix x (x ++ b)%string = true.
Proof.
  induction x as [|c x IH]; simpl; [now destruct b|].
  destruct (ascii_dec c c); [exact IH | congruence].
Qed.

Lemma contains_here (x b : string) : contains x (x ++ b)%string = true.
Proof.
  destruct x as [|c x]; [now destruct b|].
  cbn [append contains].
  change (String c (x ++ b)%string) with (String c x ++ b)%string.
  now rewrite prefix_app.
Qed.

Lemma contains_after (x a s : string) :
  contains x s = true -> contains x (a ++ s)%string = true.
Proof.
  intros H. induction a as [|c a IH]; [exact H|].
  cbn [append contains]. rewrite IH. apply Bool.orb_true_r.
Qed.

Lemma contains_nonempty (x s : string) :
  x <> EmptyString -> contains x s = true -> truthy s = true.
Proof.
  intros Hx H. destruct s; [|reflexivity].
  destruct x; [now elim Hx | discriminate].
Qed.

Lemma upper_nonempty (s : string) : truthy (upper s) = truthy s.
Proof. now destruct s. Qed.

Lemma clip_length (s : string) : (String.length (clip s) <= 503)%nat.
Proof.
  unfold clip. destruct (Nat.ltb_spec 500 (String.length s)) as [H|H]; [|lia].
  rewrite length_app, ExtractFacts.length_take by lia. simpl. lia.
Qed.

End ReportTextFacts.

(** A turn of the coordinator that ends the conversation by the
    termination test is the turn that the extractor takes as the final
    recommendation when it is the last turn of the transcript, and the
    report then has the section of the coordinated strategy. *)
Theorem terminating_turn_is_extracted
        (earlier : list message) (msg : message) :
  get_str (name msg) = "content_coordinator" ->
  is_termination_msg msg = true ->
  final_recommendation_of (earlier ++ [msg]) = text msg
  /\ PyStr.contains strategy_heading
       (_extract_recommendations
          {| chat_history := Some (earlier ++ [msg]) |}) = true.
Proof.
  intros Hname Hterm.
  assert (Hfinal : is_final msg = true).
  { unfold is_final. rewrite Hname. exact Hterm. }
  assert (Htext : final_recommendation_of (earlier ++ [msg]) = text msg).
  { apply StrategyFacts.final_recommendation_last; [exact Hfinal|].
    intros m []. }
  split; [exact Htext|].
  rewrite ExtractFacts.extract_recommendations_layout. cbv zeta.
  rewrite Htext.
  assert (Htruthy : PyStr.truthy (text msg) = true).
  { rewrite <- ReportTextFacts.upper_nonempty.
    apply ReportTextFacts.contains_nonempty with (x := marker);
      [discriminate | exact Hterm]. }
  rewrite Htruthy. unfold block, strategy_heading.
  do 5 apply ReportTextFacts.contains_after.
  rewrite string_app_assoc. apply ReportTextFacts.contains_here.
Qed.

Lemma terminating_turn_is_extracted_witness :
  final_recommendation_of
    ([Samples.turn "story_specialist" "ok"]
       ++ [Samples.turn "content_coordinator"
             "final recommendation: post a reel"])
  = text (Samples.turn "content_coordinator"
            "final recommendation: post a reel")
  /\ PyStr.contains strategy_heading
       (_extract_recommendations
          {| chat_history :=
               Some ([Samples.turn "story_specialist" "ok"]
                       ++ [Samples.turn "content_coordinator"
                             "final recommendation: post a reel"]) |})
     = true.
Proof.
  apply (terminating_turn_is_extracted
           [Samples.turn "story_specialist" "ok"]
           (Samples.turn "content_coordinator"
              "final recommendation: post a reel"));
    reflexivity.
Defined.

(** The report is the banner, then the sections of the coordinated
    strategy, of the story and of the feed post, in this order and each
    one exactly when its text is not empty, then the closing line.  The
    text of a specialist has at most 503 characters.  A chat result
    without a history gives the report of the empty transcript, and no
    turn makes the extractor fail, whatever keys it lacks. *)
Theorem report_sections_in_order :
  (forall all_messages : list message,
      let final_recommendation := final_recommendation_of all_messages in
      let story_rec := shown "story_specialist" all_messages in
      let feed_rec := shown "feed_specialist" all_messages in
      _extract_recommendations {| chat_history := Some all_messages |}
      = (banner ++ PyStr.newline ++ PyStr.repeat "=" 50
           ++ PyStr.newline ++ PyStr.newline
           ++ (if PyStr.truthy final_recommendation
               then block strategy_heading
                      (coordinated_text final_recommendation)
               else "")
           ++ (if PyStr.truthy story_rec
               then block " STORY RECOMMENDATION:" story_rec else "")
           ++ (if PyStr.truthy feed_rec
               then block " FEED POST RECOMMENDATION:" feed_rec else "")
           ++ " Ready to create your next posts!")%string
      /\ (String.length story_rec <= 503)%nat
      /\ (String.length feed_rec <= 503)%nat)
  /\ _extract_recommendations {| chat_history := None |}
     = _extract_recommendations {| chat_history := Some [] |}
  /\ _extract_recommendations {| chat_history := Some [] |}
     = (banner ++ PyStr.newline ++ PyStr.repeat "=" 50
          ++ PyStr.newline ++ PyStr.newline
          ++ " Ready to create your next posts!")%string.
Proof.
  split; [|split; reflexivity].
  intros all_messages. cbv zeta. split.
  - apply ExtractFacts.extract_recommendations_layout.
  - unfold shown. split.
    + destruct (last_turn "story_specialist" all_messages);
        [apply ReportTextFacts.clip_length | simpl; lia].
    + destruct (last_turn "feed_specialist" all_messages);
        [apply ReportTextFacts.clip_length | simpl; lia].
Qed.

(* ================================================================== *)
(** * Further properties of the content gaps *)

Module GapCountFacts.

Lemma list_sum_zero (A : Type) (ks : list A) :
  list_sum (map (fun _ => 0%nat) ks) = 0%nat.
Proof. induction ks as [|k ks IH]; simpl; [reflexivity | exact IH]. Qed.

Lemma list_sum_add (A : Type) (f g : A -> nat) (ks : list A) :
  list_sum (map (fun k => (f k + g k)%nat) ks)
  = (list_sum (map f ks) + list_sum (map g ks))%nat.
Proof. induction ks as [|k ks IH]; simpl; [reflexivity | rewrite IH; lia]. Qed.

Lemma list_sum_one (x : string) (ks : list string) :
  NoDup ks ->
  list_sum (map (fun k => if string_dec x k then 1%nat else 0%nat) ks)
  = if in_dec string_dec x ks then 1%nat else 0%nat.
Proof.
  assert (Hc : forall (a : nat) (l : list nat),
             list_sum (a :: l) = (a + list_sum l)%nat) by reflexivity.
  induction 1 as [|k ks Hk Hnd IH]; [reflexivity|].
  cbn [map]. rewrite Hc, IH.
  destruct (string_dec x k) as [->|Hne].
  - destruct (in_dec string_dec k ks); [contradiction|].
    destruct (in_dec string_dec k (k :: ks)) as [_|Hn];
      [reflexivity | elim Hn; now left].
  - destruct (in_dec string_dec x ks) as [Hi|Hi];
      destruct (in_dec string_dec x (k :: ks)) as [Hj|Hj]; try reflexivity.
    + elim Hj. now right.
    + destruct Hj as [E|Hj]; [congruence | contradiction].
Qed.

(** The occurrences of the distinct elements add up to the length. *)
Lemma sum_of_counts (l ks : list string) :
  NoDup ks -> (forall x, In x l -> In x ks) ->
  list_sum (map (count_occ string_dec l) ks) = List.length l.
Proof.
  intros Hnd. induction l as [|x l IH]; intros Hin.
  - apply list_sum_zero.
  - assert (E : map (count_occ string_dec (x :: l)) ks
                = map (fun k => ((if string_dec x k then 1 else 0)
                                 + count_occ string_dec l k)%nat) ks).
    { apply map_ext. intros k. cbn [count_occ].
      now destruct (string_dec x k). }
    rewrite E.
    rewrite (list_sum_add
               (fun k => if string_dec x k then 1%nat else 0%nat)
               (count_occ string_dec l)).
    rewrite (list_sum_one x Hnd).
    rewrite IH by (intros y Hy; apply Hin; now right).
    destruct (in_dec string_dec x ks) as [_|Hn]; [reflexivity|].
    elim Hn. apply Hin. now left.
Qed.

Lemma list_sum_filter (f : string * nat -> bool) (d : list (string * nat)) :
  (list_sum (map snd (filter f d)) <= list_sum (map snd d))%nat.
Proof.
  induction d as [|x d IH]; simpl; [lia|].
  destruct (f x); simpl; lia.
Qed.

Lemma list_sum_at_least (n : nat) (d : list (string * nat)) :
  Forall (fun x => (n <= snd x)%nat) d ->
  (n * List.length d <= list_sum (map snd d))%nat.
Proof. induction 1 as [|x d Hx _ IH]; simpl; lia. Qed.

Lemma NoDup_keys_filter (V : Type) (f : string * V -> bool)
      (d : list (string * V)) :
  NoDup (map fst d) -> NoDup (map fst (filter f d)).
Proof.
  induction d as [|x d IH]; intros H; [constructor|].
  inversion H as [|? ? Hx Hd]; subst. cbn [filter].
  destruct (f x); [|now apply IH].
  cbn [map]. constructor; [|now apply IH].
  intros Hin. apply Hx. apply in_map_iff in Hin.
  destruct Hin as [y [E Hy]]. apply filter_In in Hy.
  rewrite <- E. apply in_map. tauto.
Qed.

End GapCountFacts.

(** In the report of [_analyze_content_gaps], the counts of
    [recent_content_mix] add up to the number of records looked at, which
    is at most 7; so at most 2 types are overused; no type is both missing
    and overused, and neither list names a type twice. *)
Theorem content_gaps_counts (p : post) (ps : list post) :
  exists mix missing overused,
    _analyze_content_gaps (p :: ps) = GapReport mix missing overused
    /\ list_sum (map snd mix) = List.length (window (p :: ps))
    /\ List.length (window (p :: ps))
       = Nat.min 7 (List.length (p :: ps))
    /\ (List.length overused <= 2)%nat
    /\ (forall t, In t missing -> ~ In t overused)
    /\ NoDup missing
    /\ NoDup overused.
Proof.
  unfold _analyze_content_gaps. fold (window (p :: ps)).
  set (l := window (p :: ps)).
  set (mix := map (fun t => (t, count_occ string_dec l t)) (set l)).
  eexists. eexists. eexists. split; [reflexivity|].
  assert (Hsum : list_sum (map snd mix) = List.length l).
  { unfold mix. rewrite map_map. cbn [snd].
    apply GapCountFacts.sum_of_counts; [apply NoDup_nodup|].
    intros x Hx. now apply GapFacts.set_In. }
  assert (Hlen : List.length l = Nat.min 7 (List.length (p :: ps))).
  { unfold l, window. now rewrite length_map, length_firstn. }
  split; [exact Hsum|]. split; [exact Hlen|]. split; [|split; [|split]].
  - rewrite length_map.
    pose proof (GapCountFacts.list_sum_filter
                  (fun tc => (3 <=? snd tc)%nat) mix) as H1.
    assert (H2 : Forall (fun x => (3 <= snd x)%nat)
                   (filter (fun tc => (3 <=? snd tc)%nat) mix)).
    { apply Forall_forall. intros x Hx. apply filter_In in Hx.
      now apply Nat.leb_le. }
    apply GapCountFacts.list_sum_at_least in H2. lia.
  - intros t Hmiss Hover.
    apply filter_In in Hmiss. destruct Hmiss as [_ Hmiss].
    apply Bool.negb_true_iff in Hmiss.
    apply in_map_iff in Hover. destruct Hover as [[t' c] [E Hin]].
    simpl in E. subst t'. apply filter_In in Hin. destruct Hin as [Hin _].
    apply GapFacts.mix_In in Hin. destruct Hin as [Hin _].
    apply GapFacts.mem_In in Hin. congruence.
  - apply NoDup_filter. unfold all_types.
    repeat constructor; simpl; intuition discriminate.
  - apply GapCountFacts.NoDup_keys_filter.
    unfold mix. rewrite GapFacts.mix_keys. apply NoDup_nodup.
Qed.

(* ================================================================== *)
(** * The recommendation request *)

Module RecommendFacts.

Lemma rhythm_total (now : Datetime.datetime) (posts : list post) :
  Forall readable_date posts ->
  exists r, _analyze_posting_rhythm now posts = Ok r.
Proof.
  intros Hd. unfold _analyze_posting_rhythm.
  destruct (Nat.ltb_spec (List.length posts) 2) as [_|Hlen]; [eauto|].
  destruct (mapM_total (fun p => Datetime.strptime (p_date_posted p)) posts)
    as [parsed Hparsed].
  { rewrite Forall_forall in Hd. exact Hd. }
  rewrite Hparsed. cbn [bind].
  pose proof (SortFacts.sorted_desc_length (fun d => d) Datetime.ltb parsed)
    as Hl.
  rewrite (mapM_length _ _ Hparsed) in Hl.
  destruct (sorted_desc (fun d => d) Datetime.ltb parsed)
    as [|newest [|second rest]]; simpl in Hl; try lia.
  change (gaps_of (newest :: second :: rest))
    with (Datetime.sub_days newest second :: gaps_of (second :: rest)).
  set (gaps := Datetime.sub_days newest second :: gaps_of (second :: rest)).
  change (match gaps with
          | [] => Ok 0%Q
          | _ :: _ => truediv (sum gaps) (len gaps)
          end) with (truediv (sum gaps) (len gaps)).
  rewrite AnalysisFacts.truediv_len by discriminate. cbn [bind]. eauto.
Qed.

Lemma StronglySorted_map (A B : Type) (R : A -> A -> Prop)
      (R' : B -> B -> Prop) (f : A -> B) (l : list A) :
  (forall x y, R x y -> R' (f x) (f y)) ->
  StronglySorted R l -> StronglySorted R' (map f l).
Proof.
  intros HR. induction 1 as [|x l Hl IH Hx]; cbn [map]; constructor;
    [exact IH|].
  apply Forall_forall. intros q Hq.
  apply in_map_iff in Hq. destruct Hq as [y [<- Hy]].
  rewrite Forall_forall in Hx. now apply HR, Hx.
Qed.

Lemma take_length (n : nat) (s : string) :
  (String.length (PyStr.take n s) <= n)%nat.
Proof.
  unfold PyStr.take. revert s.
  induction n as [|n IHn]; intros [|c s]; simpl; try lia.
  specialize (IHn s). lia.
Qed.

Lemma activity_total (now : Datetime.datetime) (posts : list post) :
  Forall readable_date posts ->
  exists acts,
    mapM (activity_of now) posts = Ok acts
    /\ Forall (fun act =>
                 (String.length (act_caption_preview act) <= 83)%nat) acts.
Proof.
  induction 1 as [|p posts [d Hp] _ [acts [IH Hb]]].
  - exists []. split; [reflexivity | constructor].
  - cbn [mapM]. unfold activity_of at 1. rewrite Hp. cbn [bind].
    rewrite IH. cbn [bind]. eexists. split; [reflexivity|].
    constructor; [|exact Hb]. cbn [act_caption_preview].
    rewrite ReportTextFacts.length_app. simpl String.length.
    pose proof (take_length 80 (p_caption p)). lia.
Qed.

Lemma Forall_firstn (A : Type) (P : A -> Prop) (n : nat) (l : list A) :
  Forall P l -> Forall P (firstn n l).
Proof.
  rewrite !Forall_forall. intros H x Hx. apply H. now apply In_firstn in Hx.
Qed.

(** The item that [max] returns splits the items: smaller values before
    it, no greater value after it. *)
Lemma max_from_split (items : list (string * Q)) :
  forall best earlier between,
    (forall x, In x earlier -> (snd x < snd best)%Q) ->
    (forall x, In x between -> (snd x <= snd best)%Q) ->
    exists earlier' later,
      earlier ++ best :: between ++ items
      = earlier' ++ max_from best items :: later
      /\ (forall x, In x earlier' -> (snd x < snd (max_from best items))%Q)
      /\ (forall x, In x later -> (snd x <= snd (max_from best items))%Q).
Proof.
  induction items as [|y items IH]; intros best earlier between He Hb;
    cbn [max_from].
  - exists earlier, between. rewrite app_nil_r. auto.
  - destruct (Qltb (snd best) (snd y)) eqn:E.
    + apply RhythmFacts.Qltb_lt in E.
      destruct (IH y (earlier ++ best :: between) []) as (e' & l' & Eq & H1 & H2).
      * intros x Hx. apply in_app_or in Hx.
        destruct Hx as [Hx|[<-|Hx]]; [|exact E|].
        -- apply Qlt_trans with (snd best); [now apply He | exact E].
        -- apply Qle_lt_trans with (snd best); [now apply Hb | exact E].
      * intros x [].
      * exists e', l'. split; [|split; assumption].
        rewrite <- Eq. cbn [app]. rewrite <- app_assoc. reflexivity.
    + unfold Qltb in E. apply Bool.negb_false_iff, Qle_bool_iff in E.
      destruct (IH best earlier (between ++ [y])) as (e' & l' & Eq & H1 & H2).
      * exact He.
      * intros x Hx. apply in_app_or in Hx.
        destruct Hx as [Hx|[<-|[]]]; [now apply Hb | exact E].
      * exists e', l'. split; [|split; assumption].
        rewrite <- Eq. rewrite <- app_assoc. reflexivity.
Qed.

(** A store with a record has an average for the type of the record. *)
Lemma type_means_nonempty (p : post) (ps : list post) (a : analysis) :
  content_analysis (p :: ps) = Ok (Report a) ->
  avg_engagement_by_type a <> [].
Proof.
  intros H. rewrite content_analysis_fields in H.
  apply DateFacts.ok_eq, report_eq in H. subst a.
  cbn [avg_engagement_by_type].
  set (posts := p :: ps). set (st := fold_left post_step posts counters0).
  assert (Hne : lookup (type_engagement st) (p_type p) <> []).
  { destruct (counts_loop (p_type p) posts counters0) as (_ & _ & _ & H4).
    fold st in H4. rewrite H4. unfold engagement_of_type, posts.
    cbn [filter]. unfold has_type at 1. rewrite String.eqb_refl.
    cbn. discriminate. }
  apply In_lookup in Hne. intros E.
  assert (Hk : keys (means (type_engagement st)) = []) by now rewrite E.
  rewrite keys_means in Hk. apply RankFacts.In_keys in Hne. rewrite Hk in Hne.
  exact Hne.
Qed.

End RecommendFacts.

Module RequestFacts.

Section Facts.
Variable Embedding : Type.
Variable initiate_chat : briefing -> chat_result.

(** The request on a store whose records are read and whose dates are
    read: each step succeeds, and the answer is the report of the
    conversation opened with the briefing. *)
Lemma request_steps (now : Datetime.datetime)
      (self : collection Embedding) (posts : list post) (context : string) :
  get_all_posts self = Ok posts -> posts <> [] ->
  Forall readable_date posts ->
  let recent := slice_to 10 (sorted_desc p_date_posted String.ltb posts) in
  let high :=
    sorted_desc pp_engagement Z.ltb
      (map forget_id (filter (engages 1000) posts)) in
  exists a posting_rhythm recent_activity,
    content_analysis posts = Ok (Report a)
    /\ total_posts a = len posts
    /\ _analyze_posting_rhythm now recent = Ok posting_rhythm
    /\ mapM (activity_of now) (firstn 5 recent) = Ok recent_activity
    /\ Forall (fun act =>
                 (String.length (act_caption_preview act) <= 83)%nat)
              recent_activity
    /\ get_next_post_recommendations initiate_chat now self context
       = Ok (_extract_recommendations
               (initiate_chat
                  {| br_context := context_line context;
                     br_data :=
                       {| bd_account_overview :=
                            {| ov_total_posts := total_posts a;
                               ov_avg_engagement := avg_engagement a;
                               ov_content_types := type_distribution a;
                               ov_top_performing_type :=
                                 fst (max_by_value (avg_engagement_by_type a)
                                        ("satisfying_video", 0%Q)) |};
                          bd_recent_activity := recent_activity;
                          bd_top_performers :=
                            map performer_of (firstn 3 high);
                          bd_content_gaps := _analyze_content_gaps recent;
                          bd_posting_rhythm := posting_rhythm;
                          bd_best_hashtags :=
                            firstn 5 (keys (best_performing_hashtags a))
                       |} |})).
Proof.
  intros Hposts Hne Hdates recent high.
  destruct posts as [|p ps]; [congruence|].
  destruct (AnalysisFacts.content_analysis_cons p ps) as [a [Ha Htotal]].
  assert (Hrecent : Forall readable_date recent).
  { unfold recent. rewrite RecentFacts.slice_to_nonneg by lia.
    apply RecommendFacts.Forall_firstn.
    rewrite Forall_forall in *. intros x Hx. apply Hdates.
    eapply Permutation_in; [apply SortFacts.sorted_desc_perm | exact Hx]. }
  destruct (RecommendFacts.rhythm_total now Hrecent) as [r Hr].
  destruct (@RecommendFacts.activity_total now (firstn 5 recent))
    as [acts [Hacts Hbound]].
  { now apply RecommendFacts.Forall_firstn. }
  exists a, r, acts.
  split; [exact Ha|]. split; [exact Htotal|]. split; [exact Hr|].
  split; [exact Hacts|]. split; [exact Hbound|].
  unfold get_next_post_recommendations, get_content_analysis,
    get_recent_posts, get_high_engagement_posts.
  rewrite Hposts. cbn [bind]. rewrite Ha. cbn [bind].
  rewrite (@QueryFacts.filtered_read Embedding
             (fun md => (1000 <=? md_engagement md)%Z) (engages 1000) self)
    with (posts := p :: ps); [| |exact Hposts].
  2:{ intros e q Hq. unfold engages.
      now rewrite (proj2 (QueryFacts.read_post_metadata _ Hq)). }
  cbn [bind no_posts analysis_get].
  assert (Hz : (total_posts a =? 0)%Z = false).
  { rewrite Htotal. unfold len. cbn [List.length]. lia. }
  rewrite Hz. fold recent. rewrite Hr. cbn [bind]. rewrite Hacts.
  cbn [bind]. reflexivity.
Qed.

End Facts.
End RequestFacts.

(** [get_next_post_recommendations] when every record is read and every
    date is read by [strptime].  On an empty database the answer is the
    fixed message that asks for posts, for every conversation, time and
    context.  On a database with at least one record the request
    succeeds and answers with the report extracted from the conversation
    that is opened with one briefing.
    The briefing carries the context, or "Regular content planning" for
    an empty context; the number of records of the database; the five
    newest records at most, each with a caption preview of 83 characters
    at most; three top performers at most, each with an engagement of
    1000 or more and three hashtags at most, in descending order of
    engagement; and five best hashtags at most. *)
Theorem recommendations_follow_the_briefing
        (Embedding : Type) (initiate_chat : briefing -> chat_result)
        (now : Datetime.datetime) (self : collection Embedding)
        (posts : list post) (context : string) :
  get_all_posts self = Ok posts ->
  Forall readable_date posts ->
  (posts = [] ->
   get_next_post_recommendations initiate_chat now self context
   = Ok no_posts_message)
  /\
  (posts <> [] ->
  exists b,
    get_next_post_recommendations initiate_chat now self context
    = Ok (_extract_recommendations (initiate_chat b))
    /\ br_context b = context_line context
    /\ ov_total_posts (bd_account_overview (br_data b))
       = get_post_count self
    /\ List.length (bd_recent_activity (br_data b))
       = Nat.min 5 (List.length posts)
    /\ Forall (fun act =>
                 (String.length (act_caption_preview act) <= 83)%nat)
              (bd_recent_activity (br_data b))
    /\ (List.length (bd_top_performers (br_data b)) <= 3)%nat
    /\ Forall (fun q => (1000 <= perf_engagement q)%Z
                        /\ (List.length (perf_hashtags q) <= 3)%nat
                        /\ (String.length (perf_caption_preview q)
                            <= 63)%nat)
              (bd_top_performers (br_data b))
    /\ StronglySorted
         (fun q q' => (perf_engagement q' <= perf_engagement q)%Z)
         (bd_top_performers (br_data b))
    /\ (List.length (bd_best_hashtags (br_data b)) <= 5)%nat).
Proof.
  intros Hposts Hdates. split.
  { intros ->. pose proof (StoreFacts.get_all_posts_length _ Hposts) as Hl.
    destruct self; [reflexivity | discriminate]. }
  intros Hne.
  destruct (@RequestFacts.request_steps Embedding initiate_chat now
              self posts context Hposts Hne Hdates)
    as (a & r & acts & Ha & Htotal & Hr & Hacts & Hbound & Hres).
  eexists. split; [exact Hres|].
  cbn [br_context br_data bd_account_overview ov_total_posts
       bd_recent_activity bd_top_performers bd_best_hashtags].
  split; [reflexivity|].
  split.
  { rewrite Htotal. unfold get_post_count, collection_count, len.
    now rewrite (StoreFacts.get_all_posts_length _ Hposts). }
  split.
  { rewrite (mapM_length _ _ Hacts), length_firstn.
    rewrite RecentFacts.slice_to_nonneg by lia.
    rewrite length_firstn, SortFacts.sorted_desc_length.
    change (Z.to_nat 10) with 10%nat. lia. }
  split; [exact Hbound|].
  split.
  { rewrite length_map, length_firstn. lia. }
  split.
  { apply Forall_forall. intros q Hq.
    apply in_map_iff in Hq. destruct Hq as [pp [<- Hpp]].
    apply In_firstn in Hpp.
    apply (Permutation_in _ (SortFacts.sorted_desc_perm _ _ _)) in Hpp.
    apply in_map_iff in Hpp. destruct Hpp as [p0 [<- Hp0]].
    apply filter_In in Hp0. destruct Hp0 as [_ Hp0]. unfold engages in Hp0.
    cbn [performer_of perf_engagement perf_hashtags perf_caption_preview
         forget_id pp_engagement pp_hashtags pp_caption].
    split; [lia|]. split; [rewrite length_firstn; lia|].
    rewrite ReportTextFacts.length_app.
    change (String.length "...") with 3%nat.
    pose proof (RecommendFacts.take_length 60 (p_caption p0)). lia. }
  split.
  { assert (Hs : StronglySorted (before pp_engagement Z.ltb)
                   (sorted_desc pp_engagement Z.ltb
                      (map forget_id (filter (engages 1000) posts)))).
    { apply SortFacts.sorted_desc_sorted;
        [apply QueryFacts.Z_before_trans | apply QueryFacts.Z_ltb_asym]. }
    apply (ReportFacts.StronglySorted_firstn 3) in Hs.
    revert Hs. apply RecommendFacts.StronglySorted_map.
    intros x y Hxy. unfold before in Hxy.
    cbn [performer_of perf_engagement]. lia. }
  rewrite length_firstn. lia.
Qed.

Lemma recommendations_follow_the_briefing_witness :
  get_next_post_recommendations Samples.scripted_chat Samples.rhythm_now
    (@nil (entry unit)) "launch week"
  = Ok no_posts_message
  /\
  exists b,
    get_next_post_recommendations Samples.scripted_chat Samples.rhythm_now
      Samples.dated_store ""
    = Ok (_extract_recommendations (Samples.scripted_chat b))
    /\ br_context b = context_line ""
    /\ ov_total_posts (bd_account_overview (br_data b))
       = get_post_count Samples.dated_store
    /\ List.length (bd_recent_activity (br_data b))
       = Nat.min 5 (List.length Samples.dated_posts)
    /\ Forall (fun act =>
                 (String.length (act_caption_preview act) <= 83)%nat)
              (bd_recent_activity (br_data b))
    /\ (List.length (bd_top_performers (br_data b)) <= 3)%nat
    /\ Forall (fun q => (1000 <= perf_engagement q)%Z
                        /\ (List.length (perf_hashtags q) <= 3)%nat
                        /\ (String.length (perf_caption_preview q)
                            <= 63)%nat)
              (bd_top_performers (br_data b))
    /\ StronglySorted
         (fun q q' => (perf_engagement q' <= perf_engagement q)%Z)
         (bd_top_performers (br_data b))
    /\ (List.length (bd_best_hashtags (br_data b)) <= 5)%nat.
Proof.
  split.
  - apply (proj1 (@recommendations_follow_the_briefing unit
                    Samples.scripted_chat Samples.rhythm_now [] []
                    "launch week" eq_refl (Forall_nil _))).
    reflexivity.
  - refine (proj2 (@recommendations_follow_the_briefing unit
                     Samples.scripted_chat Samples.rhythm_now
                     Samples.dated_store Samples.dated_posts "" eq_refl _) _).
    + repeat constructor; eexists; vm_compute; reflexivity.
    + discriminate.
Defined.

(** The top performing type of the briefing, on a database with at least
    one record: it is a type of [avg_engagement_by_type] of the analysis,
    no type has a greater average, and the types listed before it have a
    smaller one: of several types with the greatest average the first is
    named. *)
Theorem top_performing_type_has_the_greatest_average
        (Embedding : Type) (initiate_chat : briefing -> chat_result)
        (now : Datetime.datetime) (self : collection Embedding)
        (posts : list post) (context : string) :
  get_all_posts self = Ok posts -> posts <> [] ->
  Forall readable_date posts ->
  exists b a,
    get_next_post_recommendations initiate_chat now self context
    = Ok (_extract_recommendations (initiate_chat b))
    /\ get_content_analysis self = Ok (Report a)
    /\ exists earlier m later,
        avg_engagement_by_type a
        = earlier
            ++ (ov_top_performing_type (bd_account_overview (br_data b)), m)
            :: later
        /\ (forall x, In x earlier -> (snd x < m)%Q)
        /\ (forall x, In x later -> (snd x <= m)%Q).
Proof.
  intros Hposts Hne Hdates.
  destruct (@RequestFacts.request_steps Embedding initiate_chat now
              self posts context Hposts Hne Hdates)
    as (a & r & acts & Ha & _ & _ & _ & _ & Hres).
  eexists. exists a. split; [exact Hres|].
  split; [unfold get_content_analysis; now rewrite Hposts|].
  cbn [br_data bd_account_overview ov_top_performing_type].
  destruct posts as [|p ps]; [congruence|].
  pose proof (@RecommendFacts.type_means_nonempty _ _ _ Ha) as Hitems.
  destruct (avg_engagement_by_type a) as [|x items]; [congruence|].
  cbn [max_by_value].
  destruct (@RecommendFacts.max_from_split items x [] [])
    as (earlier & later & E & H1 & H2);
    [intros ? [] | intros ? [] |].
  exists earlier, (snd (max_from x items)), later.
  rewrite <- surjective_pairing. split; [exact E|]. split; assumption.
Qed.

Lemma top_performing_type_has_the_greatest_average_witness :
  exists b a,
    get_next_post_recommendations Samples.scripted_chat Samples.rhythm_now
      Samples.dated_store ""
    = Ok (_extract_recommendations (Samples.scripted_chat b))
    /\ get_content_analysis Samples.dated_store = Ok (Report a)
    /\ exists earlier m later,
        avg_engagement_by_type a
        = earlier
            ++ (ov_top_performing_type (bd_account_overview (br_data b)), m)
            :: later
        /\ (forall x, In x earlier -> (snd x < m)%Q)
        /\ (forall x, In x later -> (snd x <= m)%Q).
Proof.
  apply (@top_performing_type_has_the_greatest_average unit
           Samples.scripted_chat Samples.rhythm_now Samples.dated_store
           Samples.dated_posts "" eq_refl).
  - discriminate.
  - repeat constructor; eexists; vm_compute; reflexivity.
Defined.

(* ================================================================== *)
(** * The tag list of the [add] command *)

Module TagListFacts.
Import PyStr.

Lemma contains_comma_cons (c : ascii) (t : string) :
  contains "," (String c t) = (code c =? 44)%N || contains "," t.
Proof.
  cbn [contains prefix].
  destruct (ascii_dec "," c) as [<-|Hne].
  - destruct t; reflexivity.
  - replace (code c =? 44)%N with false; [reflexivity|].
    symmetry. apply N.eqb_neq. intros E. apply Hne.
    unfold code in E. rewrite <- (ascii_N_embedding c), E. reflexivity.
Qed.

Lemma comma_free_cons (c : ascii) (t : string) :
  comma_free (String c t) <-> (code c =? 44)%N = false /\ comma_free t.
Proof.
  unfold comma_free. rewrite contains_comma_cons. apply Bool.orb_false_iff.
Qed.

Lemma split_comma_nonempty (s : string) : split_comma s <> [].
Proof.
  destruct s as [|c t]; cbn [split_comma]; [discriminate|].
  destruct (code c =? 44)%N; [discriminate|].
  destruct (split_comma t); discriminate.
Qed.

Lemma split_comma_free (t : string) :
  comma_free t -> split_comma t = [t].
Proof.
  induction t as [|c t IH]; intros H; [reflexivity|].
  apply comma_free_cons in H. destruct H as [Hc Ht].
  cbn [split_comma]. rewrite Hc, (IH Ht). reflexivity.
Qed.

Lemma split_comma_app (t rest : string) :
  comma_free t ->
  split_comma (t ++ String "," rest) = t :: split_comma rest.
Proof.
  induction t as [|c t IH]; intros H; [reflexivity|].
  apply comma_free_cons in H. destruct H as [Hc Ht].
  cbn [append split_comma]. rewrite Hc, (IH Ht). reflexivity.
Qed.

(** [split] undoes [join] on pieces without a comma. *)
Lemma split_comma_joined (p : string) (pieces : list string) :
  Forall comma_free (p :: pieces) ->
  split_comma (joined "," (p :: pieces)) = p :: pieces.
Proof.
  revert p. induction pieces as [|q pieces IH]; intros p H.
  - apply split_comma_free. now inversion H.
  - inversion H as [|? ? Hp Hq]; subst.
    change (joined "," (p :: q :: pieces))
      with (p ++ String "," (joined "," (q :: pieces)))%string.
    rewrite (@split_comma_app _ _ Hp), (IH q Hq). reflexivity.
Qed.

(** The pieces of a split hold no comma. *)
Lemma split_comma_pieces (s : string) : Forall comma_free (split_comma s).
Proof.
  induction s as [|c t IH]; cbn [split_comma].
  - repeat constructor.
  - destruct (code c =? 44)%N eqn:Hc.
    + constructor; [reflexivity | exact IH].
    + destruct (split_comma t) as [|h r].
      * repeat constructor. apply comma_free_cons. now split.
      * inversion IH; subst. constructor; [|assumption].
        apply comma_free_cons. now split.
Qed.

Lemma lstrip_comma_free (s : string) : comma_free s -> comma_free (lstrip s).
Proof.
  induction s as [|c t IH]; intros H; [exact H|].
  cbn [lstrip]. destruct (isspace c); [|exact H].
  apply comma_free_cons in H. now apply IH.
Qed.

Lemma rstrip_comma_free (s : string) : comma_free s -> comma_free (rstrip s).
Proof.
  induction s as [|c t IH]; intros H; [exact H|].
  apply comma_free_cons in H. destruct H as [Hc Ht].
  cbn [rstrip]. specialize (IH Ht).
  destruct (rstrip t) as [|c' t'].
  - destruct (isspace c); [reflexivity|].
    apply comma_free_cons. now split.
  - apply comma_free_cons. now split.
Qed.

Lemma rstrip_idem (s : string) : rstrip (rstrip s) = rstrip s.
Proof.
  induction s as [|c t IH]; [reflexivity|].
  cbn [rstrip]. destruct (rstrip t) as [|c' t'] eqn:E.
  - destruct (isspace c) eqn:Hc; [reflexivity|].
    cbn [rstrip]. now rewrite Hc.
  - change (rstrip (String c (String c' t')))
      with (match rstrip (String c' t') with
            | EmptyString =>
                if isspace c then EmptyString else String c EmptyString
            | String a b => String c (String a b)
            end).
    rewrite IH. reflexivity.
Qed.

(** A text that does not start with white space keeps its start under
    [rstrip]. *)
Lemma lstrip_rstrip (s : string) :
  lstrip s = s -> lstrip (rstrip s) = rstrip s.
Proof.
  destruct s as [|c t]; [reflexivity|].
  cbn [lstrip]. destruct (isspace c) eqn:Hc.
  - intros H. exfalso.
    assert (Hl : forall u, (String.length (lstrip u) <= String.length u)%nat).
    { induction u as [|a u IHu]; cbn [lstrip]; [lia|].
      destruct (isspace a); cbn [String.length] in *; lia. }
    specialize (Hl t). rewrite H in Hl. cbn [String.length] in Hl. lia.
  - intros _. cbn [rstrip].
    destruct (rstrip t); [rewrite Hc|]; cbn [lstrip]; now rewrite Hc.
Qed.

Lemma lstrip_idem (s : string) : lstrip (lstrip s) = lstrip s.
Proof.
  induction s as [|c t IH]; [reflexivity|].
  cbn [lstrip]. destruct (isspace c) eqn:Hc; [exact IH|].
  cbn [lstrip]. now rewrite Hc.
Qed.

Lemma strip_idem (s : string) : strip (strip s) = strip s.
Proof.
  unfold strip.
  rewrite (@lstrip_rstrip (lstrip s) (lstrip_idem s)). apply rstrip_idem.
Qed.

Lemma strip_space (s : string) : strip (String " " s) = strip s.
Proof. reflexivity. Qed.

Lemma hashtag_list_filter (pieces : list string) :
  map strip (filter (fun tag => truthy (strip tag)) pieces)
  = filter truthy (map strip pieces).
Proof.
  induction pieces as [|p pieces IH]; [reflexivity|].
  cbn [filter map]. destruct (truthy (strip p)); cbn [map]; now rewrite IH.
Qed.

Lemma joined_spaced (t : string) (tags : list string) :
  joined ", " (t :: tags)
  = joined "," (t :: map (fun u => String " " u) tags).
Proof.
  revert t. induction tags as [|u tags IH]; intros t; [reflexivity|].
  change (joined ", " (t :: u :: tags))
    with (t ++ String "," (String " " (joined ", " (u :: tags))))%string.
  rewrite IH. cbn [map].
  destruct (map (fun u0 => String " " u0) tags); reflexivity.
Qed.

Lemma clean_tags_stay (tags : list string) :
  Forall clean_tag tags -> filter truthy (map strip tags) = tags.
Proof.
  induction 1 as [|t tags (Hne & Hs & _) _ IH]; [reflexivity|].
  cbn [map filter]. rewrite Hs, IH.
  destruct t; [congruence | reflexivity].
Qed.

End TagListFacts.

(** The tag list that the [add] command builds from its [--hashtags]
    option: every tag is not empty, has no white space around it and
    holds no comma. *)
Theorem hashtag_list_tags_are_clean (hashtags : string) :
  Forall clean_tag (hashtag_list hashtags).
Proof.
  unfold hashtag_list. apply Forall_forall. intros t Ht.
  apply in_map_iff in Ht. destruct Ht as [piece [<- Hp]].
  apply filter_In in Hp. destruct Hp as [Hin Htruthy].
  split; [|split].
  - intros E. rewrite E in Htruthy. discriminate.
  - apply TagListFacts.strip_idem.
  - unfold PyStr.strip.
    apply TagListFacts.rstrip_comma_free, TagListFacts.lstrip_comma_free.
    pose proof (TagListFacts.split_comma_pieces hashtags) as H.
    rewrite Forall_forall in H. now apply H.
Qed.

(** The tag list reads back what was joined.  Pieces without a comma,
    joined with commas, give the pieces stripped of the white space
    around them, those that are blank left out; clean tags joined with a
    comma and a space give the tags themselves; and the empty option
    gives no tag. *)
Theorem hashtag_list_reads_joined_tags :
  (forall pieces,
      Forall comma_free pieces ->
      hashtag_list (joined "," pieces)
      = filter PyStr.truthy (map PyStr.strip pieces))
  /\ (forall tags,
         Forall clean_tag tags -> hashtag_list (joined ", " tags) = tags)
  /\ hashtag_list "" = [].
Proof.
  assert (H1 : forall pieces,
             Forall comma_free pieces ->
             hashtag_list (joined "," pieces)
             = filter PyStr.truthy (map PyStr.strip pieces)).
  { intros [|p pieces] H; [reflexivity|].
    unfold hashtag_list. rewrite (@TagListFacts.split_comma_joined _ _ H).
    apply TagListFacts.hashtag_list_filter. }
  split; [exact H1|]. split; [|reflexivity].
  intros [|t tags] H; [reflexivity|].
  rewrite TagListFacts.joined_spaced, H1.
  - cbn [map]. rewrite map_map.
    rewrite (map_ext (fun u => PyStr.strip (String " " u)) PyStr.strip)
      by (intros u; apply TagListFacts.strip_space).
    now apply (TagListFacts.clean_tags_stay (tags := t :: tags)).
  - inversion H as [|? ? (_ & _ & Ht) Htags]; subst.
    constructor; [exact Ht|].
    apply Forall_forall. intros u Hu.
    apply in_map_iff in Hu. destruct Hu as [v [<- Hv]].
    rewrite Forall_forall in Htags. destruct (Htags v Hv) as (_ & _ & Hc).
    apply TagListFacts.comma_free_cons. now split.
Qed.

Lemma hashtag_list_reads_joined_tags_witness :
  hashtag_list (joined "," ["#asmr"; "  "; " #slime "])
  = ["#asmr"; "#slime"]
  /\ hashtag_list (joined ", " ["#asmr"; "#slime"]) = ["#asmr"; "#slime"].
Proof.
  split.
  - apply (proj1 hashtag_list_reads_joined_tags ["#asmr"; "  "; " #slime "]).
    repeat constructor.
  - apply (proj1 (proj2 hashtag_list_reads_joined_tags) ["#asmr"; "#slime"]).
    repeat constructor; discriminate.
Defined.

(* ================================================================== *)
(** * The calendar and the posting rhythm *)

Module CalendarFacts.
Import Datetime.
Open Scope Z_scope.

Lemma days_before_year_succ (y : Z) :
  days_before_year (y + 1)
  = days_before_year y + 365 + (if is_leap y then 1 else 0).
Proof.
  unfold days_before_year, is_leap. cbv zeta.
  replace (y + 1 - 1) with y by lia.
  destruct (y mod 4 =? 0) eqn:E4; destruct (y mod 100 =? 0) eqn:E100;
    destruct (y mod 400 =? 0) eqn:E400; cbn [andb orb negb];
    Z.to_euclidean_division_equations; lia.
Qed.

(** One year ends before a later one begins. *)
Lemma days_before_year_mono (y k : Z) :
  0 <= k ->
  days_before_year (y + 1) <= days_before_year (y + 1 + k).
Proof.
  intros Hk. revert k Hk. apply natlike_ind.
  - rewrite Z.add_0_r. lia.
  - intros k Hk IH. replace (y + 1 + Z.succ k) with (y + 1 + k + 1) by lia.
    rewrite (days_before_year_succ (y + 1 + k)).
    destruct (is_leap (y + 1 + k)); lia.
Qed.

Lemma days_in_month_bounds (y m : Z) : 28 <= days_in_month y m <= 31.
Proof.
  unfold days_in_month.
  destruct (m =? 2); [destruct (is_leap y); lia|].
  destruct ((m =? 4) || (m =? 6) || (m =? 9) || (m =? 11)); lia.
Qed.

Lemma days_before_month_upto_mono (y : Z) (n k : nat) :
  days_before_month_upto y n <= days_before_month_upto y (k + n).
Proof.
  induction k as [|k IH]; [reflexivity|].
  change (S k + n)%nat with (S (k + n)). cbn [days_before_month_upto].
  pose proof (days_in_month_bounds y (Z.of_nat (S (k + n)))). lia.
Qed.

Lemma days_before_month_succ (y m : Z) :
  1 <= m ->
  days_before_month y (m + 1) = days_before_month y m + days_in_month y m.
Proof.
  intros H. unfold days_before_month.
  replace (m + 1 - 1) with m by lia.
  replace (Z.to_nat m) with (S (Z.to_nat (m - 1))) by lia.
  cbn [days_before_month_upto]. f_equal. f_equal. lia.
Qed.

Lemma days_before_month_mono (y m1 m2 : Z) :
  m1 <= m2 -> days_before_month y m1 <= days_before_month y m2.
Proof.
  intros H. unfold days_before_month.
  replace (Z.to_nat (m2 - 1))
    with (Z.to_nat (m2 - 1) - Z.to_nat (m1 - 1) + Z.to_nat (m1 - 1))%nat
    by lia.
  apply days_before_month_upto_mono.
Qed.

Lemma days_of_year (y : Z) :
  days_before_month y 13 = 365 + (if is_leap y then 1 else 0).
Proof.
  unfold days_before_month. change (Z.to_nat (13 - 1)) with 12%nat.
  cbn [days_before_month_upto]. unfold days_in_month.
  cbn [Z.of_nat Pos.of_succ_nat Pos.succ Z.eqb Pos.eqb orb].
  destruct (is_leap y); lia.
Qed.

(** A day of the calendar lies within its year. *)
Lemma toordinal_within_year (d : datetime) :
  day_of_calendar d ->
  days_before_year (year d) < toordinal d <= days_before_year (year d + 1).
Proof.
  intros (Hy & Hm & Hd). unfold toordinal.
  rewrite days_before_year_succ.
  pose proof (days_of_year (year d)) as Hyear.
  pose proof (@days_before_month_mono (year d) 1 (month d) (proj1 Hm)) as H1.
  change (days_before_month (year d) 1) with 0 in H1.
  pose proof (@days_before_month_mono (year d) (month d + 1) 13) as H2.
  rewrite days_before_month_succ in H2 by lia.
  lia.
Qed.

(** [toordinal] follows the order of the calendar. *)
Lemma toordinal_mono (a b : datetime) :
  day_of_calendar a -> day_of_calendar b ->
  midnight a -> midnight b ->
  Datetime.ltb a b = false -> toordinal b <= toordinal a.
Proof.
  intros Ha Hb Ma Mb Hlt. unfold midnight in Ma, Mb.
  unfold Datetime.ltb in Hlt. rewrite Ma, Mb in Hlt.
  destruct (Z.lt_trichotomy (year b) (year a)) as [Hy|[Hy|Hy]]; [| |lia].
  - pose proof (toordinal_within_year Ha) as Wa.
    pose proof (toordinal_within_year Hb) as Wb.
    pose proof (@days_before_year_mono (year b) (year a - year b - 1)) as Hm.
    replace (year b + 1 + (year a - year b - 1)) with (year a) in Hm by lia.
    lia.
  - destruct Ha as (_ & Hma & Hda). destruct Hb as (_ & Hmb & Hdb).
    unfold toordinal. rewrite Hy in *.
    destruct (Z.lt_trichotomy (month b) (month a)) as [Hm|[Hm|Hm]]; [| |lia].
    + pose proof (@days_before_month_mono (year a) (month b + 1) (month a))
        as H.
      rewrite days_before_month_succ in H by lia. lia.
    + rewrite Hm in *. lia.
Qed.

Lemma digit_between_bounds (lo hi : Z) (c : ascii) (v : Z) :
  digit_between lo hi c = Some v -> lo <= v <= hi.
Proof.
  unfold digit_between. destruct (digit c) as [w|]; [|discriminate].
  destruct ((lo <=? w) && (w <=? hi)) eqn:E; [|discriminate].
  intros H. apply DateFacts.some_eq in H. subst w. lia.
Qed.

Lemma parse_month_bounds (s t : string) (m : Z) :
  parse_month s = Some (m, t) -> 1 <= m <= 12.
Proof.
  unfold parse_month. destruct s as [|a s]; [discriminate|].
  destruct s as [|b s'].
  - destruct (digit_between 1 9 a) as [v|] eqn:E; [|discriminate].
    apply digit_between_bounds in E. intros H.
    apply DateFacts.some_eq in H. inversion H; subst. lia.
  - destruct (digit_between 1 1 a) as [u|] eqn:E1;
      destruct (digit_between 0 2 b) as [v|] eqn:E2;
      destruct (digit_between 0 0 a) as [u'|] eqn:E3;
      destruct (digit_between 1 9 b) as [v'|] eqn:E4;
      destruct (digit_between 1 9 a) as [w|] eqn:E5;
      try discriminate;
      repeat match goal with
             | E : digit_between _ _ _ = Some _ |- _ =>
                 apply digit_between_bounds in E
             end;
      intros H; apply DateFacts.some_eq in H;
      assert (Hm := f_equal fst H); cbn [fst] in Hm; lia.
Qed.

Lemma digit_bounds (c : ascii) (v : Z) : digit c = Some v -> 0 <= v <= 9.
Proof. intros H. pose proof (DateFacts.digit_inv _ H). lia. Qed.

Lemma parse_day_positive (s t : string) (d : Z) :
  parse_day s = Some (d, t) -> 1 <= d.
Proof.
  unfold parse_day. destruct s as [|a s]; [discriminate|].
  destruct s as [|b s'].
  - destruct (digit_between 1 9 a) as [v|] eqn:E; [|discriminate].
    apply digit_between_bounds in E. intros H.
    apply DateFacts.some_eq in H.
    assert (Hm := f_equal fst H); cbn [fst] in Hm. lia.
  - destruct (digit_between 3 3 a) as [u|] eqn:E1;
      destruct (digit_between 0 1 b) as [v|] eqn:E2;
      destruct (digit_between 1 2 a) as [u1|] eqn:E3;
      destruct (digit b) as [v1|] eqn:E4;
      destruct (digit_between 0 0 a) as [u2|] eqn:E5;
      destruct (digit_between 1 9 b) as [v2|] eqn:E6;
      destruct (digit_between 1 9 a) as [w|] eqn:E7;
      destruct (PyStr.code a =? 32)%N;
      try discriminate;
      repeat match goal with
             | E : digit_between _ _ _ = Some _ |- _ =>
                 apply digit_between_bounds in E
             | E : digit _ = Some _ |- _ => apply digit_bounds in E
             end;
      intros H; apply DateFacts.some_eq in H;
      assert (Hm := f_equal fst H); cbn [fst] in Hm; lia.
Qed.

(** [strptime] returns days of the calendar. *)
Lemma strptime_day_of_calendar (s : string) (d : datetime) :
  strptime s = Ok d -> day_of_calendar d.
Proof.
  unfold strptime, day_of_calendar.
  destruct (parse_year s) as [[y s1]|]; [|discriminate].
  destruct (parse_dash s1) as [s2|]; [|discriminate].
  destruct (parse_month s2) as [[m s3]|] eqn:Em; [|discriminate].
  destruct (parse_dash s3) as [s4|]; [|discriminate].
  destruct (parse_day s4) as [[d' [|? ?]]|] eqn:Ed; try discriminate.
  destruct ((1 <=? y) && (d' <=? days_in_month y m)) eqn:E; [|discriminate].
  intros H. apply DateFacts.ok_eq in H. subst d.
  cbn [year month day].
  apply parse_month_bounds in Em. apply parse_day_positive in Ed. lia.
Qed.

Lemma last_cons (A : Type) (t : list A) :
  forall b a : A, last (b :: t) a = last t b.
Proof.
  induction t as [|c t IH]; intros b a; [reflexivity|].
  change (last (b :: c :: t) a) with (last (c :: t) a).
  rewrite (IH c a). symmetry. apply (IH c b).
Qed.

(** The day differences of a list add up to the days from its last date
    to its first. *)
Lemma sum_day_gaps (a : datetime) (dates : list datetime) :
  sum (day_gaps (a :: dates)) = toordinal a - toordinal (last dates a).
Proof.
  revert a. induction dates as [|b t IH]; intros a.
  - cbn. lia.
  - change (day_gaps (a :: b :: t))
      with ((toordinal a - toordinal b) :: day_gaps (b :: t)).
    rewrite CountFacts.sum_cons, IH.
    rewrite last_cons. lia.
Qed.

Lemma length_day_gaps (a : datetime) (dates : list datetime) :
  List.length (day_gaps (a :: dates)) = List.length dates.
Proof.
  revert a. induction dates as [|b t IH]; intros a; [reflexivity|].
  change (day_gaps (a :: b :: t))
    with ((toordinal a - toordinal b) :: day_gaps (b :: t)).
  cbn [List.length]. now rewrite IH.
Qed.

End CalendarFacts.

Module SpanFacts.
Import Datetime.

Lemma datetime_ltb_irrefl (d : datetime) : Datetime.ltb d d = false.
Proof. unfold Datetime.ltb. lia. Qed.

Lemma last_In (A : Type) (l : list A) : forall b, In (last l b) (b :: l).
Proof.
  induction l as [|c l IH]; intros b; [now left|].
  rewrite CalendarFacts.last_cons. right. apply IH.
Qed.

(** In a sorted list every date is not earlier than the last one. *)
Lemma sorted_last (a : datetime) (l : list datetime) :
  StronglySorted not_earlier (a :: l) ->
  forall d, In d (a :: l) -> not_earlier d (last l a).
Proof.
  revert a. induction l as [|b l IH]; intros a Hs d Hd.
  - destruct Hd as [<-|[]]. apply datetime_ltb_irrefl.
  - inversion Hs as [|? ? Hl Ha]; subst.
    rewrite CalendarFacts.last_cons.
    destruct Hd as [<-|Hd]; [|now apply IH].
    rewrite Forall_forall in Ha. apply Ha, last_In.
Qed.

Lemma Qmake_nonneg (a : Z) (p : positive) : (0 <= a)%Z -> (0 <= a # p)%Q.
Proof. intros H. unfold Qle. cbn [Qnum Qden]. lia. Qed.

End SpanFacts.

(** [_analyze_posting_rhythm] on two records or more, all dated: the
    days since the last post are counted from the newest date; the
    average gap is the number of days from the oldest date to the newest
    divided by the number of records less one, whatever the dates in
    between; it is never negative; and a newest date of today or later
    is never [overdue]. *)
Theorem average_gap_spans_the_dates
        (now : Datetime.datetime) (recent_posts : list post)
        (parsed : list Datetime.datetime) :
  (2 <= List.length recent_posts)%nat ->
  mapM (fun p => Datetime.strptime (p_date_posted p)) recent_posts
  = Ok parsed ->
  exists newest oldest avg_gap status,
    In newest parsed /\ In oldest parsed
    /\ (forall d, In d parsed ->
                  (Datetime.toordinal oldest <= Datetime.toordinal d
                   <= Datetime.toordinal newest)%Z)
    /\ _analyze_posting_rhythm now recent_posts
       = Ok (Rhythm (Datetime.sub_days now newest) avg_gap status)
    /\ (avg_gap
        == inject_Z (Datetime.toordinal newest - Datetime.toordinal oldest)
           / inject_Z (len recent_posts - 1))%Q
    /\ (0 <= avg_gap)%Q
    /\ ((Datetime.sub_days now newest <= 0)%Z -> status = on_schedule).
Proof.
  intros Hlen Hparsed.
  unfold _analyze_posting_rhythm.
  destruct (Nat.ltb_spec (List.length recent_posts) 2) as [H|_]; [lia|].
  rewrite Hparsed. cbn [bind].
  pose proof (SortFacts.sorted_desc_perm (fun d => d) Datetime.ltb parsed)
    as Hperm.
  pose proof (SortFacts.sorted_desc_sorted (fun d => d) Datetime.ltb
                datetime_before_trans datetime_ltb_asym parsed) as Hsorted.
  pose proof (mapM_strptime_midnight _ Hparsed) as Hmid.
  assert (Hcal : Forall day_of_calendar parsed).
  { apply Forall_forall. intros d Hd.
    destruct (@mapM_In _ _ _ _ _ _ Hparsed Hd) as [p [_ Hp]].
    now apply CalendarFacts.strptime_day_of_calendar in Hp. }
  apply (Permutation_Forall (Permutation_sym Hperm)) in Hmid.
  apply (Permutation_Forall (Permutation_sym Hperm)) in Hcal.
  pose proof (Permutation_length Hperm) as Hl.
  rewrite (mapM_length _ _ Hparsed) in Hl.
  destruct (sorted_desc (fun d => d) Datetime.ltb parsed)
    as [|newest [|second rest]]; simpl in Hl; try lia.
  set (dates := newest :: second :: rest) in *.
  set (oldest := last (second :: rest) newest).
  assert (Hin_oldest : In oldest dates).
  { unfold oldest, dates. apply SpanFacts.last_In. }
  assert (Hord : forall d, In d dates ->
                   (Datetime.toordinal oldest <= Datetime.toordinal d
                    <= Datetime.toordinal newest)%Z).
  { pose proof (proj1 (Forall_forall _ _) Hmid) as Hmid'.
    pose proof (proj1 (Forall_forall _ _) Hcal) as Hcal'.
    intros d Hd. split.
    - apply CalendarFacts.toordinal_mono; auto.
      apply (@SpanFacts.sorted_last _ _ Hsorted d Hd).
    - apply CalendarFacts.toordinal_mono; auto; try (apply Hmid' + apply Hcal');
        try now left.
      destruct Hd as [<-|Hd]; [apply SpanFacts.datetime_ltb_irrefl|].
      inversion Hsorted as [|? ? _ Hall]; subst.
      rewrite Forall_forall in Hall. now apply Hall. }
  rewrite (@gaps_of_midnight _ Hmid).
  pose proof (CalendarFacts.sum_day_gaps newest (second :: rest)) as Hsum.
  pose proof (CalendarFacts.length_day_gaps newest (second :: rest)) as Hlg.
  fold dates oldest in Hsum. fold dates in Hlg.
  destruct (day_gaps dates) as [|g gaps] eqn:Eg; [discriminate|].
  rewrite AnalysisFacts.truediv_len by discriminate. cbn [bind].
  exists newest, oldest. eexists. eexists.
  split; [apply (Permutation_in _ Hperm); now left|].
  split; [now apply (Permutation_in _ Hperm)|].
  split.
  { intros d Hd. apply Hord.
    now apply (Permutation_in _ (Permutation_sym Hperm)). }
  split; [reflexivity|].
  assert (Hnn : (0 <= sum (g :: gaps))%Z).
  { rewrite Hsum. specialize (Hord newest (or_introl eq_refl)). lia. }
  split; [|split].
  - rewrite Qmake_Qdiv, Hsum.
    replace (Z.pos (Z.to_pos (len (g :: gaps)))) with (len recent_posts - 1)%Z;
      [reflexivity|].
    unfold len. rewrite Hlg, <- Hl. cbn [List.length]. lia.
  - now apply SpanFacts.Qmake_nonneg.
  - intros Hdays.
    destruct (Qltb _ _) eqn:E; [|reflexivity].
    apply Qltb_lt in E. exfalso.
    apply (Qlt_not_le _ _ E).
    apply Qle_trans with 0%Q.
    + unfold Qle. cbn [Qnum Qden inject_Z]. lia.
    + apply Qmult_le_0_compat; [now apply SpanFacts.Qmake_nonneg|].
      unfold Qle. cbn. lia.
Qed.

Lemma average_gap_spans_the_dates_witness :
  exists newest oldest avg_gap status,
    In newest
       [{| Datetime.year := 2024; Datetime.month := 1; Datetime.day := 10;
           Datetime.micros := 0 |};
        {| Datetime.year := 2024; Datetime.month := 1; Datetime.day := 5;
           Datetime.micros := 0 |}]
    /\ In oldest
          [{| Datetime.year := 2024; Datetime.month := 1; Datetime.day := 10;
              Datetime.micros := 0 |};
           {| Datetime.year := 2024; Datetime.month := 1; Datetime.day := 5;
              Datetime.micros := 0 |}]
    /\ (forall d,
           In d
              [{| Datetime.year := 2024; Datetime.month := 1;
                  Datetime.day := 10; Datetime.micros := 0 |};
               {| Datetime.year := 2024; Datetime.month := 1;
                  Datetime.day := 5; Datetime.micros := 0 |}] ->
           (Datetime.toordinal oldest <= Datetime.toordinal d
            <= Datetime.toordinal newest)%Z)
    /\ _analyze_posting_rhythm Samples.rhythm_now Samples.rhythm_posts
       = Ok (Rhythm (Datetime.sub_days Samples.rhythm_now newest)
               avg_gap status)
    /\ (avg_gap
        == inject_Z (Datetime.toordinal newest - Datetime.toordinal oldest)
           / inject_Z (len Samples.rhythm_posts - 1))%Q
    /\ (0 <= avg_gap)%Q
    /\ ((Datetime.sub_days Samples.rhythm_now newest <= 0)%Z ->
        status = on_schedule).
Proof.
  apply (@average_gap_spans_the_dates Samples.rhythm_now
           Samples.rhythm_posts).
  - simpl. lia.
  - reflexivity.
Defined.

Module RequestErrors.

Lemma strptime_raises (s : string) (e : exn) :
  Datetime.strptime s = Raise e -> e = ValueError.
Proof.
  unfold Datetime.strptime.
  destruct (Datetime.parse_year s) as [[y s1]|]; [|congruence].
  destruct (Datetime.parse_dash s1) as [s2|]; [|congruence].
  destruct (Datetime.parse_month s2) as [[m s3]|]; [|congruence].
  destruct (Datetime.parse_dash s3) as [s4|]; [|congruence].
  destruct (Datetime.parse_day s4) as [[d [|? ?]]|]; try congruence.
  destruct ((1 <=? y)%Z && (d <=? Datetime.days_in_month y m)%Z); congruence.
Qed.

Lemma unreadable_raises (p : post) :
  ~ readable_date p ->
  Datetime.strptime (p_date_posted p) = Raise ValueError.
Proof.
  intros H. destruct (Datetime.strptime (p_date_posted p)) as [d|e] eqn:E.
  - elim H. now exists d.
  - now rewrite (strptime_raises _ E).
Qed.

(** A loop stops with the exception of the first item that raises. *)
Lemma mapM_raises (A B : Type) (f : A -> result B) (x : exn) (l : list A) :
  (forall a e, f a = Raise e -> e = x) ->
  forall a, In a l -> f a = Raise x -> mapM f l = Raise x.
Proof.
  intros Hf a. induction l as [|b l IH]; intros Hin Ha; [destruct Hin|].
  cbn [mapM]. destruct (f b) as [y|e] eqn:Eb.
  - destruct Hin as [->|Hin]; [congruence|].
    cbn [bind]. now rewrite (IH Hin Ha).
  - cbn [bind]. now rewrite (Hf _ _ Eb).
Qed.

Lemma activity_raises (now : Datetime.datetime) (p : post) (e : exn) :
  activity_of now p = Raise e -> e = ValueError.
Proof.
  unfold activity_of.
  destruct (Datetime.strptime (p_date_posted p)) as [d|e'] eqn:E;
    cbn [bind]; [discriminate|].
  intros H. apply strptime_raises in E. congruence.
Qed.

End RequestErrors.

(** [get_next_post_recommendations] stops with [ValueError] when the date
    of one of the ten most recent records is not read by [strptime]: no
    conversation is opened and no report is returned. *)
Theorem unreadable_date_stops_the_request
        (Embedding : Type) (initiate_chat : briefing -> chat_result)
        (now : Datetime.datetime) (self : collection Embedding)
        (posts : list post) (context : string) (p : post) :
  get_all_posts self = Ok posts ->
  In p (slice_to 10 (sorted_desc p_date_posted String.ltb posts)) ->
  ~ readable_date p ->
  get_next_post_recommendations initiate_chat now self context
  = Raise ValueError.
Proof.
  intros Hposts Hin Hbad.
  apply RequestErrors.unreadable_raises in Hbad.
  set (recent := slice_to 10 (sorted_desc p_date_posted String.ltb posts))
    in *.
  destruct posts as [|q qs]; [destruct Hin|].
  destruct (AnalysisFacts.content_analysis_cons q qs) as [a [Ha Htotal]].
  unfold get_next_post_recommendations, get_content_analysis,
    get_recent_posts, get_high_engagement_posts.
  rewrite Hposts. cbn [bind]. rewrite Ha. cbn [bind].
  rewrite (@QueryFacts.filtered_read Embedding
             (fun md => (1000 <=? md_engagement md)%Z) (engages 1000) self)
    with (posts := q :: qs); [| |exact Hposts].
  2:{ intros e q' Hq. unfold engages.
      now rewrite (proj2 (QueryFacts.read_post_metadata _ Hq)). }
  cbn [bind no_posts analysis_get].
  assert (Hz : (total_posts a =? 0)%Z = false).
  { rewrite Htotal. unfold len. cbn [List.length]. lia. }
  rewrite Hz. fold recent.
  unfold _analyze_posting_rhythm.
  destruct (Nat.ltb_spec (List.length recent) 2) as [Hshort|Hlong].
  - cbn [bind].
    destruct recent as [|r [|r' recent']]; [destruct Hin| |simpl in Hshort; lia].
    destruct Hin as [->|[]].
    cbn [firstn mapM]. unfold activity_of. rewrite Hbad. reflexivity.
  - rewrite (@RequestErrors.mapM_raises _ _
               (fun p => Datetime.strptime (p_date_posted p)) ValueError
               recent (fun a e => @RequestErrors.strptime_raises _ e)
               p Hin Hbad).
    reflexivity.
Qed.

Lemma unreadable_date_stops_the_request_witness :
  get_next_post_recommendations Samples.scripted_chat Samples.rhythm_now
    [Samples.dated_entry "p1" "2024-01-01";
     Samples.dated_entry "p2" "yesterday"] ""
  = Raise ValueError.
Proof.
  apply (@unreadable_date_stops_the_request unit Samples.scripted_chat
           Samples.rhythm_now
           [Samples.dated_entry "p1" "2024-01-01";
            Samples.dated_entry "p2" "yesterday"]
           [Samples.dated_post "p1" "2024-01-01";
            Samples.dated_post "p2" "yesterday"]
           "" (Samples.dated_post "p2" "yesterday")).
  - reflexivity.
  - vm_compute. now left.
  - intros [d Hd]. vm_compute in Hd. discriminate.
Defined.
